(** * anyrouter-check-in: browser automation core and masking utility

    A shallow embedding of [utils/masking.py] and [utils/browser.py]
    together with the properties established about them.

    Python values are modelled as follows:
    - [str] is a list of Unicode code points ([pystr]), so that [len] and
      slicing count characters, not bytes;
    - [dict[str, T]] is a finite map [gmap pystr T];
    - [None] is [None] of an [option];
    - awaited browser / HTTP operations are requests to an environment
      (the [World] class) that answers with a value or a raised exception;
      programs run in a state-and-exception monad that records every
      operation and every log line in a trace. *)

From Stdlib Require Import ZArith NArith Ascii String DecimalString.
From stdpp Require Import base tactics option list gmap fin_maps.

Set Warnings "-register-all".

Local Open Scope Z_scope.
Local Open Scope list_scope.

(** ** Python strings *)

Module PyStr.

(** A Python [str]: the sequence of its code points. *)
Abbreviation pystr := (list N).

(** String literals are written as UTF-8 text and decoded to code points. *)
Fixpoint utf8_decode (l : list N) : pystr :=
  match l with
  | [] => []
  | b :: r =>
      if (b <? 128)%N then b :: utf8_decode r
      else if (b <? 224)%N then
        match r with
        | b1 :: r1 =>
            (N.land b 31 * 64 + N.land b1 63)%N :: utf8_decode r1
        | _ => []
        end
      else if (b <? 240)%N then
        match r with
        | b1 :: b2 :: r2 =>
            (N.land b 15 * 4096 + N.land b1 63 * 64 + N.land b2 63)%N
              :: utf8_decode r2
        | _ => []
        end
      else
        match r with
        | b1 :: b2 :: b3 :: r3 =>
            (N.land b 7 * 262144 + N.land b1 63 * 4096
             + N.land b2 63 * 64 + N.land b3 63)%N :: utf8_decode r3
        | _ => []
        end
  end.

Definition py (s : string) : pystr :=
  utf8_decode (List.map N_of_ascii (list_ascii_of_string s)).

(** Literal in which a backquote stands for the double-quote character
    (code point 34); no literal of the program contains a backquote. *)
Definition pyq (s : string) : pystr :=
  List.map (fun c => if (c =? 96)%N then 34%N else c) (py s).

(** [needle in hay] for two strings. *)
Fixpoint startswith (p s : pystr) : bool :=
  match p, s with
  | [], _ => true
  | _ :: _, [] => false
  | a :: p', b :: s' => (a =? b)%N && startswith p' s'
  end.

Fixpoint str_in (needle hay : pystr) : bool :=
  startswith needle hay ||
  match hay with
  | [] => false
  | _ :: hay' => str_in needle hay'
  end.

(** [str(n)] for an integer. *)
Definition str_of_Z (z : Z) : pystr :=
  py (NilZero.string_of_int (Z.to_int z)).

Definition str_of_nat (n : nat) : pystr := str_of_Z (Z.of_nat n).

(** [s[:n]] *)
Definition slice_to (n : nat) (s : pystr) : pystr := take n s.

(** [s[-n:]] for [n > 0] *)
Definition slice_last (n : nat) (s : pystr) : pystr :=
  drop (length s - n) s.

(** Truthiness of a string. *)
Definition str_truthy (s : pystr) : bool :=
  match s with [] => false | _ => true end.

#[global] Arguments py : simpl never.
#[global] Arguments pyq : simpl never.
#[global] Arguments str_of_Z : simpl never.
#[global] Arguments slice_to : simpl never.

End PyStr.
Export PyStr.

(** ** utils/masking.py *)

Module Masking.

Definition session_key : pystr := py "session".

Definition mask_session (session : option pystr) : pystr :=
  match session with
  | None => py ""
  | Some s =>
      if negb (str_truthy s) then py ""
      else if (length s <=? 6)%nat then py "***"
      else slice_to 3 s ++ py "..." ++ slice_last 3 s
  end.

Definition mask_password (password : option pystr) : pystr :=
  match password with
  | Some p => if str_truthy p then py "***" else py ""
  | None => py ""
  end.

(** The argument of [mask_cookies] is [dict | str | None]; the values of
    the dictionary are strings or [None]. *)
Inductive cookies_arg :=
| CookiesNone
| CookiesStr (s : pystr)
| CookiesDict (d : gmap pystr (option pystr)).

Inductive masked_cookies :=
| MaskedDict (d : gmap pystr (option pystr))
| MaskedStr (s : pystr).

Definition mask_cookies (cookies : cookies_arg) : masked_cookies :=
  match cookies with
  | CookiesNone => MaskedDict ∅
  | CookiesStr s =>
      if negb (str_truthy s) then MaskedDict ∅
      else if str_in (py "session=") s then MaskedStr (py "***session=***")
      else MaskedStr s
  | CookiesDict d =>
      if bool_decide (d = ∅) then MaskedDict ∅
      else
        MaskedDict
          (map_imap
             (fun k v =>
                Some (if bool_decide (k = session_key)
                      then Some (mask_session v) else v))
             d)
  end.

Definition mask_api_user (api_user : option pystr) : pystr :=
  match api_user with
  | Some u => u
  | None => py ""
  end.

(** [bool(cookies)] *)
Definition cookies_truthy (cookies : cookies_arg) : bool :=
  match cookies with
  | CookiesNone => false
  | CookiesStr s => str_truthy s
  | CookiesDict d => negb (bool_decide (d = ∅))
  end.

(** A value of the dictionary interpolated in an f-string. *)
Definition format_value (v : option pystr) : pystr :=
  match v with
  | Some s => s
  | None => py "None"
  end.

Definition mask_account_for_log (name : option pystr)
    (provider api_user : pystr) (cookies : cookies_arg) : pystr :=
  let display_name :=
    match name with
    | Some n =>
        if str_truthy n then n else py "Account (" ++ api_user ++ py ")"
    | None => py "Account (" ++ api_user ++ py ")"
    end in
  let without_session := display_name ++ py " [" ++ provider ++ py "]" in
  if cookies_truthy cookies then
    match mask_cookies cookies with
    | MaskedDict masked_cookies =>
        match masked_cookies !! session_key with
        | Some v =>
            display_name ++ py " [" ++ provider ++ py "] session="
            ++ format_value v
        | None => without_session
        end
    | MaskedStr _ => without_session
    end
  else without_session.

(** The result of [mask_cookies] passed to it again. *)
Definition masked_as_arg (m : masked_cookies) : cookies_arg :=
  match m with
  | MaskedDict d => CookiesDict d
  | MaskedStr s => CookiesStr s
  end.

End Masking.

(** ** utils/browser.py: values, operations and the execution monad *)

Module Browser.

(** *** Exceptions and outcomes *)

(** Raised exceptions.  Every fault of a page, a context or the HTTP
    client is an instance of [Exception]; [httpx.HTTPStatusError] is kept
    apart because [trigger_signin_via_http] has a clause for it.  Task
    cancellation is outside the model. *)
Inductive exn :=
| HTTPStatusError (status_code : Z) (msg : pystr)
| Exception (msg : pystr).

(** [str(e)] *)
Definition str_of_exn (e : exn) : pystr :=
  match e with
  | HTTPStatusError _ msg => msg
  | Exception msg => msg
  end.

Inductive outcome (A : Type) :=
| Val (a : A)
| Exn (e : exn).
Arguments Val {A} a.
Arguments Exn {A} e.

Definition is_val {A} (r : outcome A) : bool :=
  match r with Val _ => true | Exn _ => false end.

(** *** Values exchanged with the browser *)

(** A value handed back by [page.evaluate]. *)
Inductive pyval :=
| PyNone
| PyBool (b : bool)
| PyInt (z : Z)
| PyStr (s : pystr)
| PyList (l : list pyval)
| PyDict (d : list (pystr * pyval)).

Definition truthy (v : pyval) : bool :=
  match v with
  | PyNone => false
  | PyBool b => b
  | PyInt z => negb (z =? 0)
  | PyStr s => str_truthy s
  | PyList l => match l with [] => false | _ => true end
  | PyDict d => match d with [] => false | _ => true end
  end.

Fixpoint assoc_get (key : pystr) (d : list (pystr * pyval)) : pyval :=
  match d with
  | [] => PyNone
  | (k, v) :: d' => if bool_decide (k = key) then v else assoc_get key d'
  end.

(** Handles of live objects (context, page, element, browser, client). *)
Abbreviation handle := nat.

Record page := { page_context : handle; page_id : handle }.

(** An entry of [context.cookies()]; [.get('name')] and [.get('value')]
    may give [None]. *)
Record cookie := { cookie_name : option pystr; cookie_value : option pystr }.

(** The dictionary passed to [context.add_cookies]. *)
Record set_cookie := {
  sc_name : pystr; sc_value : pystr; sc_domain : pystr; sc_path : pystr;
  sc_httpOnly : bool; sc_secure : bool; sc_sameSite : pystr
}.

Record request := { req_method : pystr; req_url : pystr }.

Record launch_options := {
  user_data_dir : pystr;
  headless : bool;
  user_agent : option pystr;
  viewport : option (Z * Z);
  args : list pystr;
  ignore_https_errors : bool;
  java_script_enabled : bool;
  bypass_csp : bool
}.

Record client_options := {
  http2 : bool; timeout : Z; follow_redirects : bool; verify : bool
}.

(** What the code reads of an [httpx.Response]. *)
Record response := { status_code : Z; response_url : pystr }.

(** *** Operations awaited on the outside world *)

Inductive op : Type -> Type :=
| PlaywrightStart : op unit
| PlaywrightStop : op unit
| Mkdtemp : op pystr
| LaunchPersistentContext (o : launch_options) : op handle
| AddInitScript (ctx : handle) (script : pystr) : op unit
| NewPage (ctx : handle) : op handle
| Goto (p : page) (url wait_until : pystr) : op unit
| WaitForFunction (p : page) (expr : pystr) (timeout : Z) : op unit
| WaitForTimeout (p : page) (ms : Z) : op unit
| ContextCookies (ctx : handle) : op (list cookie)
| ClearCookies (ctx : handle) : op unit
| AddCookies (ctx : handle) (cs : list set_cookie) : op unit
| Evaluate (p : page) (script : pystr) : op pyval
| WaitForSelector (p : page) (selector : pystr) (timeout : Z) : op unit
| QuerySelector (p : page) (selector : pystr) : op (option handle)
| Fill (element : handle) (text : pystr) : op unit
| Click (element : handle) : op unit
| KeyboardPress (p : page) (key : pystr) : op unit
| WaitForUrl (p : page) (pattern : pystr) (timeout : Z) : op unit
| PageUrl (p : page) : op pystr
| PageClose (p : page) : op unit
| ContextClose (ctx : handle) : op unit
| Rmtree (dir : pystr) : op unit
| SocketConnectEx (host : pystr) (port : Z) : op Z
| PathMkdir (path : pystr) : op unit
| PathExists (path : pystr) : op bool
| ConnectOverCdp (url : pystr) : op handle
| BrowserContexts (browser : handle) : op (list handle)
| BrowserNewContext (browser : handle) : op handle
| ClientOpen (o : client_options) : op handle
| ClientCookiesSet (client : handle) (name value domain : pystr) : op unit
| ClientGet (client : handle) (url : pystr)
    (headers : list (pystr * pystr)) : op response
| ClientClose (client : handle) : op unit.

(** The outside world: it answers every operation with a value or an
    exception, reports the network requests the page issued meanwhile,
    and moves to a new state.  A fake page is an instance. *)
Class World (W : Type) :=
  respond : forall X, op X -> W -> outcome X * list request * W.
Arguments respond {W _ X} o w.

(** Parts of the Python runtime that are used but not modelled. *)
Class PyRuntime := {
  str_lower : pystr -> pystr;
  urlparse_netloc : pystr -> outcome pystr;
  repr_str_list : list pystr -> pystr;
  repr_pyval : pyval -> pystr;
  attribute_error : pyval -> pystr -> pystr;
  subscript_error : pyval -> pystr
}.

(** [utils/constants.py] and the values read from the process
    environment at import time. *)
Class Constants := {
  BROWSER_ARGS : list pystr;
  CHROME_USER_AGENT : pystr;
  COOKIE_SET_WAIT_MS : Z;
  HTTP_TIMEOUT_SECONDS : Z;
  PAGE_LOAD_WAIT_MS : Z;
  SIGNIN_TRIGGER_WAIT_MS : Z;
  CHROME_DEBUG_PORT : Z;
  PLAYWRIGHT_USER_DATA_DIR : pystr
}.

(** *** Traces *)

Inductive event :=
| EvOp {X} (o : op X) (r : outcome X)
| EvRaise (e : exn)
| EvLogFn (msg : pystr)
| EvPrint (msg : pystr)
| EvAcquire
| EvRelease.

(** The local [log] of every strategy: the sink [log_fn] when one is
    supplied, [print] otherwise. *)
Definition log_event (log_fn : bool) (msg : pystr) : event :=
  if log_fn then EvLogFn msg else EvPrint msg.

(** *** Results *)

Record BrowserResult := {
  success : bool;
  waf_cookies : gmap pystr pystr;
  api_calls : list pystr;
  error : option pystr
}.

(** While the function is still running, the [api_calls] of a result is
    either a list of its own or the list the request listener appends
    to. *)
Inductive calls_ref :=
| SharedCalls
| FreshCalls (l : list pystr).

Record pending_result := {
  p_success : bool;
  p_waf_cookies : gmap pystr pystr;
  p_api_calls : calls_ref;
  p_error : option pystr
}.

(** *** Program state

    Next to the world and the process-wide cache, the state holds the
    trace, the local list [api_calls] and the request listener of the
    page.  The listener is the closure of [_create_api_logger] over
    [api_calls] and the local [log]; the state keeps whether one is
    installed and, if so, whether its [log] has a sink. *)

Record state (W : Type) := {
  world : W;
  waf_cookie_cache : gmap pystr (gmap pystr pystr);
  trace : list event;
  calls : list pystr;
  listener : option bool
}.
Arguments world {W} s.
Arguments waf_cookie_cache {W} s.
Arguments trace {W} s.
Arguments calls {W} s.
Arguments listener {W} s.

Definition fresh {W} (w : W) (cache : gmap pystr (gmap pystr pystr))
  : state W :=
  {| world := w; waf_cookie_cache := cache; trace := [];
     calls := []; listener := None |}.

Definition M (W A : Type) : Type := state W -> outcome A * state W.

#[export] Instance M_ret {W} : MRet (M W) := fun A a s => (Val a, s).

#[export] Instance M_bind {W} : MBind (M W) :=
  fun A B k m s =>
    match m s with
    | (Val a, s') => k a s'
    | (Exn e, s') => (Exn e, s')
    end.

Section Monad.
Context {W : Type} `{!World W}.

(** Propagation of an exception that is already on its way. *)
Definition raise {A} (e : exn) : M W A := fun s => (Exn e, s).

Definition emit (ev : event) : M W unit :=
  fun s =>
    (Val tt,
     {| world := world s; waf_cookie_cache := waf_cookie_cache s;
        trace := trace s ++ [ev]; calls := calls s;
        listener := listener s |}).

(** The outcome of a computation of the interpreter itself; an
    exception it raises is recorded in the trace. *)
Definition lift {A} (r : outcome A) : M W A :=
  match r with
  | Val a => mret a
  | Exn e => emit (EvRaise e) ;; raise e
  end.

(** Run [m] and hand its outcome over as a value. *)
Definition attempt {A} (m : M W A) : M W (outcome A) :=
  fun s => match m s with (r, s') => (Val r, s') end.

(** [try: body  except Exception as e: handler e] *)
Definition try_except {A} (body : M W A) (handler : exn -> M W A)
  : M W A :=
  fun s =>
    match body s with
    | (Val a, s') => (Val a, s')
    | (Exn e, s') => handler e s'
    end.

(** [try: body  finally: fin]; an exception of [fin] replaces the
    outcome of [body]. *)
Definition try_finally {A} (body : M W A) (fin : M W unit) : M W A :=
  fun s =>
    match body s with
    | (r, s') =>
        match fin s' with
        | (Val _, s'') => (r, s'')
        | (Exn e, s'') => (Exn e, s'')
        end
    end.

Definition get_calls : M W (list pystr) := fun s => (Val (calls s), s).

Definition get_cache : M W (gmap pystr (gmap pystr pystr)) :=
  fun s => (Val (waf_cookie_cache s), s).

Definition set_cache (c : gmap pystr (gmap pystr pystr)) : M W unit :=
  fun s =>
    (Val tt,
     {| world := world s; waf_cookie_cache := c; trace := trace s;
        calls := calls s; listener := listener s |}).

(** [api_calls.append(call)] *)
Definition append_call (call : pystr) : M W unit :=
  fun s =>
    (Val tt,
     {| world := world s; waf_cookie_cache := waf_cookie_cache s;
        trace := trace s; calls := calls s ++ [call];
        listener := listener s |}).

(** [api_calls: list[str] = []] followed by
    [page.on('request', _create_api_logger(api_calls, log))]. *)
Definition new_calls_and_listen (log_fn : bool) : M W unit :=
  fun s =>
    (Val tt,
     {| world := world s; waf_cookie_cache := waf_cookie_cache s;
        trace := trace s; calls := []; listener := Some log_fn |}).

(** [api_calls: list[str] = []], no listener. *)
Definition new_calls : M W unit :=
  fun s =>
    (Val tt,
     {| world := world s; waf_cookie_cache := waf_cookie_cache s;
        trace := trace s; calls := []; listener := None |}).

(** [log_request] of [_create_api_logger]: the requests to an API
    path among those seen during one operation, as [call_info]. *)
Definition _create_api_logger (reqs : list request) : list pystr :=
  List.map (fun rq => req_method rq ++ py " " ++ req_url rq)
    (List.filter (fun rq => str_in (py "/api/") (req_url rq)) reqs).

(** What the listener installed by [page.on('request', ...)] does with
    the requests of one operation: [api_calls.append(call_info)] and
    a log line for each. *)
Definition heard (l : option bool) (reqs : list request)
  : list pystr * list event :=
  match l with
  | Some log_fn =>
      (_create_api_logger reqs,
       List.map (fun call_info =>
                   log_event log_fn (py "[API请求] " ++ call_info))
                (_create_api_logger reqs))
  | None => ([], [])
  end.

(** Await an operation: the world answers, and the requests seen in
    the meantime go through the listener when one is installed. *)
Definition perform {X} (o : op X) : M W X :=
  fun s =>
    match respond o (world s) with
    | (r, reqs, w') =>
        let seen := heard (listener s) reqs in
        (r,
         {| world := w'; waf_cookie_cache := waf_cookie_cache s;
            trace := trace s ++ seen.2 ++ [EvOp o r];
            calls := calls s ++ seen.1;
            listener := listener s |})
    end.

(** The value seen by the caller once the function has returned. *)
Definition settle (r : pending_result) : M W BrowserResult :=
  fun s =>
    (Val {| success := p_success r;
            waf_cookies := p_waf_cookies r;
            api_calls := match p_api_calls r with
                         | SharedCalls => calls s
                         | FreshCalls l => l
                         end;
            error := p_error r |}, s).

(** [for x in l: body x] *)
Fixpoint for_each {A} (l : list A) (body : A -> M W unit) : M W unit :=
  match l with
  | [] => mret tt
  | x :: l' => body x ;; for_each l' body
  end.

(** [if c: body] *)
Definition when (c : bool) (body : M W unit) : M W unit :=
  if c then body else mret tt.

(** [async with async_playwright() as p: body] *)
Definition async_with_playwright {A} (body : M W A) : M W A :=
  perform PlaywrightStart ;;
  try_finally body (perform PlaywrightStop).

End Monad.

(** *** Helpers of the module *)

Definition STEALTH_SCRIPT : pystr := py "
// 隐藏 webdriver 标识
Object.defineProperty(navigator, 'webdriver', {
  get: () => undefined,
  configurable: true
});

// 模拟 Chrome 运行时
window.navigator.chrome = {
  runtime: {},
  loadTimes: function() {},
  csi: function() {},
  app: {}
};

// 模拟插件
Object.defineProperty(navigator, 'plugins', {
  get: () => {
    const plugins = [
      {name: 'Chrome PDF Plugin', filename: 'internal-pdf-viewer'},
      {name: 'Chrome PDF Viewer', filename: 'mhjfbmdgcfjbbpaeojofohoefgiehjai'},
      {name: 'Native Client', filename: 'internal-nacl-plugin'}
    ];
    plugins.item = (index) => plugins[index];
    plugins.namedItem = (name) => plugins.find(p => p.name === name);
    plugins.refresh = () => {};
    return plugins;
  },
  configurable: true
});

// 模拟语言
Object.defineProperty(navigator, 'languages', {
  get: () => ['zh-CN', 'zh', 'en-US', 'en'],
  configurable: true
});

// 隐藏自动化权限查询
const originalQuery = window.navigator.permissions.query;
window.navigator.permissions.query = (parameters) => (
  parameters.name === 'notifications' ?
    Promise.resolve({ state: Notification.permission }) :
    originalQuery(parameters)
);

// 模拟正常的 WebGL 渲染器
const getParameter = WebGLRenderingContext.prototype.getParameter;
WebGLRenderingContext.prototype.getParameter = function(parameter) {
  if (parameter === 37445) return 'Intel Inc.';
  if (parameter === 37446) return 'Intel Iris OpenGL Engine';
  return getParameter.apply(this, arguments);
};
".

Section Program.
Context {W : Type} `{!World W} `{!PyRuntime} `{!Constants}.

Definition log (log_fn : bool) (msg : pystr) : M W unit :=
  emit (log_event log_fn msg).

(** [if log_fn: log_fn(msg)] *)
Definition log_if (log_fn : bool) (msg : pystr) : M W unit :=
  when log_fn (emit (EvLogFn msg)).

Definition _create_stealth_context : M W (handle * pystr) :=
  temp_dir ← perform Mkdtemp;
  context ← perform (LaunchPersistentContext
    {| user_data_dir := temp_dir;
       headless := true;
       user_agent := Some CHROME_USER_AGENT;
       viewport := Some (1920, 1080);
       args := BROWSER_ARGS;
       ignore_https_errors := true;
       java_script_enabled := true;
       bypass_csp := true |});
  perform (AddInitScript context STEALTH_SCRIPT) ;;
  mret (context, temp_dir).

(** [page = await context.new_page()] *)
Definition new_page (context : handle) : M W page :=
  id ← perform (NewPage context);
  mret {| page_context := context; page_id := id |}.

(** [c in d] for a dictionary. *)
Definition dict_has {V} (d : gmap pystr V) (c : pystr) : bool :=
  bool_decide (is_Some (d !! c)).

(** [c in l] for a list of strings. *)
Definition list_has (l : list pystr) (c : pystr) : bool :=
  bool_decide (c ∈ l).

(** The loop body of [_get_waf_cookies]. *)
Definition keep_waf_cookie (required_cookies : list pystr)
    (waf_cookies : gmap pystr pystr) (c : cookie) : gmap pystr pystr :=
  match cookie_name c, cookie_value c with
  | Some cookie_name, Some cookie_value =>
      if list_has required_cookies cookie_name
      then <[cookie_name := cookie_value]> waf_cookies
      else waf_cookies
  | _, _ => waf_cookies
  end.

Definition _get_waf_cookies (p : page) (required_cookies : list pystr)
  : M W (gmap pystr pystr) :=
  cookies ← perform (ContextCookies (page_context p));
  mret (foldl (keep_waf_cookie required_cookies) ∅ cookies).

Definition _set_session_cookie (context : handle)
    (domain session_value : pystr) : M W unit :=
  cookie_domain ← lift (urlparse_netloc domain);
  perform (AddCookies context
    [ {| sc_name := py "session"; sc_value := session_value;
         sc_domain := cookie_domain; sc_path := py "/";
         sc_httpOnly := true; sc_secure := true;
         sc_sameSite := py "Lax" |} ]).

Definition _wait_for_page_load (p : page) : M W unit :=
  try_except
    (perform (WaitForFunction p
                (pyq "document.readyState === `complete`")
                PAGE_LOAD_WAIT_MS))
    (fun _ => perform (WaitForTimeout p PAGE_LOAD_WAIT_MS)).

(** The [finally] block shared by the three functions that own a
    stealth context: [if context: await context.close()] and then
    [if temp_dir: try: shutil.rmtree(...) except Exception: pass]. *)
Definition release_session (context : handle) (temp_dir : pystr)
  : M W unit :=
  perform (ContextClose context) ;;
  when (str_truthy temp_dir)
    (try_except (perform (Rmtree temp_dir)) (fun _ => mret tt)).

(** [context = None; temp_dir = None; try: context, temp_dir = await
    _create_stealth_context(p); body  except Exception as e: handler
    finally: release].  Both variables are bound at once, when
    [_create_stealth_context] returns; if it raises they are still
    [None] and the [finally] block does nothing. *)
Definition with_stealth_session {A}
    (body : handle -> pystr -> M W A)
    (handler : option (exn -> M W A)) : M W A :=
  let guarded (m : M W A) :=
    match handler with
    | Some h => try_except m h
    | None => m
    end in
  acquired ← attempt _create_stealth_context;
  match acquired with
  | Exn e => guarded (raise e)
  | Val (context, temp_dir) =>
      try_finally (guarded (body context temp_dir))
                  (release_session context temp_dir)
  end.

Definition _get_waf_cookies_from_browser
    (domain login_url : pystr) (required_cookies : list pystr)
    (log_fn : bool) : M W (gmap pystr pystr) :=
  async_with_playwright
    (with_stealth_session
       (fun context temp_dir =>
          page ← new_page context;
          perform (Goto page login_url (py "networkidle")) ;;
          _wait_for_page_load page ;;
          waf_cookies ← _get_waf_cookies page required_cookies;
          mret waf_cookies)
       None).

(** The script of the in-page call to [/api/user/self]. *)
Definition user_self_script (api_user_key api_user : pystr) : pystr :=
  py "
          async () => {
            try {
              const response = await fetch('/api/user/self', {
                method: 'GET',
                credentials: 'include',
                headers: {
                  'Accept': 'application/json',
                  'Content-Type': 'application/json',
                  '" ++ api_user_key ++ py "': '" ++ api_user ++ py "'
                }
              });
              const data = await response.json();
              return { success: response.ok, status: response.status, data: data };
            } catch (e) {
              return { success: false, error: e.message };
            }
          }
".

(** The script that reads a visible error message off the login page. *)
Definition error_text_script : pystr := pyq "
            () => {
              const errorEl = document.querySelector('.error, .alert-error, .message-error, [class*=`error`]');
              return errorEl ? errorEl.textContent.trim() : null;
            }
".

(** [v.get(key)] taken as a condition: only a dictionary has [get]. *)
Definition get_truthy (v : pyval) (key : pystr) : outcome bool :=
  match v with
  | PyDict d => Val (truthy (assoc_get key d))
  | _ => Exn (Exception (attribute_error v (py "get")))
  end.

(** [v[:50]] *)
Definition slice50 (v : pyval) : outcome pyval :=
  match v with
  | PyStr s => Val (PyStr (slice_to 50 s))
  | PyList l => Val (PyList (take 50 l))
  | _ => Exn (Exception (subscript_error v))
  end.

(** A value interpolated in an f-string. *)
Definition format_pyval (v : pyval) : pystr :=
  match v with
  | PyStr s => s
  | _ => repr_pyval v
  end.

(** *** The WAF cookie cache *)

(** [all(c in d for c in required_cookies)] *)
Definition has_all (d : gmap pystr pystr) (required_cookies : list pystr)
  : bool :=
  forallb (dict_has d) required_cookies.

(** The cache check at the head of [get_cached_waf_cookies]. *)
Definition cache_hit (cache : gmap pystr (gmap pystr pystr))
    (domain : pystr) (required_cookies : list pystr)
  : option (gmap pystr pystr) :=
  match cache !! domain with
  | Some cached =>
      if has_all cached required_cookies then Some cached else None
  | None => None
  end.

(** [waf_cookies and all(c in waf_cookies for c in required_cookies)] *)
Definition storable (waf_cookies : gmap pystr pystr)
    (required_cookies : list pystr) : bool :=
  negb (bool_decide (waf_cookies = ∅))
  && has_all waf_cookies required_cookies.

(** [async with _cache_lock: body] *)
Definition async_with_cache_lock {A} (body : M W A) : M W A :=
  emit EvAcquire ;;
  try_finally body (emit EvRelease).

Definition get_cached_waf_cookies
    (domain login_url : pystr) (required_cookies : list pystr)
    (log_fn : bool) : M W (option (gmap pystr pystr)) :=
  async_with_cache_lock
    (cache ← get_cache;
     match cache_hit cache domain required_cookies with
     | Some cached =>
         log_if log_fn
           (py "[缓存] 使用已缓存的 WAF cookies (" ++ domain ++ py ")") ;;
         mret (Some cached)
     | None =>
         log_if log_fn
           (py "[浏览器] 正在获取 WAF cookies (" ++ domain ++ py ")...") ;;
         waf_cookies ← _get_waf_cookies_from_browser
                         domain login_url required_cookies log_fn;
         if storable waf_cookies required_cookies then
           cache' ← get_cache;
           set_cache (<[domain := waf_cookies]> cache') ;;
           log_if log_fn
             (py "[缓存] WAF cookies 已缓存 (" ++ domain ++ py ")") ;;
           mret (Some waf_cookies)
         else mret None
     end).

Definition clear_waf_cookie_cache : M W unit := set_cache ∅.

(** *** Cookie-Replay: [get_waf_cookies_and_trigger_signin] *)

Definition failed (error_msg : pystr) : pending_result :=
  {| p_success := false; p_waf_cookies := ∅;
     p_api_calls := FreshCalls []; p_error := Some error_msg |}.

(** The statistics printed at the end of the browser strategies. *)
Definition log_user_self_calls (log_fn : bool) (msg : pystr)
    (api_calls : list pystr) : M W unit :=
  for_each api_calls
    (fun call => when (str_in (py "user/self") call) (log log_fn msg)).

(** Step 6 of the strategy: the in-page call, with its own handler. *)
Definition call_user_self (log_fn : bool) (account_name domain : pystr)
    (p : page) (api_user api_user_key : pystr) : M W unit :=
  try_except
    (user_self_result ←
       perform (Evaluate p (user_self_script api_user_key api_user));
     ok ← lift (get_truthy user_self_result (py "success"));
     if ok : bool then
       log log_fn (py "[成功] " ++ account_name
                   ++ py ": /api/user/self 调用成功") ;;
       append_call (py "GET " ++ domain ++ py "/api/user/self (browser)")
     else
       log log_fn (py "[警告] " ++ account_name
                   ++ py ": /api/user/self 调用失败: "
                   ++ repr_pyval user_self_result))
    (fun e =>
       log log_fn (py "[警告] " ++ account_name
                   ++ py ": 浏览器内 API 调用失败: "
                   ++ slice_to 50 (str_of_exn e))).

(** Steps 2 to 6 and the final report, run once the WAF cookies are
    complete. *)
Definition replay_session (log_fn : bool)
    (account_name domain : pystr) (context : handle) (p : page)
    (waf_cookies : gmap pystr pystr)
    (user_session api_user api_user_key : pystr)
  : M W pending_result :=
  new_calls_and_listen log_fn ;;
  log log_fn (py "[退出] " ++ account_name
              ++ py ": 清除所有 cookies（模拟退出）...") ;;
  perform (ClearCookies context) ;;
  perform (WaitForTimeout p COOKIE_SET_WAIT_MS) ;;
  log log_fn (py "[登录] " ++ account_name
              ++ py ": 重新设置 session（模拟重新登录）...") ;;
  _set_session_cookie context domain user_session ;;
  let home_url := domain ++ py "/" in
  log log_fn (py "[签到] " ++ account_name ++ py ": 访问首页触发签到 ("
              ++ home_url ++ py ")...") ;;
  perform (Goto p home_url (py "networkidle")) ;;
  log log_fn (py "[签到] " ++ account_name
              ++ py ": 主动调用 /api/user/self 触发签到...") ;;
  call_user_self log_fn account_name domain p api_user api_user_key ;;
  log log_fn (py "[等待] " ++ account_name ++ py ": 等待签到逻辑执行（"
              ++ str_of_Z (SIGNIN_TRIGGER_WAIT_MS / 1000)
              ++ py "秒）...") ;;
  perform (WaitForTimeout p SIGNIN_TRIGGER_WAIT_MS) ;;
  api_calls ← get_calls;
  match api_calls with
  | _ :: _ =>
      log log_fn (py "[信息] " ++ account_name ++ py ": 捕获到 "
                  ++ str_of_nat (length api_calls)
                  ++ py " 个 API 调用") ;;
      log_user_self_calls log_fn
        (py "[关键] " ++ account_name
         ++ py ": 检测到 /api/user/self 调用") api_calls
  | [] =>
      log log_fn (py "[警告] " ++ account_name
                  ++ py ": 未捕获到任何 API 调用")
  end ;;
  log log_fn (py "[成功] " ++ account_name ++ py ": 登出重登流程完成") ;;
  mret {| p_success := true; p_waf_cookies := waf_cookies;
          p_api_calls := SharedCalls; p_error := None |}.

(** The body of the [try] block after the context is acquired. *)
Definition cookie_replay_steps (log_fn : bool)
    (account_name domain login_url : pystr)
    (required_cookies : list pystr)
    (user_session api_user api_user_key : pystr)
    (context : handle) (temp_dir : pystr) : M W pending_result :=
  p ← new_page context;
  log log_fn (py "[浏览器] " ++ account_name
              ++ py ": 访问登录页面获取 WAF cookies...") ;;
  perform (Goto p login_url (py "networkidle")) ;;
  _wait_for_page_load p ;;
  waf_cookies ← _get_waf_cookies p required_cookies;
  let missing_cookies :=
    List.filter (fun c => negb (dict_has waf_cookies c))
                required_cookies in
  match missing_cookies with
  | _ :: _ =>
      log log_fn (py "[失败] " ++ account_name ++ py ": 缺少 WAF cookies: "
                  ++ repr_str_list missing_cookies) ;;
      mret (failed (py "缺少 WAF cookies: "
                    ++ repr_str_list missing_cookies))
  | [] =>
      log log_fn (py "[成功] " ++ account_name ++ py ": 已获取 "
                  ++ str_of_nat (size waf_cookies)
                  ++ py " 个 WAF cookies") ;;
      replay_session log_fn account_name domain context p waf_cookies
        user_session api_user api_user_key
  end.

(** [except Exception as e] of the strategy. *)
Definition cookie_replay_fault (log_fn : bool) (account_name : pystr)
    (e : exn) : M W pending_result :=
  let error_msg := slice_to 100 (str_of_exn e) in
  log log_fn (py "[失败] " ++ account_name ++ py ": 浏览器操作失败: "
              ++ error_msg) ;;
  mret (failed error_msg).

Definition get_waf_cookies_and_trigger_signin
    (account_name domain login_url : pystr)
    (required_cookies : list pystr)
    (user_session api_user api_user_key : pystr)
    (log_fn : bool) : M W BrowserResult :=
  log log_fn (py "[浏览器] " ++ account_name
              ++ py ": 正在启动浏览器并模拟登录...") ;;
  result ← async_with_playwright
    (with_stealth_session
       (cookie_replay_steps log_fn account_name domain login_url
          required_cookies user_session api_user api_user_key)
       (Some (cookie_replay_fault log_fn account_name)));
  settle result.

(** *** Credential-Login: [perform_real_login_signin] *)

Definition username_selectors : list pystr :=
  [ pyq "input[name=`username`]";
    pyq "input[type=`text`]:first-of-type";
    pyq "input[placeholder*=`用户名`]";
    pyq "input[placeholder*=`username`]";
    pyq "input[placeholder*=`邮箱`]";
    pyq "input[placeholder*=`email`]" ].

Definition password_selectors : list pystr :=
  [ pyq "input[name=`password`]";
    pyq "input[type=`password`]";
    pyq "input[placeholder*=`密码`]";
    pyq "input[placeholder*=`password`]" ].

Definition submit_selectors : list pystr :=
  [ pyq "button[type=`submit`]";
    pyq "button:has-text(`登录`)";
    pyq "button:has-text(`登 录`)";
    pyq "button:has-text(`Login`)";
    pyq "input[type=`submit`]";
    py ".login-button";
    py ".submit-button" ].

(** One turn of the selector loops:
    [try: element = await page.query_selector(selector);
          if element: await act(element); flag = True; log(..); break
     except Exception: continue].
    The value tells whether the loop is left through [break]. *)
Definition try_selector (p : page) (act : handle -> M W unit)
    (done : M W unit) (selector : pystr) : M W bool :=
  try_except
    (element ← perform (QuerySelector p selector);
     match element with
     | Some el => act el ;; done ;; mret true
     | None => mret false
     end)
    (fun _ => mret false).

(** The loop itself; its value is the flag ([username_filled],
    [password_filled], [login_clicked], [clicked]). *)
Fixpoint first_selector (p : page) (act : handle -> M W unit)
    (done : M W unit) (selectors : list pystr) : M W bool :=
  match selectors with
  | [] => mret false
  | selector :: rest =>
      hit ← try_selector p act done selector;
      if hit : bool then mret true
      else first_selector p act done rest
  end.

Definition login_failed (waf_cookies : gmap pystr pystr)
    (error_msg : pystr) : pending_result :=
  {| p_success := false; p_waf_cookies := waf_cookies;
     p_api_calls := SharedCalls; p_error := Some error_msg |}.

(** Step 4: wait for the console; in the handler of the timeout the
    page may yield an explicit failure ([Some]) or let the flow go on
    ([None]). *)
Definition wait_for_console (log_fn : bool) (account_name : pystr)
    (p : page) (waf_cookies : gmap pystr pystr)
  : M W (option pending_result) :=
  try_except
    (perform (WaitForUrl p (py "**/console**") 15000) ;;
     log log_fn (py "[成功] " ++ account_name
                 ++ py ": 登录成功，已跳转到控制台") ;;
     mret None)
    (fun _ =>
       current_url ← perform (PageUrl p);
       rejected ←
         (if str_in (py "login") (str_lower current_url) then
            error_text ← perform (Evaluate p error_text_script);
            if truthy error_text then
              shown ← lift (slice50 error_text);
              log log_fn (py "[失败] " ++ account_name
                          ++ py ": 登录失败 - " ++ format_pyval shown) ;;
              mret (Some (login_failed waf_cookies
                            (py "登录失败: " ++ format_pyval shown)))
            else mret None
          else mret None);
       match rejected with
       | Some r => mret (Some r)
       | None =>
           log log_fn (py "[警告] " ++ account_name
                       ++ py ": 登录状态不确定，当前URL: "
                       ++ current_url) ;;
           mret None
       end).

(** Steps 3 to 5, run once both fields are filled. *)
Definition submit_login (log_fn : bool) (account_name : pystr)
    (p : page) (waf_cookies : gmap pystr pystr) : M W pending_result :=
  log log_fn (py "[登录] " ++ account_name ++ py ": 点击登录按钮...") ;;
  login_clicked ←
    first_selector p (fun el => perform (Click el))
      (log log_fn (py "[登录] " ++ account_name ++ py ": 已点击登录按钮"))
      submit_selectors;
  when (negb login_clicked)
    (log log_fn (py "[登录] " ++ account_name
                 ++ py ": 找不到登录按钮，尝试按回车提交...") ;;
     perform (KeyboardPress p (py "Enter"))) ;;
  log log_fn (py "[登录] " ++ account_name ++ py ": 等待登录完成...") ;;
  rejected ← wait_for_console log_fn account_name p waf_cookies;
  match rejected with
  | Some r => mret r
  | None =>
      log log_fn (py "[等待] " ++ account_name ++ py ": 等待签到逻辑执行（"
                  ++ str_of_Z (SIGNIN_TRIGGER_WAIT_MS / 1000)
                  ++ py "秒）...") ;;
      perform (WaitForTimeout p SIGNIN_TRIGGER_WAIT_MS) ;;
      api_calls ← get_calls;
      match api_calls with
      | _ :: _ =>
          log log_fn (py "[信息] " ++ account_name ++ py ": 捕获到 "
                      ++ str_of_nat (length api_calls)
                      ++ py " 个 API 调用") ;;
          log_user_self_calls log_fn
            (py "[关键] " ++ account_name
             ++ py ": 检测到 /api/user/self 调用（签到触发点）")
            api_calls
      | [] => mret tt
      end ;;
      log log_fn (py "[成功] " ++ account_name
                  ++ py ": 真正登录流程完成") ;;
      mret {| p_success := true; p_waf_cookies := waf_cookies;
              p_api_calls := SharedCalls; p_error := None |}
  end.

(** Step 2: the two fields, in this order. *)
Definition fill_login_form (log_fn : bool)
    (account_name username password : pystr)
    (p : page) (waf_cookies : gmap pystr pystr) : M W pending_result :=
  username_filled ←
    first_selector p (fun el => perform (Fill el username))
      (log log_fn (py "[登录] " ++ account_name ++ py ": 已填写用户名"))
      username_selectors;
  if negb username_filled then
    log log_fn (py "[失败] " ++ account_name
                ++ py ": 无法找到用户名输入框") ;;
    mret (login_failed waf_cookies (py "无法找到用户名输入框"))
  else
    password_filled ←
      first_selector p (fun el => perform (Fill el password))
        (log log_fn (py "[登录] " ++ account_name ++ py ": 已填写密码"))
        password_selectors;
    if negb password_filled then
      log log_fn (py "[失败] " ++ account_name
                  ++ py ": 无法找到密码输入框") ;;
      mret (login_failed waf_cookies (py "无法找到密码输入框"))
    else submit_login log_fn account_name p waf_cookies.

(** The body of the [try] block after the context is acquired. *)
Definition real_login_steps (log_fn : bool)
    (account_name domain login_url username password : pystr)
    (required_cookies : list pystr)
    (context : handle) (temp_dir : pystr) : M W pending_result :=
  p ← new_page context;
  new_calls_and_listen log_fn ;;
  log log_fn (py "[浏览器] " ++ account_name ++ py ": 访问登录页面...") ;;
  perform (Goto p login_url (py "networkidle")) ;;
  _wait_for_page_load p ;;
  waf_cookies ← _get_waf_cookies p required_cookies;
  when (negb (bool_decide (waf_cookies = ∅)))
    (log log_fn (py "[成功] " ++ account_name ++ py ": 已获取 "
                 ++ str_of_nat (size waf_cookies)
                 ++ py " 个 WAF cookies")) ;;
  log log_fn (py "[登录] " ++ account_name ++ py ": 填写登录表单...") ;;
  try_except
    (perform (WaitForSelector p
                (pyq "input[name=`username`], input[type=`text`]")
                10000))
    (fun _ =>
       log log_fn (py "[警告] " ++ account_name
                   ++ py ": 找不到用户名输入框，尝试继续...")) ;;
  fill_login_form log_fn account_name username password p waf_cookies.

(** [except Exception as e] of the strategy. *)
Definition real_login_fault (log_fn : bool) (account_name : pystr)
    (e : exn) : M W pending_result :=
  let error_msg := slice_to 100 (str_of_exn e) in
  log log_fn (py "[失败] " ++ account_name ++ py ": 登录流程失败: "
              ++ error_msg) ;;
  mret (failed error_msg).

Definition perform_real_login_signin
    (account_name domain login_url username password : pystr)
    (required_cookies : list pystr)
    (log_fn : bool) : M W BrowserResult :=
  log log_fn (py "[浏览器] " ++ account_name
              ++ py ": 正在启动浏览器执行真正登录...") ;;
  result ← async_with_playwright
    (with_stealth_session
       (real_login_steps log_fn account_name domain login_url
          username password required_cookies)
       (Some (real_login_fault log_fn account_name)));
  settle result.

(** *** OAuth through an existing browser:
    [perform_oauth_signin_with_chrome] *)

Definition CHROME_DEBUG_URL : pystr :=
  py "http://127.0.0.1:" ++ str_of_Z CHROME_DEBUG_PORT.

Definition _check_chrome_debug_port : M W bool :=
  try_except
    (result ← perform (SocketConnectEx (py "127.0.0.1")
                         CHROME_DEBUG_PORT);
     mret (result =? 0))
    (fun _ => mret false).

Definition github_selectors : list pystr :=
  [ pyq "button:has-text(`GitHub`)";
    pyq "a:has-text(`GitHub`)";
    pyq "button:has-text(`使用 GitHub 登录`)";
    pyq "button:has-text(`Sign in with GitHub`)";
    pyq "a:has-text(`Sign in with GitHub`)";
    pyq "[class*=`github`]";
    pyq "[class*=`Github`]";
    pyq "button:has(svg[class*=`github`])";
    pyq "a:has(svg[class*=`github`])";
    pyq "[aria-label*=`GitHub`]";
    pyq "[aria-label*=`github`]";
    pyq "button[data-provider=`github`]";
    pyq "a[href*=`github`]";
    pyq "a[href*=`/oauth/github`]" ].

Definition google_selectors : list pystr :=
  [ pyq "button:has-text(`Google`)";
    pyq "a:has-text(`Google`)";
    pyq "[class*=`google`]";
    pyq "[aria-label*=`Google`]" ].

Definition linuxdo_selectors : list pystr :=
  [ pyq "button:has-text(`LinuxDo`)";
    pyq "a:has-text(`LinuxDo`)";
    pyq "button:has-text(`LINUX DO`)";
    pyq "[class*=`linuxdo`]" ].

(** [oauth_selectors.get(oauth_provider, oauth_selectors['github'])] *)
Definition oauth_selectors (oauth_provider : pystr) : list pystr :=
  if bool_decide (oauth_provider = py "github") then github_selectors
  else if bool_decide (oauth_provider = py "google")
  then google_selectors
  else if bool_decide (oauth_provider = py "linuxdo")
  then linuxdo_selectors
  else github_selectors.

(** The head of the [try] block: it binds [context] and [use_cdp]. *)
Definition acquire_oauth_context (log_fn : bool) (account_name : pystr)
    (cdp_available profile_exists : bool) : M W (handle * bool) :=
  if cdp_available then
    log log_fn (py "[CDP] " ++ account_name ++ py ": 检测到远程调试端口 "
                ++ str_of_Z CHROME_DEBUG_PORT
                ++ py "，通过 CDP 连接...") ;;
    browser ← perform (ConnectOverCdp CHROME_DEBUG_URL);
    contexts ← perform (BrowserContexts browser);
    context ←
      match contexts with
      | c :: _ =>
          log log_fn (py "[CDP] " ++ account_name
                      ++ py ": 已连接到现有浏览器上下文") ;;
          mret c
      | [] =>
          c ← perform (BrowserNewContext browser);
          log log_fn (py "[CDP] " ++ account_name
                      ++ py ": 创建新的浏览器上下文") ;;
          mret c
      end;
    mret (context, true)
  else
    log log_fn (py "[信息] " ++ account_name
                ++ py ": 使用 Playwright 独立配置目录...") ;;
    when (negb profile_exists)
      (log log_fn (py "[首次] " ++ account_name
                   ++ py ": 首次运行，需要在浏览器中登录 GitHub") ;;
       log log_fn (py "[提示] 请在打开的浏览器中完成 GitHub 登录，后续运行将自动使用此登录状态")) ;;
    context ← perform (LaunchPersistentContext
      {| user_data_dir := PLAYWRIGHT_USER_DATA_DIR;
         headless := false;
         user_agent := None;
         viewport := None;
         args := [py "--disable-blink-features=AutomationControlled"];
         ignore_https_errors := true;
         java_script_enabled := true;
         bypass_csp := false |});
    mret (context, false).

Definition oauth_failed (error_msg : pystr) : pending_result :=
  {| p_success := false; p_waf_cookies := ∅;
     p_api_calls := SharedCalls; p_error := Some error_msg |}.

Definition oauth_done : pending_result :=
  {| p_success := true; p_waf_cookies := ∅;
     p_api_calls := SharedCalls; p_error := None |}.

(** Step 3: wait for the way back to the target domain; [Some] is the
    failure after the second timeout. *)
Definition wait_for_oauth (log_fn : bool)
    (account_name domain oauth_provider : pystr) (p : page)
  : M W (option pending_result) :=
  try_except
    (perform (WaitForUrl p (domain ++ py "/**") 30000) ;;
     log log_fn (py "[成功] " ++ account_name
                 ++ py ": OAuth 授权完成，已返回 " ++ domain) ;;
     mret None)
    (fun _ =>
       current_url ← perform (PageUrl p);
       if str_in oauth_provider (str_lower current_url)
          || str_in (py "github.com") current_url
          || str_in (py "google.com") current_url
       then
         log log_fn (py "[等待] " ++ account_name
                     ++ py ": 请在浏览器中完成授权（30秒超时）...") ;;
         try_except
           (perform (WaitForUrl p (domain ++ py "/**") 30000) ;;
            log log_fn (py "[成功] " ++ account_name
                        ++ py ": OAuth 授权完成") ;;
            mret None)
           (fun _ =>
              log log_fn (py "[失败] " ++ account_name
                          ++ py ": OAuth 授权超时") ;;
              mret (Some (oauth_failed (py "OAuth 授权超时"))))
       else mret None).

(** The [try] block once the page exists. *)
Definition oauth_steps (log_fn : bool)
    (account_name domain login_url oauth_provider : pystr) (p : page)
  : M W pending_result :=
  new_calls_and_listen log_fn ;;
  log log_fn (py "[浏览器] " ++ account_name ++ py ": 访问登录页面...") ;;
  perform (Goto p login_url (py "networkidle")) ;;
  _wait_for_page_load p ;;
  current_url ← perform (PageUrl p);
  if negb (str_in (py "/login") (str_lower current_url)) then
    log log_fn (py "[成功] " ++ account_name
                ++ py ": 已登录状态，被重定向到 " ++ current_url) ;;
    log log_fn (py "[信息] " ++ account_name
                ++ py ": 签到应该已经通过页面加载触发") ;;
    perform (WaitForTimeout p SIGNIN_TRIGGER_WAIT_MS) ;;
    mret oauth_done
  else
    log log_fn (py "[登录] " ++ account_name ++ py ": 点击 "
                ++ oauth_provider ++ py " 登录按钮...") ;;
    clicked ←
      first_selector p (fun el => perform (Click el))
        (log log_fn (py "[登录] " ++ account_name
                     ++ py ": 已点击登录按钮"))
        (oauth_selectors oauth_provider);
    if negb clicked then
      log log_fn (py "[失败] " ++ account_name ++ py ": 找不到 "
                  ++ oauth_provider ++ py " 登录按钮") ;;
      mret (oauth_failed (py "找不到 " ++ oauth_provider
                          ++ py " 登录按钮"))
    else
      log log_fn (py "[登录] " ++ account_name
                  ++ py ": 等待 OAuth 授权完成...") ;;
      timed_out ← wait_for_oauth log_fn account_name domain
                    oauth_provider p;
      match timed_out with
      | Some r => mret r
      | None =>
          log log_fn (py "[等待] " ++ account_name
                      ++ py ": 等待签到逻辑执行（"
                      ++ str_of_Z (SIGNIN_TRIGGER_WAIT_MS / 1000)
                      ++ py "秒）...") ;;
          perform (WaitForTimeout p SIGNIN_TRIGGER_WAIT_MS) ;;
          api_calls ← get_calls;
          let oauth_callback_found :=
            existsb (fun call => str_in (py "oauth") (str_lower call))
                    api_calls in
          when oauth_callback_found
            (log log_fn (py "[关键] " ++ account_name
                         ++ py ": 检测到 OAuth 回调请求（签到已触发）")) ;;
          when (match api_calls with [] => false | _ => true end)
            (log log_fn (py "[信息] " ++ account_name ++ py ": 捕获到 "
                         ++ str_of_nat (length api_calls)
                         ++ py " 个 API 调用")) ;;
          log log_fn (py "[成功] " ++ account_name
                      ++ py ": OAuth 签到流程完成") ;;
          mret oauth_done
      end.

(** [except Exception as e] of the strategy. *)
Definition oauth_fault (log_fn : bool) (account_name : pystr)
    (e : exn) : M W pending_result :=
  let error_msg := slice_to 100 (str_of_exn e) in
  log log_fn (py "[失败] " ++ account_name ++ py ": OAuth 登录失败: "
              ++ error_msg) ;;
  mret (failed error_msg).

(** The [finally] block: over CDP only the page is closed, and a
    failure to close it is passed over; otherwise the context is
    closed. *)
Definition release_oauth (use_cdp : bool) (context : option handle)
    (p : option page) : M W unit :=
  if use_cdp then
    match p with
    | Some p => try_except (perform (PageClose p)) (fun _ => mret tt)
    | None => mret tt
    end
  else
    match context with
    | Some context => perform (ContextClose context)
    | None => mret tt
    end.

Definition perform_oauth_signin_with_chrome
    (account_name domain login_url oauth_provider : pystr)
    (log_fn : bool) : M W BrowserResult :=
  log log_fn (py "[浏览器] " ++ account_name
              ++ py ": 使用 Chrome 已登录状态执行 OAuth 签到...") ;;
  cdp_available ← _check_chrome_debug_port;
  perform (PathMkdir PLAYWRIGHT_USER_DATA_DIR) ;;
  profile_exists ←
    perform (PathExists (PLAYWRIGHT_USER_DATA_DIR ++ py "/Default"));
  result ← async_with_playwright
    (acquired ← attempt (acquire_oauth_context log_fn account_name
                           cdp_available profile_exists);
     match acquired with
     | Exn e =>
         try_finally (oauth_fault log_fn account_name e)
                     (release_oauth false None None)
     | Val (context, use_cdp) =>
         opened ← attempt (new_page context);
         match opened with
         | Exn e =>
             try_finally (oauth_fault log_fn account_name e)
                         (release_oauth use_cdp (Some context) None)
         | Val p =>
             try_finally
               (try_except
                  (oauth_steps log_fn account_name domain login_url
                     oauth_provider p)
                  (oauth_fault log_fn account_name))
               (release_oauth use_cdp (Some context) (Some p))
         end
     end);
  settle result.

(** *** HTTP-Only-Replay: [trigger_signin_via_http] *)

(** [d[k] = v] on the items of a dictionary, kept in insertion
    order. *)
Fixpoint dict_set (k v : pystr) (d : list (pystr * pystr))
  : list (pystr * pystr) :=
  match d with
  | [] => [(k, v)]
  | (k', v') :: d' =>
      if bool_decide (k' = k) then (k, v) :: d'
      else (k', v') :: dict_set k v d'
  end.

Definition browser_headers (api_user api_user_key : pystr)
  : list (pystr * pystr) :=
  dict_set api_user_key api_user
    [ (py "User-Agent", CHROME_USER_AGENT);
      (py "Accept",
       py "text/html,application/xhtml+xml,application/xml;q=0.9,*/*;q=0.8");
      (py "Accept-Language", py "zh-CN,zh;q=0.9,en;q=0.8");
      (py "Accept-Encoding", py "gzip, deflate, br");
      (py "Connection", py "keep-alive");
      (py "Upgrade-Insecure-Requests", py "1") ].

(** The login-page marker: ['/login' in final_url.lower()]. *)
Definition on_login_page (final_url : pystr) : bool :=
  str_in (py "/login") (str_lower final_url).

Definition http_done : pending_result :=
  {| p_success := true; p_waf_cookies := ∅;
     p_api_calls := SharedCalls; p_error := None |}.

(** The body of [async with httpx.AsyncClient(...) as client]. *)
Definition http_steps (log_fn : bool)
    (account_name domain login_url : pystr)
    (user_cookies : list (pystr * pystr))
    (api_user api_user_key : pystr) (client : handle)
  : M W pending_result :=
  for_each user_cookies
    (fun '(name, value) =>
       netloc ← lift (urlparse_netloc domain);
       perform (ClientCookiesSet client name value netloc)) ;;
  let headers := browser_headers api_user api_user_key in
  log log_fn (py "[HTTP] " ++ account_name ++ py ": 访问登录页面 "
              ++ login_url) ;;
  response ← perform (ClientGet client login_url headers);
  append_call (py "GET " ++ login_url ++ py " -> "
               ++ str_of_Z (status_code response)) ;;
  let final_url := response_url response in
  if negb (on_login_page final_url) then
    log log_fn (py "[成功] " ++ account_name
                ++ py ": 已登录状态，被重定向到 " ++ final_url) ;;
    log log_fn (py "[HTTP] " ++ account_name
                ++ py ": 签到应该已经通过页面加载触发") ;;
    let user_self_url := domain ++ py "/api/user/self" in
    log log_fn (py "[HTTP] " ++ account_name ++ py ": 调用 "
                ++ user_self_url ++ py " 确认签到") ;;
    let api_headers :=
      dict_set (py "Accept") (py "application/json") headers in
    user_response ← perform (ClientGet client user_self_url api_headers);
    append_call (py "GET " ++ user_self_url ++ py " -> "
                 ++ str_of_Z (status_code user_response)) ;;
    if status_code user_response =? 200 then
      log log_fn (py "[成功] " ++ account_name
                  ++ py ": /api/user/self 调用成功") ;;
      mret http_done
    else
      log log_fn (py "[警告] " ++ account_name
                  ++ py ": /api/user/self 返回 "
                  ++ str_of_Z (status_code user_response)) ;;
      mret http_done
  else
    log log_fn (py "[失败] " ++ account_name
                ++ py ": 仍在登录页面，session 可能已过期") ;;
    mret {| p_success := false; p_waf_cookies := ∅;
            p_api_calls := SharedCalls;
            p_error := Some (py "session 已过期，需要重新登录") |}.

(** The two [except] clauses of the function. *)
Definition http_fault (log_fn : bool) (account_name : pystr) (e : exn)
  : M W pending_result :=
  match e with
  | HTTPStatusError status _ =>
      let error_msg := py "HTTP 错误: " ++ str_of_Z status in
      log log_fn (py "[失败] " ++ account_name ++ py ": " ++ error_msg) ;;
      mret {| p_success := false; p_waf_cookies := ∅;
              p_api_calls := SharedCalls; p_error := Some error_msg |}
  | Exception _ =>
      let error_msg := slice_to 100 (str_of_exn e) in
      log log_fn (py "[失败] " ++ account_name ++ py ": HTTP 请求失败: "
                  ++ error_msg) ;;
      mret {| p_success := false; p_waf_cookies := ∅;
              p_api_calls := SharedCalls; p_error := Some error_msg |}
  end.

Definition trigger_signin_via_http
    (account_name domain login_url : pystr)
    (user_cookies : list (pystr * pystr))
    (api_user api_user_key : pystr)
    (log_fn : bool) : M W BrowserResult :=
  log log_fn (py "[HTTP] " ++ account_name
              ++ py ": 使用 HTTP 请求触发签到...") ;;
  new_calls ;;
  result ←
    try_except
      (client ← perform (ClientOpen
         {| http2 := true; timeout := HTTP_TIMEOUT_SECONDS;
            follow_redirects := true; verify := true |});
       try_finally
         (http_steps log_fn account_name domain login_url
            user_cookies api_user api_user_key client)
         (perform (ClientClose client)))
      (http_fault log_fn account_name);
  settle result.

End Program.

(** *** Observations on traces *)

Definition is_log (ev : event) : bool :=
  match ev with
  | EvLogFn _ | EvPrint _ => true
  | _ => false
  end.

(** An awaited operation that raised. *)
Definition is_fault (ev : event) : bool :=
  match ev with
  | EvOp _ (Exn _) => true
  | _ => false
  end.

(** The operations that release a session: closing the context, the page
    or the HTTP client, removing the profile directory. *)
Definition is_teardown (ev : event) : bool :=
  match ev with
  | EvOp o _ =>
      match o with
      | ContextClose _ | Rmtree _ | PageClose _ | ClientClose _ => true
      | _ => false
      end
  | _ => false
  end.

Definition is_context_close (ev : event) : bool :=
  match ev with
  | EvOp o _ => match o with ContextClose _ => true | _ => false end
  | _ => false
  end.

Definition is_rmtree (ev : event) : bool :=
  match ev with
  | EvOp o _ => match o with Rmtree _ => true | _ => false end
  | _ => false
  end.

Definition is_client_close (ev : event) : bool :=
  match ev with
  | EvOp o _ => match o with ClientClose _ => true | _ => false end
  | _ => false
  end.

(** The end of [async with async_playwright()]. *)
Definition is_playwright_stop (ev : event) : bool :=
  match ev with
  | EvOp o _ => match o with PlaywrightStop => true | _ => false end
  | _ => false
  end.

(** [context.cookies()] answered with a cookie jar. *)
Definition cookies_read (ev : event) : option (list cookie) :=
  match ev with
  | @EvOp X o r =>
      match o in op X return outcome X -> option (list cookie) with
      | ContextCookies _ =>
          fun r => match r with Val jar => Some jar | Exn _ => None end
      | _ => fun _ => None
      end r
  | _ => None
  end.

(** [page.evaluate]. *)
Definition is_evaluate (ev : event) : bool :=
  match ev with
  | EvOp o _ => match o with Evaluate _ _ => true | _ => false end
  | _ => false
  end.

(** An operation of the flow itself: anything awaited that is neither a
    teardown nor the end of the playwright block. *)
Definition is_step (ev : event) : bool :=
  match ev with
  | EvOp _ _ => negb (is_teardown ev) && negb (is_playwright_stop ev)
  | _ => false
  end.

(** [client.get(url, ...)] with its outcome. *)
Definition http_get (ev : event) : option (pystr * outcome response) :=
  match ev with
  | @EvOp X o r =>
      match o in op X return outcome X -> option (pystr * outcome response)
      with
      | ClientGet _ url _ => fun r => Some (url, r)
      | _ => fun _ => None
      end r
  | _ => None
  end.

(** [page.query_selector(selector)] with its outcome. *)
Definition query (ev : event)
  : option (pystr * outcome (option handle)) :=
  match ev with
  | @EvOp X o r =>
      match o in op X
            return outcome X -> option (pystr * outcome (option handle))
      with
      | QuerySelector _ selector => fun r => Some (selector, r)
      | _ => fun _ => None
      end r
  | _ => None
  end.

(** [element.fill(text)] that returned. *)
Definition filled (ev : event) : option pystr :=
  match ev with
  | @EvOp X o r =>
      match o in op X return outcome X -> option pystr with
      | Fill _ text =>
          fun r => match r with Val _ => Some text | Exn _ => None end
      | _ => fun _ => None
      end r
  | _ => None
  end.

(** The operations whose exception leaves the function: closing the
    context or the HTTP client, and the end of the playwright block.
    (A failure of [shutil.rmtree] or of [page.close] is passed over.) *)
Definition is_release (ev : event) : bool :=
  is_context_close ev || is_client_close ev || is_playwright_stop ev.

(** The release of the session went through. *)
Definition released (t : list event) : bool :=
  forallb (fun ev => implb (is_release ev) (negb (is_fault ev))) t.

(** The trace without its log lines. *)
Definition ops (t : list event) : list event :=
  List.filter (fun ev => negb (is_log ev)) t.

(** The cookie jars read during a run. *)
Definition harvested (t : list event) : list (list cookie) :=
  omap cookies_read t.

(** What follows the first cookie jar read. *)
Fixpoint after_harvest (t : list event) : list event :=
  match t with
  | [] => []
  | ev :: t' =>
      match cookies_read ev with
      | Some _ => t'
      | None => after_harvest t'
      end
  end.

(** [e] is the exception raised by [ev]. *)
Definition raises (e : exn) (ev : event) : Prop :=
  match ev with
  | EvOp _ (Exn e') => e' = e
  | EvRaise e' => e' = e
  | _ => False
  end.

Definition raised_in (e : exn) (t : list event) : Prop :=
  Exists (raises e) t.

(** [missing_cookies] of [get_waf_cookies_and_trigger_signin], from the
    cookie jar that was read. *)
Definition missing_cookies (required_cookies : list pystr)
    (jar : list cookie) : list pystr :=
  List.filter
    (fun c =>
       negb (dict_has (foldl (keep_waf_cookie required_cookies) ∅ jar) c))
    required_cookies.

(** The trace of one selector loop: the selectors are tried in the order
    of the list; a selector that finds no element, whose lookup raises
    or whose element cannot be acted upon is passed over; the first
    element acted upon ends the loop, and [hit] tells whether there was
    one. *)
Inductive tries (p : page) (act : handle -> op unit)
  : list pystr -> bool -> list event -> Prop :=
| tries_none :
    tries p act [] false []
| tries_absent selector rest hit t :
    tries p act rest hit t ->
    tries p act (selector :: rest) hit
      (EvOp (QuerySelector p selector) (Val None) :: t)
| tries_lookup_raises selector rest hit t e :
    tries p act rest hit t ->
    tries p act (selector :: rest) hit
      (EvOp (QuerySelector p selector) (Exn e) :: t)
| tries_act_raises selector rest hit t el e :
    tries p act rest hit t ->
    tries p act (selector :: rest) hit
      (EvOp (QuerySelector p selector) (Val (Some el))
         :: EvOp (act el) (Exn e) :: t)
| tries_hit selector rest el :
    tries p act (selector :: rest) true
      [EvOp (QuerySelector p selector) (Val (Some el));
       EvOp (act el) (Val tt)].

(** The selectors looked up during a run, in order. *)
Definition queried (t : list event) : list pystr :=
  omap (fun ev => fst <$> query ev) t.

(** A lookup that found an element. *)
Definition found (ev : event) : option pystr :=
  match query ev with
  | Some (selector, Val (Some _)) => Some selector
  | _ => None
  end.

(** A selector lookup. *)
Definition is_query (ev : event) : bool :=
  match query ev with Some _ => true | None => false end.

(** A lookup of a selector of [l] that found an element. *)
Definition finds (l : list pystr) (ev : event) : bool :=
  match found ev with
  | Some selector => list_has l selector
  | None => false
  end.

(** [element.fill] that raised. *)
Definition fill_raised (ev : event) : bool :=
  match ev with
  | EvOp o (Exn _) => match o with Fill _ _ => true | _ => false end
  | _ => false
  end.

(** The trace from the first selector lookup on. *)
Fixpoint from_first_query (t : list event) : list event :=
  match t with
  | [] => []
  | ev :: t' =>
      match query ev with
      | Some _ => t
      | None => from_first_query t'
      end
  end.

(** The trace of the form step of Credential-Login, from the first
    selector lookup on: the username selectors are tried first; only if
    a field was filled are the password selectors tried; after a loop
    without a hit no further selector is looked up, and the function
    fails with the message of that field. *)
Definition form_trace {O : Type} (fails : O -> pystr -> Prop)
    (username password : pystr) (out : O) (t : list event) : Prop :=
  exists p tU rest hitU,
    t = tU ++ rest /\
    tries p (fun el => Fill el username) username_selectors hitU tU /\
    if hitU : bool then
      exists tP rest' hitP,
        rest = tP ++ rest' /\
        tries p (fun el => Fill el password) password_selectors hitP tP /\
        (hitP = false ->
         queried rest' = [] /\ fails out (py "无法找到密码输入框"))
    else
      queried rest = [] /\ fails out (py "无法找到用户名输入框").

(** *** Statements about results *)

Section Statements.
Context `{!PyRuntime}.

(** The failures that a strategy reports on purpose. *)
Inductive expected_failure : pystr -> Prop :=
| missing_waf_cookies missing :
    missing <> [] ->
    expected_failure (py "缺少 WAF cookies: " ++ repr_str_list missing)
| username_field_not_found :
    expected_failure (py "无法找到用户名输入框")
| password_field_not_found :
    expected_failure (py "无法找到密码输入框")
| login_rejected shown :
    expected_failure (py "登录失败: " ++ shown)
| oauth_button_not_found oauth_provider :
    expected_failure (py "找不到 " ++ oauth_provider ++ py " 登录按钮")
| oauth_timed_out :
    expected_failure (py "OAuth 授权超时")
| session_expired :
    expected_failure (py "session 已过期，需要重新登录")
| http_status_error status :
    expected_failure (py "HTTP 错误: " ++ str_of_Z status).

(** Every failure that is not reported on purpose carries the text of an
    exception raised during the run, cut to 100 characters. *)
Definition fault_bounded (out : outcome BrowserResult) (t : list event)
  : Prop :=
  forall r, out = Val r -> success r = false ->
    exists msg, error r = Some msg /\
      (expected_failure msg \/
       exists e, raised_in e t /\ msg = slice_to 100 (str_of_exn e)
                 /\ (length msg <= 100)%nat).

End Statements.

(** No event of [t] releases anything: what runs inside the [try] block
    of a strategy. *)
Definition quiet (t : list event) : Prop :=
  Forall (fun ev => is_teardown ev || is_playwright_stop ev = false) t.

(** The faults that Cookie-Replay passes over: the wait for
    [document.readyState], the in-page call and the removal of the
    profile directory. *)
Definition passed_over (ev : event) : bool :=
  match ev with
  | EvOp o _ =>
      match o with
      | Evaluate _ _ | WaitForFunction _ _ _ | Rmtree _ => true
      | _ => false
      end
  | _ => false
  end.

(** The [client.get] calls of a run, in order. *)
Definition gets (t : list event) : list (pystr * outcome response) :=
  omap http_get t.

(** [_create_stealth_context] returned: its last step went through. *)
Definition session_acquired (ev : event) : bool :=
  match ev with
  | EvOp o (Val _) =>
      match o with AddInitScript _ _ => true | _ => false end
  | _ => false
  end.

Section Outcomes.
Context `{!PyRuntime}.

(** What the [try] block of Cookie-Replay can end with. *)
Definition replay_outcome (required_cookies : list pystr)
    (out : outcome pending_result) (t : list event) : Prop :=
  match out with
  | Val r =>
      (p_success r = true /\ p_error r = None /\
       has_all (p_waf_cookies r) required_cookies = true)
      \/ (exists missing, missing <> [] /\
            r = failed (py "缺少 WAF cookies: " ++ repr_str_list missing))
  | Exn e => raised_in e t
  end.

(** What the form and submit steps of Credential-Login can end with. *)
Definition login_outcome (waf_cookies : gmap pystr pystr)
    (out : outcome pending_result) (t : list event) : Prop :=
  match out with
  | Val r =>
      p_waf_cookies r = waf_cookies /\
      (p_success r = true /\ p_error r = None \/
       exists msg, p_success r = false /\ p_error r = Some msg /\
         (msg = py "无法找到用户名输入框" \/ msg = py "无法找到密码输入框" \/
          exists shown, msg = py "登录失败: " ++ shown))
  | Exn e => raised_in e t
  end.

(** What the [try] block of the OAuth strategy can end with. *)
Definition oauth_outcome (oauth_provider : pystr)
    (out : outcome pending_result) (t : list event) : Prop :=
  match out with
  | Val r =>
      p_waf_cookies r = ∅ /\
      (p_success r = true /\ p_error r = None \/
       exists msg, p_success r = false /\ p_error r = Some msg /\
         (msg = py "找不到 " ++ oauth_provider ++ py " 登录按钮" \/
          msg = py "OAuth 授权超时"))
  | Exn e => raised_in e t
  end.

(** What the body of [async with httpx.AsyncClient] can end with. *)
Definition http_outcome (out : outcome pending_result) (t : list event)
  : Prop :=
  match out with
  | Val r =>
      p_waf_cookies r = ∅ /\
      (p_success r = true /\ p_error r = None \/
       p_success r = false /\
       p_error r = Some (py "session 已过期，需要重新登录"))
  | Exn e => raised_in e t
  end.

(** HTTP-Only-Replay decides on the answer to its first request: the
    first [client.get] goes to the login URL; if it is answered and the
    final URL carries the login marker, nothing else is requested and the
    result is the expired session; if the final URL does not carry it and
    the second request is answered, whatever its status code, the result
    is a success. *)
Definition marker_claim {R : Type} (login_url : pystr) (ok : R -> bool)
    (err : R -> option pystr) (res : outcome R) (t : list event) : Prop :=
  forall g rest, gets t = g :: rest ->
    exists answer, g = (login_url, answer) /\
      forall first, answer = Val first ->
        if on_login_page (response_url first) then
          rest = [] /\
          exists r, res = Val r /\ ok r = false /\
                    err r = Some (py "session 已过期，需要重新登录")
        else
          forall url2 second, rest = [(url2, Val second)] ->
            exists r, res = Val r /\ ok r = true /\ err r = None.

End Outcomes.

(** The function returns the failure [msg], provided the session is
    released without a fault. *)
Definition login_fails (out : outcome BrowserResult) (t : list event)
    (msg : pystr) : Prop :=
  released t = true ->
  exists r, out = Val r /\ success r = false /\ error r = Some msg.

(** *** Statements about whole runs *)

Section RunStatements.
Context `{!PyRuntime}.

(** [context.close()] raised. *)
Definition close_fault (ev : event) : bool :=
  is_context_close ev && is_fault ev.

(** Once [_create_stealth_context] has returned, the context is closed
    exactly once; the profile directory is removed at most once, and not
    at all when closing the context raised. *)
Definition closed_once (t : list event) : Prop :=
  existsb session_acquired t = true ->
  length (List.filter is_context_close t) = 1%nat /\
  (length (List.filter is_rmtree t) <= 1)%nat /\
  (existsb close_fault t = true -> List.filter is_rmtree t = []).

(** What a run of a strategy guarantees about its result: a failure is
    one of the expected ones or carries the bounded text of a fault; the
    cookies of a result satisfy [always]; a success has no error and its
    cookies satisfy [on_success]. *)
Definition run_outcome (always on_success : gmap pystr pystr -> Prop)
    (out : outcome BrowserResult) (t : list event) : Prop :=
  fault_bounded out t /\
  forall r, out = Val r ->
    always (waf_cookies r) /\
    (success r = true -> error r = None /\ on_success (waf_cookies r)).

(** Cookie-Replay after a cookie jar that lacks a required name: the
    function fails with the list of the missing names, and nothing but
    the release of the session follows the read of the jar. *)
Definition incomplete_claim (required_cookies : list pystr)
    (jar : list cookie) (out : outcome BrowserResult) (t : list event)
  : Prop :=
  harvested t = [jar] ->
  missing_cookies required_cookies jar <> [] ->
  released t = true ->
  exists r, out = Val r /\ success r = false /\
    error r = Some (py "缺少 WAF cookies: "
                    ++ repr_str_list (missing_cookies required_cookies jar))
    /\ List.filter is_step (after_harvest t) = [].

(** Cookie-Replay that reached the in-page call and whose only faults
    are among those passed over: the function succeeds with every
    required cookie. *)
Definition fetch_claim (required_cookies : list pystr)
    (out : outcome BrowserResult) (t : list event) : Prop :=
  existsb is_evaluate t = true ->
  forallb (fun ev => implb (is_fault ev) (passed_over ev)) t = true ->
  exists r, out = Val r /\ success r = true /\ error r = None /\
    has_all (waf_cookies r) required_cookies = true.

(** What [_get_waf_cookies_from_browser] ends with: the filtered cookie
    jar it read once, or an exception raised before the jar was read or
    while the session was released. *)
Definition extraction_outcome (required_cookies : list pystr)
    (out : outcome (gmap pystr pystr)) (t : list event) : Prop :=
  match out with
  | Val waf_cookies =>
      exists jar, harvested t = [jar] /\
        waf_cookies = foldl (keep_waf_cookie required_cookies) ∅ jar /\
        released t = true
  | Exn _ => harvested t = [] \/ released t = false
  end.

(** A call of [get_cached_waf_cookies], from the cache [c] to the cache
    [c']: a hit returns the cached mapping without a browser; a miss
    runs one extraction between taking and giving back the lock, and
    stores its result only if it is non-empty and complete. *)
Definition cached_claim (domain : pystr) (required_cookies : list pystr)
    (c : gmap pystr (gmap pystr pystr))
    (out : outcome (option (gmap pystr pystr)))
    (c' : gmap pystr (gmap pystr pystr)) (t : list event) : Prop :=
  match cache_hit c domain required_cookies with
  | Some cached =>
      out = Val (Some cached) /\ c' = c /\ t = [EvAcquire; EvRelease]
  | None =>
      exists r te,
        t = EvAcquire :: te ++ [EvRelease] /\
        extraction_outcome required_cookies r te /\
        match r with
        | Val waf_cookies =>
            if storable waf_cookies required_cookies
            then out = Val (Some waf_cookies) /\
                 c' = <[domain := waf_cookies]> c
            else out = Val None /\ c' = c
        | Exn e => out = Exn e /\ c' = c
        end
  end.

End RunStatements.

(** *** Invocations *)

Section Invocations.
Context {W : Type} `{!World W} `{!PyRuntime} `{!Constants}.

(** A call of one of the four strategies, with its arguments. *)
Inductive invocation :=
| CookieReplay (account_name domain login_url : pystr)
    (required_cookies : list pystr)
    (user_session api_user api_user_key : pystr) (log_fn : bool)
| CredentialLogin (account_name domain login_url username password : pystr)
    (required_cookies : list pystr) (log_fn : bool)
| OAuth (account_name domain login_url oauth_provider : pystr)
    (log_fn : bool)
| HttpReplay (account_name domain login_url : pystr)
    (user_cookies : list (pystr * pystr))
    (api_user api_user_key : pystr) (log_fn : bool).

Definition invoke (i : invocation) : M W BrowserResult :=
  match i with
  | CookieReplay account_name domain login_url required_cookies
      user_session api_user api_user_key log_fn =>
      get_waf_cookies_and_trigger_signin account_name domain login_url
        required_cookies user_session api_user api_user_key log_fn
  | CredentialLogin account_name domain login_url username password
      required_cookies log_fn =>
      perform_real_login_signin account_name domain login_url username
        password required_cookies log_fn
  | OAuth account_name domain login_url oauth_provider log_fn =>
      perform_oauth_signin_with_chrome account_name domain login_url
        oauth_provider log_fn
  | HttpReplay account_name domain login_url user_cookies api_user
      api_user_key log_fn =>
      trigger_signin_via_http account_name domain login_url user_cookies
        api_user api_user_key log_fn
  end.

(** What the cookies of a returned result are known to be, by strategy:
    complete on a success of Cookie-Replay; some of the required ones
    after Credential-Login; none after the other two. *)
Definition cookies_claim (i : invocation) (r : BrowserResult) : Prop :=
  match i with
  | CookieReplay _ _ _ required_cookies _ _ _ _ =>
      success r = true -> has_all (waf_cookies r) required_cookies = true
  | CredentialLogin _ _ _ _ _ required_cookies _ =>
      forall k, is_Some (waf_cookies r !! k) -> k ∈ required_cookies
  | OAuth _ _ _ _ _ | HttpReplay _ _ _ _ _ _ _ => waf_cookies r = ∅
  end.

(** The result that was returned, for a run that returned one. *)
Definition result_of (out : outcome BrowserResult) : BrowserResult :=
  match out with
  | Val r => r
  | Exn _ => {| success := false; waf_cookies := ∅; api_calls := [];
                error := None |}
  end.

(** *** Predicates on runs *)

(** [spec m Φ]: from any state, a run of [m] extends the trace by some
    [t], and [Φ] holds of the outcome and of the operations of [t]. *)
Definition spec {A} (m : M W A) (Φ : outcome A -> list event -> Prop)
  : Prop :=
  forall s, exists t, trace (m s).2 = trace s ++ t /\ Φ (m s).1 (ops t).

(** [m] leaves the cache as it found it. *)
Definition keeps_cache {A} (m : M W A) : Prop :=
  forall s, waf_cookie_cache (m s).2 = waf_cookie_cache s.

(** [spec] with the cache before and after the run. *)
Definition spec_cache {A} (m : M W A)
    (Φ : gmap pystr (gmap pystr pystr) -> outcome A ->
         gmap pystr (gmap pystr pystr) -> list event -> Prop) : Prop :=
  forall s, exists t,
    trace (m s).2 = trace s ++ t /\
    Φ (waf_cookie_cache s) (m s).1 (waf_cookie_cache (m s).2) (ops t).

End Invocations.

(** *** Further observations *)

(** The values of the cookies of [jar] named [k], in the order of the
    jar; a cookie whose value is [None] contributes nothing. *)
Definition named_values (k : pystr) (jar : list cookie) : list pystr :=
  omap (fun c => if bool_decide (cookie_name c = Some k)
                 then cookie_value c else None) jar.

(** [d.get(k)] on the items of a dictionary. *)
Fixpoint items_get (k : pystr) (d : list (pystr * pystr)) : option pystr :=
  match d with
  | [] => None
  | (k', v) :: d' => if bool_decide (k' = k) then Some v else items_get k d'
  end.

(** Taking or giving back the cache lock. *)
Definition is_lock (ev : event) : bool :=
  match ev with
  | EvAcquire | EvRelease => true
  | _ => false
  end.

(** The operations that the browser strategies await outside their
    [try ... except Exception] or inside a [finally] block. *)
Definition is_escape (ev : event) : bool :=
  match ev with
  | EvOp o _ =>
      match o with
      | PlaywrightStart | PlaywrightStop | ContextClose _
      | PathMkdir _ | PathExists _ => true
      | _ => false
      end
  | _ => false
  end.

(** [sock.connect_ex] returned 0: the debugging port answers. *)
Definition port_open (ev : event) : bool :=
  match ev with
  | @EvOp X o r =>
      match o in op X return outcome X -> bool with
      | SocketConnectEx _ _ =>
          fun r => match r with Val z => (z =? 0)%Z | Exn _ => false end
      | _ => fun _ => false
      end r
  | _ => false
  end.

Definition is_launch (ev : event) : bool :=
  match ev with
  | EvOp o _ =>
      match o with LaunchPersistentContext _ => true | _ => false end
  | _ => false
  end.

Definition is_connect (ev : event) : bool :=
  match ev with
  | EvOp o _ => match o with ConnectOverCdp _ => true | _ => false end
  | _ => false
  end.

Definition is_page_close (ev : event) : bool :=
  match ev with
  | EvOp o _ => match o with PageClose _ => true | _ => false end
  | _ => false
  end.

(** [client.get(url, headers=headers)]: what is sent. *)
Definition sent (ev : event) : option (pystr * list (pystr * pystr)) :=
  match ev with
  | EvOp o _ =>
      match o with
      | ClientGet _ url headers => Some (url, headers)
      | _ => None
      end
  | _ => None
  end.

(** The requests of a run, in order. *)
Definition requests (t : list event)
  : list (pystr * list (pystr * pystr)) :=
  omap sent t.

(** [element.click()] that returned. *)
Definition clicked (ev : event) : bool :=
  match ev with
  | EvOp o (Val _) => match o with Click _ => true | _ => false end
  | _ => false
  end.

(** The trace of a browser extraction holds awaited operations only,
    and begins with the start of playwright. *)
Definition extraction_trace (t : list event) : Prop :=
  List.filter is_lock t = [] /\
  exists r rest, t = EvOp PlaywrightStart r :: rest.

(** The trace of a call of [get_cached_waf_cookies] on the cache [c]:
    the lock is taken first and given back last; in between there is
    nothing on a hit and one extraction on a miss. *)
Definition cached_trace (domain : pystr) (required_cookies : list pystr)
    (c : gmap pystr (gmap pystr pystr)) (t : list event) : Prop :=
  exists te, t = EvAcquire :: te ++ [EvRelease] /\
    match cache_hit c domain required_cookies with
    | Some _ => te = []
    | None => extraction_trace te
    end.

(** An exception leaves a browser strategy only if one of the
    operations of [is_escape] raised it. *)
Definition escapes (out : outcome BrowserResult) (t : list event) : Prop :=
  match out with
  | Val _ => True
  | Exn e => Exists (fun ev => raises e ev /\ is_escape ev = true) t
  end.

(** What the flows await on a page once the cookies are read, and the
    exceptions of the interpreter itself. *)
Definition flow_step (ev : event) : bool :=
  match ev with
  | EvOp o _ =>
      match o with
      | Goto _ _ _ | WaitForFunction _ _ _ | WaitForTimeout _ _
      | ClearCookies _ | AddCookies _ _ | Evaluate _ _
      | WaitForSelector _ _ _ | QuerySelector _ _ | Fill _ _ | Click _
      | KeyboardPress _ _ | WaitForUrl _ _ _ | PageUrl _ => true
      | _ => false
      end
  | EvRaise _ => true
  | _ => false
  end.

(** What runs inside the [try] block of a browser strategy once the
    context is there. *)
Definition page_step (ev : event) : bool :=
  flow_step ev ||
  match ev with
  | EvOp o _ =>
      match o with NewPage _ | ContextCookies _ => true | _ => false end
  | _ => false
  end.

(** What HTTP-Only-Replay awaits. *)
Definition client_step (ev : event) : bool :=
  match ev with
  | EvOp o _ =>
      match o with
      | ClientOpen _ | ClientCookiesSet _ _ _ _ | ClientGet _ _ _
      | ClientClose _ => true
      | _ => false
      end
  | EvRaise _ => true
  | _ => false
  end.

(** [context.clear_cookies()]. *)
Definition is_clear_cookies (ev : event) : bool :=
  match ev with
  | EvOp o _ => match o with ClearCookies _ => true | _ => false end
  | _ => false
  end.

(** The cookies passed to [context.add_cookies]. *)
Definition cookies_added (ev : event) : option (list set_cookie) :=
  match ev with
  | EvOp o _ => match o with AddCookies _ cs => Some cs | _ => None end
  | _ => None
  end.

(** The strategies that create a stealth context of their own. *)
Definition owns_stealth_context (i : invocation) : bool :=
  match i with
  | CookieReplay _ _ _ _ _ _ _ _ | CredentialLogin _ _ _ _ _ _ _ => true
  | _ => false
  end.

(** The names that a strategy is asked to harvest. *)
Definition required_cookies_of (i : invocation) : list pystr :=
  match i with
  | CookieReplay _ _ _ required_cookies _ _ _ _ => required_cookies
  | CredentialLogin _ _ _ _ _ required_cookies _ => required_cookies
  | _ => []
  end.

(** What the two strategies with a stealth context of their own do
    with it. *)
Definition stealth_claim (required_cookies : list pystr)
    (out : outcome BrowserResult) (t : list event) : Prop :=
  (existsb session_acquired t = false ->
   Forall (fun ev => is_teardown ev = false) t) /\
  (forall r, out = Val r -> success r = true ->
     exists jar, harvested t = [jar] /\
       waf_cookies r = foldl (keep_waf_cookie required_cookies) ∅ jar).

(** The trace up to the first [context.add_cookies]. *)
Fixpoint until_add (t : list event) : list event :=
  match t with
  | [] => []
  | ev :: t' =>
      match cookies_added ev with
      | Some _ => []
      | None => ev :: until_add t'
      end
  end.

Section SessionStatements.
Context `{!PyRuntime}.

(** Cookies are added to the context at most once; when they are, all
    cookies were cleared before, and what is added is the one cookie
    [session] for the host of the domain. *)
Definition session_injection (domain user_session : pystr)
    (t : list event) : Prop :=
  match omap cookies_added t with
  | [] => True
  | [cs] =>
      existsb is_clear_cookies (until_add t) = true /\
      exists cookie_domain,
        urlparse_netloc domain = Val cookie_domain /\
        cs = [ {| sc_name := py "session"; sc_value := user_session;
                  sc_domain := cookie_domain; sc_path := py "/";
                  sc_httpOnly := true; sc_secure := true;
                  sc_sameSite := py "Lax" |} ]
  | _ => False
  end.

End SessionStatements.

(** [page.url] that was read. *)
Definition url_read (ev : event) : option pystr :=
  match ev with
  | @EvOp X o r =>
      match o in op X return outcome X -> option pystr with
      | PageUrl _ =>
          fun r => match r with Val url => Some url | Exn _ => None end
      | _ => fun _ => None
      end r
  | _ => None
  end.

(** The URLs of the page read during a run, in order. *)
Definition urls (t : list event) : list pystr := omap url_read t.

(** The key given to [page.keyboard.press]. *)
Definition key_pressed (ev : event) : option pystr :=
  match ev with
  | EvOp o _ => match o with KeyboardPress _ key => Some key | _ => None end
  | _ => None
  end.

(** The keys pressed during a run, in order. *)
Definition keys_pressed (t : list event) : list pystr :=
  omap key_pressed t.

(** The only key ever pressed is [Enter], once, and only when every
    selector of the submit button was looked up, last of all lookups,
    and no click went through. *)
Definition enter_claim (t : list event) : Prop :=
  keys_pressed t = [] \/
  (keys_pressed t = [py "Enter"] /\
   existsb clicked t = false /\
   submit_selectors `suffix_of` queried t).

(** The line that HTTP-Only-Replay appends to [api_calls] for a request
    that was answered. *)
Definition answered (ev : event) : option pystr :=
  match ev with
  | @EvOp X o r =>
      match o in op X return outcome X -> option pystr with
      | ClientGet _ url _ =>
          fun r =>
            match r with
            | Val response =>
                Some (py "GET " ++ url ++ py " -> "
                      ++ str_of_Z (status_code response))
            | Exn _ => None
            end
      | _ => fun _ => None
      end r
  | _ => None
  end.

(** The lines of the answered requests of a run, in order. *)
Definition get_lines (t : list event) : list pystr := omap answered t.

Section CallStatements.
Context {W : Type} `{!World W}.

(** [spec] for a run without a request listener, with [api_calls] before
    and after the run. *)
Definition spec_calls {A} (m : M W A)
    (Φ : list pystr -> outcome A -> list pystr -> list event -> Prop)
  : Prop :=
  forall s, listener s = None ->
    exists t,
      trace (m s).2 = trace s ++ t /\ listener (m s).2 = None /\
      Φ (calls s) (m s).1 (calls (m s).2) (ops t).

End CallStatements.

(** *** Concurrent callers of [get_cached_waf_cookies]

    Tasks of one event loop interleave at their [await] points.  A
    caller of [get_cached_waf_cookies] has two of them: the entry of
    [async with _cache_lock], where it waits while the lock is held, and
    the browser extraction, during which it holds the lock.  Taking a
    free lock, checking the cache and leaving on a hit happen without
    suspension, and so do the steps after the extraction. *)

Inductive caller :=
| Waiting
| Extracting (launch : nat)
| Returned (r : option (gmap pystr pystr))
| Raised (e : exn).

Record system := {
  sys_cache : gmap pystr (gmap pystr pystr);
  sys_locked : bool;
  sys_launches : nat;
  sys_callers : list caller
}.

Section Interleaving.
(** All callers ask for the same domain with the same list; [browser n]
    is the outcome of the [n]-th browser extraction that is launched. *)
Variable domain : pystr.
Variable required_cookies : list pystr.
Variable browser : nat -> outcome (gmap pystr pystr).

(** The step of caller [i], if it can take one. *)
Definition step (i : nat) (σ : system) : option system :=
  match sys_callers σ !! i with
  | Some Waiting =>
      if sys_locked σ then None
      else
        match cache_hit (sys_cache σ) domain required_cookies with
        | Some cached =>
            Some {| sys_cache := sys_cache σ;
                    sys_locked := false;
                    sys_launches := sys_launches σ;
                    sys_callers :=
                      <[i := Returned (Some cached)]> (sys_callers σ) |}
        | None =>
            Some {| sys_cache := sys_cache σ;
                    sys_locked := true;
                    sys_launches := S (sys_launches σ);
                    sys_callers :=
                      <[i := Extracting (sys_launches σ)]>
                        (sys_callers σ) |}
        end
  | Some (Extracting n) =>
      match browser n with
      | Val waf_cookies =>
          if storable waf_cookies required_cookies then
            Some {| sys_cache :=
                      <[domain := waf_cookies]> (sys_cache σ);
                    sys_locked := false;
                    sys_launches := sys_launches σ;
                    sys_callers :=
                      <[i := Returned (Some waf_cookies)]>
                        (sys_callers σ) |}
          else
            Some {| sys_cache := sys_cache σ;
                    sys_locked := false;
                    sys_launches := sys_launches σ;
                    sys_callers :=
                      <[i := Returned None]> (sys_callers σ) |}
      | Exn e =>
          Some {| sys_cache := sys_cache σ;
                  sys_locked := false;
                  sys_launches := sys_launches σ;
                  sys_callers := <[i := Raised e]> (sys_callers σ) |}
      end
  | _ => None
  end.

(** A schedule names the caller that is resumed next; resuming a
    caller that cannot move changes nothing. *)
Definition interleave (schedule : list nat) (σ : system) : system :=
  foldl (fun σ i => default σ (step i σ)) σ schedule.

(** [n] callers start together on a given cache. *)
Definition started (n : nat) (cache : gmap pystr (gmap pystr pystr))
  : system :=
  {| sys_cache := cache; sys_locked := false; sys_launches := 0;
     sys_callers := replicate n Waiting |}.

Definition finished (c : caller) : bool :=
  match c with
  | Returned _ | Raised _ => true
  | _ => false
  end.

(** The lock is held by the one caller that is extracting, if any. *)
Definition exclusive (σ : system) : Prop :=
  (forall i n, sys_callers σ !! i = Some (Extracting n) ->
               sys_locked σ = true) /\
  (forall i j n m, sys_callers σ !! i = Some (Extracting n) ->
                   sys_callers σ !! j = Some (Extracting m) -> i = j).

(** At most one extraction was launched, and if one was, it either still
    runs or has filled the cache. *)
Definition launched_once (σ : system) : Prop :=
  (forall i n, sys_callers σ !! i = Some (Extracting n) -> n = 0%nat) /\
  (sys_locked σ = true -> sys_launches σ = 1%nat) /\
  (sys_launches σ = 0%nat \/
   sys_launches σ = 1%nat /\
   (sys_locked σ = true \/
    is_Some (cache_hit (sys_cache σ) domain required_cookies))).

(** What a caller that ran alone ends as. *)
Definition ended (out : outcome (option (gmap pystr pystr))) : caller :=
  match out with
  | Val r => Returned r
  | Exn e => Raised e
  end.

End Interleaving.

End Browser.

(** ** Scripted worlds

    A world that answers every operation from a script; the program is
    run on it to see what it does on a concrete input. *)
Module Scenarios.
Import Browser.

Record script := {
  jar : list cookie;
  on_goto : outcome unit;
  on_evaluate : outcome pyval;
  on_query : pystr -> outcome (option handle);
  on_context_close : outcome unit;
  final_url : pystr -> pystr
}.

Definition answer (sc : script) (X : Type) (o : op X) : outcome X :=
  match o in op X return outcome X with
  | PlaywrightStart => Val tt
  | PlaywrightStop => Val tt
  | Mkdtemp => Val (py "/tmp/tmpq1")
  | LaunchPersistentContext _ => Val 1%nat
  | AddInitScript _ _ => Val tt
  | NewPage _ => Val 2%nat
  | Goto _ _ _ => on_goto sc
  | WaitForFunction _ _ _ => Val tt
  | WaitForTimeout _ _ => Val tt
  | ContextCookies _ => Val (jar sc)
  | ClearCookies _ => Val tt
  | AddCookies _ _ => Val tt
  | Evaluate _ _ => on_evaluate sc
  | WaitForSelector _ _ _ => Val tt
  | QuerySelector _ selector => on_query sc selector
  | Fill _ _ => Val tt
  | Click _ => Val tt
  | KeyboardPress _ _ => Val tt
  | WaitForUrl _ _ _ => Val tt
  | PageUrl _ => Val (py "https://x.test/console")
  | PageClose _ => Val tt
  | ContextClose _ => on_context_close sc
  | Rmtree _ => Val tt
  | SocketConnectEx _ _ => Val 1%Z
  | PathMkdir _ => Val tt
  | PathExists _ => Val true
  | ConnectOverCdp _ => Val 4%nat
  | BrowserContexts _ => Val []
  | BrowserNewContext _ => Val 5%nat
  | ClientOpen _ => Val 6%nat
  | ClientCookiesSet _ _ _ _ => Val tt
  | ClientGet _ url _ =>
      Val {| status_code := 200; response_url := final_url sc url |}
  | ClientClose _ => Val tt
  end.

#[export] Instance scripted_world : World script :=
  fun X o sc => (answer sc X o, [], sc).

Definition ascii_lower (s : pystr) : pystr :=
  List.map
    (fun c => if ((65 <=? c) && (c <=? 90))%N then (c + 32)%N else c) s.

#[export] Instance ascii_runtime : PyRuntime := {|
  str_lower := ascii_lower;
  urlparse_netloc := fun url => Val url;
  repr_str_list :=
    fun l => py "[" ++ concat (List.map (fun s => py "'" ++ s ++ py "', ") l)
             ++ py "]";
  repr_pyval := fun _ => py "<value>";
  attribute_error := fun _ a => py "no attribute " ++ a;
  subscript_error := fun _ => py "not subscriptable"
|}.

#[export] Instance sample_constants : Constants := {|
  BROWSER_ARGS := [py "--no-sandbox"];
  CHROME_USER_AGENT := py "Mozilla/5.0";
  COOKIE_SET_WAIT_MS := 1000;
  HTTP_TIMEOUT_SECONDS := 30;
  PAGE_LOAD_WAIT_MS := 5000;
  SIGNIN_TRIGGER_WAIT_MS := 5000;
  CHROME_DEBUG_PORT := 9222;
  PLAYWRIGHT_USER_DATA_DIR := py "data/browser_profile"
|}.

(** The site sets the cookie [waf_a] and nothing else; every page has
    every element; nothing fails. *)
Definition calm : script :=
  {| jar := [ {| cookie_name := Some (py "waf_a");
                 cookie_value := Some (py "x") |} ];
     on_goto := Val tt;
     on_evaluate := Val PyNone;
     on_query := fun _ => Val (Some 3%nat);
     on_context_close := Val tt;
     final_url := fun url => url |}.

(** [calm], except that the in-page call raises. *)
Definition fetch_raises : script :=
  {| jar := jar calm;
     on_goto := Val tt;
     on_evaluate := Exn (Exception (py "Execution context was destroyed"));
     on_query := on_query calm;
     on_context_close := Val tt;
     final_url := final_url calm |}.

(** [calm], except that [context.close()] raises. *)
Definition close_raises : script :=
  {| jar := jar calm;
     on_goto := Val tt;
     on_evaluate := on_evaluate calm;
     on_query := on_query calm;
     on_context_close := Exn (Exception (py "Target closed"));
     final_url := final_url calm |}.

(** [calm], except that [page.goto] raises with a message of 150
    characters. *)
Definition goto_raises : script :=
  {| jar := jar calm;
     on_goto := Exn (Exception (replicate 150 120%N));
     on_evaluate := on_evaluate calm;
     on_query := on_query calm;
     on_context_close := Val tt;
     final_url := final_url calm |}.

(** [calm], except that no selector finds an element. *)
Definition no_fields : script :=
  {| jar := jar calm;
     on_goto := Val tt;
     on_evaluate := on_evaluate calm;
     on_query := fun _ => Val None;
     on_context_close := Val tt;
     final_url := final_url calm |}.

(** [calm], except that only the first username selector finds an
    element. *)
Definition no_password_field : script :=
  {| jar := jar calm;
     on_goto := Val tt;
     on_evaluate := on_evaluate calm;
     on_query :=
       fun selector =>
         if bool_decide (selector = pyq "input[name=`username`]")
         then Val (Some 3%nat) else Val None;
     on_context_close := Val tt;
     final_url := final_url calm |}.

(** [calm], except that every request ends on the console page. *)
Definition signed_in : script :=
  {| jar := jar calm;
     on_goto := Val tt;
     on_evaluate := on_evaluate calm;
     on_query := on_query calm;
     on_context_close := Val tt;
     final_url := fun _ => py "https://x.test/console" |}.

(** The arguments of the sample runs. *)
Definition the_domain : pystr := py "https://x.test".
Definition the_login_url : pystr := py "https://x.test/login".

Definition replay (required_cookies : list pystr) : invocation :=
  CookieReplay (py "acc") the_domain the_login_url required_cookies
    (py "sess") (py "12") (py "new-api-user") true.

Definition login (required_cookies : list pystr) : invocation :=
  CredentialLogin (py "acc") the_domain the_login_url (py "user")
    (py "secret") required_cookies true.

Definition http_replay : invocation :=
  HttpReplay (py "acc") the_domain the_login_url
    [(py "session", py "sess")] (py "12") (py "new-api-user") true.

End Scenarios.

(** ** Scripted worlds with overrides and network requests *)
Module Overrides.
Import Browser Scenarios.

(** A script, the operations that are answered otherwise, and the
    requests that the page issues during an operation. *)
Record override := {
  base : script;
  instead : forall X, op X -> option (outcome X);
  traffic : forall X, op X -> list request
}.

#[export] Instance override_world : World override :=
  fun X o f =>
    (match instead f X o with
     | Some r => r
     | None => answer (base f) X o
     end, traffic f X o, f).

Definition no_traffic (X : Type) (o : op X) : list request := [].

(** The browser cannot be launched. *)
Definition launch_fails : override :=
  {| base := calm;
     instead := fun X o =>
       match o in op X return option (outcome X) with
       | LaunchPersistentContext _ =>
           Some (Exn (Exception (py "Executable doesn't exist")))
       | _ => None
       end;
     traffic := no_traffic |}.

(** The readiness check times out. *)
Definition never_ready : override :=
  {| base := calm;
     instead := fun X o =>
       match o in op X return option (outcome X) with
       | WaitForFunction _ _ _ =>
           Some (Exn (Exception (py "Timeout 5000ms exceeded")))
       | _ => None
       end;
     traffic := no_traffic |}.

(** The debugging port answers, the running browser has a context, and
    the login page redirects nowhere. *)
Definition chrome_running : override :=
  {| base := calm;
     instead := fun X o =>
       match o in op X return option (outcome X) with
       | SocketConnectEx _ _ => Some (Val 0%Z)
       | BrowserContexts _ => Some (Val [7%nat])
       | PageUrl _ => Some (Val (py "https://x.test/login"))
       | _ => None
       end;
     traffic := no_traffic |}.

(** Playwright cannot be started. *)
Definition no_playwright : override :=
  {| base := calm;
     instead := fun X o =>
       match o in op X return option (outcome X) with
       | PlaywrightStart => Some (Exn (Exception (py "Driver not found")))
       | _ => None
       end;
     traffic := no_traffic |}.

(** The socket cannot be created. *)
Definition no_socket : override :=
  {| base := calm;
     instead := fun X o =>
       match o in op X return option (outcome X) with
       | SocketConnectEx _ _ =>
           Some (Exn (Exception (py "Too many open files")))
       | _ => None
       end;
     traffic := no_traffic |}.

End Overrides.

(** * Properties *)

(** ** Masking *)

Module MaskingFacts.
Import Masking.

Lemma mask_session_long (s : pystr) :
  (6 < length s)%nat ->
  mask_session (Some s) = take 3 s ++ py "..." ++ drop (length s - 3) s.
Proof.
  intros Hlen. unfold mask_session.
  destruct s as [|c s]; [simpl in Hlen; lia|].
  cbn [str_truthy negb].
  destruct (Nat.leb_spec (length (c :: s)) 6); [lia|]. reflexivity.
Qed.

Lemma mask_session_short (s : pystr) :
  (0 < length s <= 6)%nat -> mask_session (Some s) = py "***".
Proof.
  intros [Hpos Hle]. unfold mask_session.
  destruct s as [|c s]; [simpl in Hpos; lia|].
  cbn [str_truthy negb].
  destruct (Nat.leb_spec (length (c :: s)) 6); [reflexivity|lia].
Qed.

Lemma mask_cookies_lookup (d : gmap pystr (option pystr)) (k : pystr) :
  d <> ∅ ->
  exists d', mask_cookies (CookiesDict d) = MaskedDict d' /\
    d' !! k = (fun v => if bool_decide (k = session_key)
                        then Some (mask_session v) else v) <$> d !! k.
Proof.
  intros Hd. unfold mask_cookies. rewrite bool_decide_eq_false_2 by done.
  eexists. split; [reflexivity|]. rewrite map_lookup_imap.
  by destruct (d !! k).
Qed.

(** C10.  [mask_cookies] on a dictionary changes the value under the
    key [session] and no other; [mask_session] shows the first three
    and the last three characters of a value of more than six
    characters, so six of the seven characters of a value of seven;
    it gives [***] for a value of one to six characters, and the empty
    string for the empty string and for [None]. *)
Theorem mask_cookies_redacts_only_session (d : gmap pystr (option pystr)) :
  exists d',
    mask_cookies (CookiesDict d) = MaskedDict d' /\
    (forall k, k <> session_key -> d' !! k = d !! k) /\
    d' !! session_key = (fun v => Some (mask_session v)) <$> d !! session_key /\
    (forall s : pystr, (6 < length s)%nat ->
       mask_session (Some s) = take 3 s ++ py "..." ++ drop (length s - 3) s) /\
    (forall a b c x e f g : N,
       mask_session (Some [a; b; c; x; e; f; g])
       = [a; b; c] ++ py "..." ++ [e; f; g]) /\
    (forall s : pystr, (0 < length s <= 6)%nat ->
       mask_session (Some s) = py "***") /\
    mask_session (Some (py "")) = py "" /\
    mask_session None = py "".
Proof.
  assert (Hrest :
    (forall s : pystr, (6 < length s)%nat ->
       mask_session (Some s) = take 3 s ++ py "..." ++ drop (length s - 3) s) /\
    (forall a b c x e f g : N,
       mask_session (Some [a; b; c; x; e; f; g])
       = [a; b; c] ++ py "..." ++ [e; f; g]) /\
    (forall s : pystr, (0 < length s <= 6)%nat ->
       mask_session (Some s) = py "***") /\
    mask_session (Some (py "")) = py "" /\
    mask_session None = py "").
  { split; [exact mask_session_long|]. split; [intros; reflexivity|].
    split; [exact mask_session_short|]. split; reflexivity. }
  destruct (decide (d = ∅)) as [->|Hd].
  - exists ∅. split; [reflexivity|]. split; [done|].
    split; [by rewrite !lookup_empty|done].
  - destruct (mask_cookies_lookup d session_key Hd) as (d' & Heq & Hs).
    exists d'. split; [exact Heq|]. split; [|split; [|exact Hrest]].
    + intros k Hk.
      destruct (mask_cookies_lookup d k Hd) as (d'' & Heq' & Hk').
      rewrite Heq in Heq'. injection Heq' as <-. rewrite Hk'.
      rewrite bool_decide_eq_false_2 by done. by destruct (d !! k).
    + rewrite Hs. by rewrite bool_decide_eq_true_2.
Qed.

Lemma mask_cookies_redacts_only_session_witness :
  exists d',
    mask_cookies (CookiesDict {[py "session" := Some (py "abcdefg");
                                py "cf_clearance" := Some (py "v")]})
    = MaskedDict d' /\
    d' !! py "cf_clearance" = Some (Some (py "v")) /\
    d' !! session_key = Some (Some (py "abc...efg")).
Proof.
  destruct (mask_cookies_redacts_only_session
              {[py "session" := Some (py "abcdefg");
                py "cf_clearance" := Some (py "v")]})
    as (d' & Heq & Hother & Hsession & _).
  exists d'. split; [exact Heq|]. split.
  - rewrite Hother; [vm_compute; reflexivity|].
    intros Hk. vm_compute in Hk. discriminate Hk.
  - rewrite Hsession. vm_compute. reflexivity.
Defined.

End MaskingFacts.

(** ** Masking, further *)

Module MaskingMore.
Import Masking.

Lemma length_dots : length (py "...") = 3%nat.
Proof. reflexivity. Qed.

Lemma mask_session_cases (s : pystr) :
  (s = [] /\ mask_session (Some s) = []) \/
  ((0 < length s <= 6)%nat /\ mask_session (Some s) = py "***") \/
  ((6 < length s)%nat /\
   mask_session (Some s) = take 3 s ++ py "..." ++ drop (length s - 3) s).
Proof.
  destruct s as [|c s]; [by left|]. right.
  destruct (decide (length (c :: s) <= 6)%nat) as [Hle|Hgt].
  - left. split; [cbn [length] in *; lia|].
    apply MaskingFacts.mask_session_short. cbn [length] in *. lia.
  - right. split; [lia|]. apply MaskingFacts.mask_session_long. lia.
Qed.

Lemma mask_session_twice (session : option pystr) :
  mask_session (Some (mask_session session)) = mask_session session.
Proof.
  destruct session as [s|]; [|reflexivity].
  destruct (mask_session_cases s) as [[-> ->]|[[_ ->]|[Hlen ->]]];
    [reflexivity|reflexivity|].
  set (r := take 3 s ++ py "..." ++ drop (length s - 3) s).
  assert (Ht : length (take 3 s) = 3%nat) by (rewrite length_take; lia).
  assert (Hd : length (drop (length s - 3) s) = 3%nat)
    by (rewrite length_drop; lia).
  assert (Hr : length r = 9%nat).
  { unfold r. rewrite !length_app, Ht, Hd, length_dots. done. }
  rewrite MaskingFacts.mask_session_long by lia. rewrite Hr. unfold r.
  rewrite take_app_length' by done. f_equal. f_equal.
  rewrite app_assoc. apply drop_app_length'.
  rewrite length_app, Ht, length_dots. done.
Qed.

(** X1.  Masking a masked session changes nothing. *)
Theorem mask_session_idempotent (session : option pystr) :
  mask_session (Some (mask_session session)) = mask_session session.
Proof. apply mask_session_twice. Qed.

(** X2.  The mask of a session is empty, three or nine characters long;
    every session of more than six characters gives nine, whatever its
    length. *)
Theorem mask_session_length (session : option pystr) :
  let n := length (mask_session session) in
  (n = 0 \/ n = 3 \/ n = 9)%nat /\
  (forall s, session = Some s -> (6 < length s)%nat -> n = 9%nat) /\
  (forall s, session = Some s -> (length s <= 6)%nat ->
     n = if str_truthy s then 3%nat else 0%nat).
Proof.
  destruct session as [s|]; cbn zeta.
  2:{ split; [by left|]. split; intros s' Hs; discriminate Hs. }
  destruct (mask_session_cases s) as [[-> ->]|[[Hlen ->]|[Hlen ->]]].
  - split; [by left|]. split; intros s' [= <-] Hs'; [cbn in Hs'; lia|done].
  - split; [right; by left|]. split; intros s' [= <-] Hs'; [lia|].
    destruct s; [cbn in Hlen; lia|reflexivity].
  - assert (Hn : length (take 3 s ++ py "..." ++ drop (length s - 3) s)
                 = 9%nat).
    { rewrite !length_app, length_take, length_drop, length_dots. lia. }
    rewrite Hn. split; [right; by right|].
    split; intros s' [= <-] Hs'; [done|lia].
Qed.

Lemma mask_session_length_witness :
  length (mask_session (Some (py "0123456789abcdef"))) = 9%nat.
Proof.
  apply (proj1 (proj2 (mask_session_length (Some (py "0123456789abcdef"))))
           (py "0123456789abcdef") eq_refl).
  vm_compute. lia.
Defined.

Lemma mask_cookies_dict (d : gmap pystr (option pystr)) (k : pystr) :
  exists d', mask_cookies (CookiesDict d) = MaskedDict d' /\
    (d = ∅ <-> d' = ∅) /\
    d' !! k = (fun v => if bool_decide (k = session_key)
                        then Some (mask_session v) else v) <$> d !! k.
Proof.
  unfold mask_cookies. case_bool_decide as Hd.
  - exists ∅. subst d. split; [done|]. split; [done|].
    by rewrite !lookup_empty.
  - eexists. split; [reflexivity|]. split.
    + split; [done|]. intros Hempty. apply map_empty. intros i.
      apply (f_equal (fun m => m !! i)) in Hempty.
      rewrite map_lookup_imap, lookup_empty in Hempty.
      by destruct (d !! i).
    + rewrite map_lookup_imap. by destruct (d !! k).
Qed.

(** X3.  Masking what [mask_cookies] returned changes nothing, for a
    dictionary, a string and [None] alike. *)
Theorem mask_cookies_idempotent (cookies : cookies_arg) :
  mask_cookies (masked_as_arg (mask_cookies cookies)) = mask_cookies cookies.
Proof.
  destruct cookies as [|s|d].
  - reflexivity.
  - cbn [mask_cookies]. destruct (str_truthy s) eqn:Hs; cbn [negb].
    2:{ reflexivity. }
    destruct (str_in (py "session=") s) eqn:Hin; cbn [masked_as_arg].
    + reflexivity.
    + cbn [mask_cookies]. by rewrite Hs, Hin.
  - destruct (mask_cookies_dict d session_key) as (d' & Hd' & Hempty & _).
    rewrite Hd'. cbn [masked_as_arg].
    destruct (mask_cookies_dict d' session_key) as (d'' & Hd'' & _ & _).
    rewrite Hd''. f_equal. apply map_eq. intros k.
    destruct (mask_cookies_dict d k) as (e' & He' & _ & Hk').
    destruct (mask_cookies_dict d' k) as (e'' & He'' & _ & Hk'').
    rewrite Hd' in He'. injection He' as <-.
    rewrite Hd'' in He''. injection He'' as <-.
    rewrite Hk'', Hk'. destruct (d !! k) as [v|]; [|done]. cbn.
    case_bool_decide; [|done]. by rewrite mask_session_twice.
Qed.

(** X4.  The log line of an account shows the session only as
    [mask_session] shows it, and only for a dictionary that has the key
    [session]; for a string of cookies, for [None], for an empty
    dictionary and for a dictionary without that key the line ends
    after the provider, and no other cookie is ever shown. *)
Theorem mask_account_for_log_shows_masked_session_only
    (name : option pystr) (provider api_user : pystr)
    (cookies : cookies_arg) :
  let display_name :=
    match name with
    | Some n =>
        if str_truthy n then n else py "Account (" ++ api_user ++ py ")"
    | None => py "Account (" ++ api_user ++ py ")"
    end in
  mask_account_for_log name provider api_user cookies
  = match cookies with
    | CookiesDict d =>
        match d !! session_key with
        | Some v =>
            display_name ++ py " [" ++ provider ++ py "] session="
            ++ mask_session v
        | None => display_name ++ py " [" ++ provider ++ py "]"
        end
    | _ => display_name ++ py " [" ++ provider ++ py "]"
    end.
Proof.
  cbn zeta. unfold mask_account_for_log.
  destruct cookies as [|s|d]; cbn [cookies_truthy].
  - reflexivity.
  - destruct (str_truthy s) eqn:Hs; [|reflexivity].
    cbn [mask_cookies]. rewrite Hs. cbn [negb].
    by destruct (str_in (py "session=") s).
  - destruct (mask_cookies_dict d session_key) as (d' & Hd' & Hempty & Hk).
    destruct (decide (d = ∅)) as [->|Hd].
    + rewrite bool_decide_eq_true_2 by done. cbn [negb].
      by rewrite lookup_empty.
    + rewrite bool_decide_eq_false_2 by done. cbn [negb].
      rewrite Hd', Hk. destruct (d !! session_key) as [v|]; [|done]. cbn.
      by rewrite bool_decide_eq_true_2.
Qed.

End MaskingMore.

(** ** The browser strategies *)

Module BrowserFacts.
Import Browser.

(** ** Reasoning about runs

    String literals are never unfolded by the proofs below. *)

#[local] Opaque py pyq.

Section Runs.
Context {W : Type} `{!World W} `{!PyRuntime} `{!Constants}.

#[local] Abbreviation spec := (spec (W := W)).

Lemma ops_app t1 t2 : ops (t1 ++ t2) = ops t1 ++ ops t2.
Proof. apply List.filter_app. Qed.

Lemma is_log_log_event b msg : is_log (log_event b msg) = true.
Proof. by destruct b. Qed.

Lemma ops_cons_log ev t : is_log ev = true -> ops (ev :: t) = ops t.
Proof. intros Hev. unfold ops. cbn [List.filter]. by rewrite Hev. Qed.

Lemma ops_log_event b msg : ops [log_event b msg] = [].
Proof. apply ops_cons_log, is_log_log_event. Qed.

Lemma ops_heard l reqs : ops (heard l reqs).2 = [].
Proof.
  destruct l as [b|]; [|done]. unfold heard. cbn [snd].
  induction (_create_api_logger reqs) as [|c cs IH]; [done|].
  cbn [List.map]. rewrite ops_cons_log; [done|apply is_log_log_event].
Qed.

Lemma spec_mono {A} (m : M W A) (Φ Ψ : outcome A -> list event -> Prop) :
  spec m Φ -> (forall o t, Φ o t -> Ψ o t) -> spec m Ψ.
Proof. intros Hm HΦ s. destruct (Hm s) as (t & ? & ?). eauto. Qed.

Lemma spec_and {A} (m : M W A) (Φ Ψ : outcome A -> list event -> Prop) :
  spec m Φ -> spec m Ψ -> spec m (fun o t => Φ o t /\ Ψ o t).
Proof.
  intros H1 H2 s. destruct (H1 s) as (t & Ht & ?), (H2 s) as (t' & Ht' & ?).
  exists t. rewrite Ht in Ht'. apply app_inv_head in Ht' as <-. done.
Qed.

Lemma spec_fresh {A} (m : M W A) Φ (w : W) cache :
  spec m Φ -> Φ (m (fresh w cache)).1 (ops (trace (m (fresh w cache)).2)).
Proof. intros Hm. destruct (Hm (fresh w cache)) as (t & -> & HΦ). done. Qed.

Lemma spec_ret {A} (a : A) (Φ : outcome A -> list event -> Prop) :
  Φ (Val a) [] -> spec (mret a) Φ.
Proof. intros HΦ s. exists []. cbn. by rewrite app_nil_r. Qed.

Lemma spec_raise {A} (e : exn) (Φ : outcome A -> list event -> Prop) :
  Φ (Exn e) [] -> spec (raise e) Φ.
Proof. intros HΦ s. exists []. cbn. by rewrite app_nil_r. Qed.

Lemma spec_bind {A B} (m : M W A) (k : A -> M W B)
    (Φ : outcome B -> list event -> Prop) :
  spec m (fun o t1 =>
            match o with
            | Val a => spec (k a) (fun o' t2 => Φ o' (t1 ++ t2))
            | Exn e => Φ (Exn e) t1
            end) ->
  spec (m ≫= k) Φ.
Proof.
  intros Hm s. destruct (Hm s) as (t1 & Ht1 & H1).
  unfold mbind, M_bind. destruct (m s) as [[a|e] s1]; cbn in *.
  - destruct (H1 s1) as (t2 & Ht2 & H2). exists (t1 ++ t2).
    by rewrite Ht2, Ht1, app_assoc, ops_app.
  - exists t1. auto.
Qed.

Lemma spec_try_except {A} (body : M W A) (h : exn -> M W A)
    (Φ : outcome A -> list event -> Prop) :
  spec body (fun o t1 =>
               match o with
               | Val a => Φ (Val a) t1
               | Exn e => spec (h e) (fun o' t2 => Φ o' (t1 ++ t2))
               end) ->
  spec (try_except body h) Φ.
Proof.
  intros Hm s. destruct (Hm s) as (t1 & Ht1 & H1).
  unfold try_except. destruct (body s) as [[a|e] s1]; cbn in *.
  - exists t1. auto.
  - destruct (H1 s1) as (t2 & Ht2 & H2). exists (t1 ++ t2).
    by rewrite Ht2, Ht1, app_assoc, ops_app.
Qed.

Lemma spec_try_finally {A} (body : M W A) (fin : M W unit)
    (Φ : outcome A -> list event -> Prop) :
  spec body (fun r t1 =>
               spec fin (fun o t2 =>
                           match o with
                           | Val _ => Φ r (t1 ++ t2)
                           | Exn e => Φ (Exn e) (t1 ++ t2)
                           end)) ->
  spec (try_finally body fin) Φ.
Proof.
  intros Hm s. destruct (Hm s) as (t1 & Ht1 & H1).
  unfold try_finally. destruct (body s) as [r s1]; cbn in *.
  destruct (H1 s1) as (t2 & Ht2 & H2).
  destruct (fin s1) as [[[]|e] s2]; cbn in *; exists (t1 ++ t2);
    by rewrite Ht2, Ht1, app_assoc, ops_app.
Qed.

Lemma spec_attempt {A} (m : M W A)
    (Φ : outcome (outcome A) -> list event -> Prop) :
  spec m (fun r t => Φ (Val r) t) -> spec (attempt m) Φ.
Proof.
  intros Hm s. destruct (Hm s) as (t & Ht & H1). unfold attempt.
  destruct (m s) as [r s1]. exists t. auto.
Qed.

Lemma spec_emit ev (Φ : outcome unit -> list event -> Prop) :
  Φ (Val tt) (ops [ev]) -> spec (emit ev) Φ.
Proof. intros HΦ s. exists [ev]. done. Qed.

Lemma spec_log b msg (Φ : outcome unit -> list event -> Prop) :
  Φ (Val tt) [] -> spec (log b msg) Φ.
Proof. intros HΦ. apply spec_emit. by rewrite ops_log_event. Qed.

Lemma spec_log_if b msg (Φ : outcome unit -> list event -> Prop) :
  Φ (Val tt) [] -> spec (log_if b msg) Φ.
Proof.
  intros HΦ. unfold log_if, when. destruct b; [|by apply spec_ret].
  apply spec_emit. done.
Qed.

Lemma spec_perform {X} (o : op X) (Φ : outcome X -> list event -> Prop) :
  (forall r, Φ r [EvOp o r]) -> spec (perform o) Φ.
Proof.
  intros HΦ s. unfold perform.
  destruct (respond o (world s)) as [[r reqs] w'].
  eexists. split; [reflexivity|]. cbn [snd fst trace].
  rewrite ops_app, ops_heard. apply HΦ.
Qed.

Lemma spec_lift {A} (r : outcome A) (Φ : outcome A -> list event -> Prop) :
  match r with
  | Val a => Φ (Val a) []
  | Exn e => Φ (Exn e) [EvRaise e]
  end ->
  spec (lift r) Φ.
Proof.
  intros HΦ s. destruct r as [a|e]; cbn.
  - exists []. by rewrite app_nil_r.
  - by exists [EvRaise e].
Qed.

Lemma spec_get_calls (Φ : outcome (list pystr) -> list event -> Prop) :
  (forall l, Φ (Val l) []) -> spec get_calls Φ.
Proof. intros HΦ s. exists []. cbn. by rewrite app_nil_r. Qed.

Lemma spec_pure_state {A} (m : M W A) (a : A)
    (Φ : outcome A -> list event -> Prop) :
  (forall s, (m s).1 = Val a /\ trace (m s).2 = trace s) ->
  Φ (Val a) [] -> spec m Φ.
Proof.
  intros Hm HΦ s. destruct (Hm s) as [-> ->]. exists [].
  by rewrite app_nil_r.
Qed.

Lemma spec_append_call c (Φ : outcome unit -> list event -> Prop) :
  Φ (Val tt) [] -> spec (append_call c) Φ.
Proof. by apply spec_pure_state. Qed.

Lemma spec_new_calls_and_listen b (Φ : outcome unit -> list event -> Prop) :
  Φ (Val tt) [] -> spec (new_calls_and_listen b) Φ.
Proof. by apply spec_pure_state. Qed.

Lemma spec_new_calls (Φ : outcome unit -> list event -> Prop) :
  Φ (Val tt) [] -> spec new_calls Φ.
Proof. by apply spec_pure_state. Qed.

Lemma spec_settle r (Φ : outcome BrowserResult -> list event -> Prop) :
  (forall l, Φ (Val {| success := p_success r;
                       waf_cookies := p_waf_cookies r;
                       api_calls := l; error := p_error r |}) []) ->
  spec (settle r) Φ.
Proof.
  intros HΦ s. exists []. cbn. rewrite app_nil_r. split; [done|]. apply HΦ.
Qed.

Lemma spec_log_user_self_calls b msg l
    (Φ : outcome unit -> list event -> Prop) :
  Φ (Val tt) [] -> spec (log_user_self_calls b msg l) Φ.
Proof.
  intros HΦ. unfold log_user_self_calls.
  induction l as [|c l IH]; cbn [for_each].
  - by apply spec_ret.
  - apply spec_bind. unfold when. destruct (str_in _ c).
    + apply spec_log. eapply spec_mono; [apply IH|]. done.
    + apply spec_ret. eapply spec_mono; [apply IH|]. done.
Qed.

End Runs.

(** One step of symbolic execution: the rule of the construct at the head
    of the program, and a case analysis where the program branches. *)
Ltac exec_step :=
  lazymatch goal with
  | |- spec (mbind _ _) _ => apply spec_bind
  | |- spec (try_except _ _) _ => apply spec_try_except
  | |- spec (try_finally _ _) _ => apply spec_try_finally
  | |- spec (attempt _) _ => apply spec_attempt
  | |- spec (mret _) _ => apply spec_ret
  | |- spec (raise _) _ => apply spec_raise
  | |- spec (log _ _) _ => apply spec_log
  | |- spec (log_if _ _) _ => apply spec_log_if
  | |- spec (emit _) _ => apply spec_emit
  | |- spec (perform _) _ =>
      let r := fresh "r" in
      apply spec_perform; intros r; destruct r
  | |- spec (lift ?r) _ => apply spec_lift; destruct r eqn:?
  | |- spec (settle _) _ => apply spec_settle; intros ?
  | |- spec (append_call _) _ => apply spec_append_call
  | |- spec (new_calls_and_listen _) _ => apply spec_new_calls_and_listen
  | |- spec new_calls _ => apply spec_new_calls
  | |- spec get_calls _ => apply spec_get_calls; intros ?
  | |- spec (log_user_self_calls _ _ _) _ => apply spec_log_user_self_calls
  | |- spec (when _ _) _ => unfold when at 1
  | |- spec (if true then _ else _) _ => idtac
  | |- spec (if false then _ else _) _ => idtac
  | |- spec (if ?c then _ else _) _ => destruct c eqn:?
  | |- spec (match ?c with _ => _ end) _ => destruct c eqn:?
  end; cbn [negb].

Ltac exec := repeat exec_step; cbn [app].

(** ** Facts about traces *)

Section TraceFacts.

Lemma existsb_cons {A} (f : A -> bool) x l :
  existsb f (x :: l) = f x || existsb f l.
Proof. reflexivity. Qed.

Lemma forallb_cons {A} (f : A -> bool) x l :
  forallb f (x :: l) = f x && forallb f l.
Proof. reflexivity. Qed.

Lemma filter_cons {A} (f : A -> bool) x l :
  List.filter f (x :: l)
  = if f x then x :: List.filter f l else List.filter f l.
Proof. reflexivity. Qed.

Lemma harvested_app t1 t2 :
  harvested (t1 ++ t2) = harvested t1 ++ harvested t2.
Proof. apply omap_app. Qed.

Lemma harvested_cons ev t :
  harvested (ev :: t) = match cookies_read ev with
                        | Some jar => jar :: harvested t
                        | None => harvested t
                        end.
Proof. reflexivity. Qed.

Lemma after_harvest_app t1 ev t2 :
  harvested t1 = [] -> is_Some (cookies_read ev) ->
  after_harvest (t1 ++ ev :: t2) = t2.
Proof.
  intros Ht1 [jar Hev]. induction t1 as [|x t1 IH]; cbn in *.
  - by rewrite Hev.
  - destruct (cookies_read x); [done|]. auto.
Qed.

Lemma released_app t1 t2 : released (t1 ++ t2) = released t1 && released t2.
Proof. apply forallb_app. Qed.

Lemma released_cons ev t :
  released (ev :: t)
  = implb (is_release ev) (negb (is_fault ev)) && released t.
Proof. reflexivity. Qed.

Lemma gets_cons ev t :
  gets (ev :: t) = match http_get ev with
                   | Some g => g :: gets t
                   | None => gets t
                   end.
Proof. reflexivity. Qed.

Lemma gets_app t1 t2 : gets (t1 ++ t2) = gets t1 ++ gets t2.
Proof. apply omap_app. Qed.

Lemma quiet_no_close t : quiet t -> List.filter is_context_close t = [].
Proof.
  induction 1 as [|ev t Hev _ IH]; [done|]. rewrite filter_cons, IH.
  apply orb_false_iff in Hev as [Hev _].
  destruct ev as [X o r| | | | |]; try done. by destruct o.
Qed.

Lemma quiet_no_rmtree t : quiet t -> List.filter is_rmtree t = [].
Proof.
  induction 1 as [|ev t Hev _ IH]; [done|]. rewrite filter_cons, IH.
  apply orb_false_iff in Hev as [Hev _].
  destruct ev as [X o r| | | | |]; try done. by destruct o.
Qed.


Lemma raised_in_app_l e t1 t2 : raised_in e t1 -> raised_in e (t1 ++ t2).
Proof. intros. apply Exists_app. by left. Qed.

Lemma raised_in_app_r e t1 t2 : raised_in e t2 -> raised_in e (t1 ++ t2).
Proof. intros. apply Exists_app. by right. Qed.

Lemma raised_in_cons e ev t : raised_in e t -> raised_in e (ev :: t).
Proof. intros. by apply Exists_cons_tl. Qed.

Lemma raised_in_here e ev t : raises e ev -> raised_in e (ev :: t).
Proof. intros. by apply Exists_cons_hd. Qed.

Lemma length_slice_to n (s : pystr) : (length (slice_to n s) <= n)%nat.
Proof. unfold slice_to. rewrite length_take. lia. Qed.

Lemma missing_nil (waf : gmap pystr pystr) (required : list pystr) :
  List.filter (fun c => negb (dict_has waf c)) required = [] ->
  has_all waf required = true.
Proof.
  unfold has_all. induction required as [|c l IH]; [done|]. cbn.
  destruct (dict_has waf c); cbn; [done|discriminate].
Qed.

End TraceFacts.

(** The exception of a run is found in its trace. *)
Ltac find_raise :=
  unfold raised_in in *;
  repeat first
    [ eassumption
    | apply Exists_cons_hd; reflexivity
    | apply Exists_cons_tl
    | (apply Exists_app; left; eassumption)
    | (apply Exists_app; right) ].

(** Pick the disjunct that holds by reflexivity, without comparing
    distinct string literals. *)
Ltac pick_eq :=
  repeat lazymatch goal with
  | |- ?x = ?x => reflexivity
  | |- ?x = ?x \/ _ => left; reflexivity
  | |- _ \/ _ => right
  end.

(** ** The selector loops *)

Section Selectors.
Context {W : Type} `{!World W} `{!PyRuntime} `{!Constants}.

Lemma first_selector_tries (p : page) (act : handle -> op unit) b msg l :
  spec (first_selector p (fun el => perform (act el)) (log b msg) l)
       (fun o t => exists hit, o = Val hit /\ tries p act l hit t).
Proof.
  induction l as [|selector rest IH]; cbn [first_selector].
  - apply spec_ret. exists false. split; [done|]. constructor.
  - unfold try_selector. exec.
    all: try (eapply spec_mono; [apply IH|];
              intros o t (hit & -> & Ht); exists hit; split; [done|];
              cbn [app]; by constructor).
    all: try destruct a0.
    all: exists true; split; [done|]; constructor.
Qed.

End Selectors.

Ltac exec_loop :=
  lazymatch goal with
  | |- spec (first_selector _ _ _ _) _ =>
      let hit := fresh "hit" in
      eapply spec_mono; [apply first_selector_tries|];
      intros ? ? (hit & -> & ?); destruct hit; cbn [negb]
  end.

Ltac exec_all := repeat first [exec_step | exec_loop]; cbn [app].

Section TriesFacts.

Lemma tries_quiet p act l hit t :
  (forall el r, is_teardown (EvOp (act el) r)
                || is_playwright_stop (EvOp (act el) r) = false) ->
  tries p act l hit t -> quiet t.
Proof. intros Hact. induction 1; repeat constructor; done. Qed.

Lemma from_first_query_tries p act selector l hit t rest :
  tries p act (selector :: l) hit t ->
  from_first_query (t ++ rest) = t ++ rest.
Proof. by inversion 1. Qed.

Lemma queried_cons ev t :
  queried (ev :: t) = match query ev with
                      | Some (selector, _) => selector :: queried t
                      | None => queried t
                      end.
Proof. unfold queried. cbn. by destruct (query ev) as [[? ?]|]. Qed.

Lemma queried_app t1 t2 : queried (t1 ++ t2) = queried t1 ++ queried t2.
Proof. apply omap_app. Qed.

(** The selectors are looked up in the order of the list, and none is
    skipped: the lookups of a loop are a prefix of its list, the whole
    list when there is no hit. *)
Lemma tries_queried p act l hit t :
  (forall el r, query (EvOp (act el) r) = None) ->
  tries p act l hit t ->
  exists n, queried t = take n l /\ (hit = false -> n = length l).
Proof.
  intros Hact.
  induction 1 as [|s r h t _ (n & IH & Hn)|s r h t e _ (n & IH & Hn)
                 |s r h t el e _ (n & IH & Hn)|s r el];
    rewrite ?queried_cons, ?Hact; cbn [query].
  - by exists 0%nat.
  - exists (S n). rewrite IH. split; [done|]. intros. cbn. f_equal. auto.
  - exists (S n). rewrite IH. split; [done|]. intros. cbn. f_equal. auto.
  - exists (S n). rewrite IH. split; [done|]. intros. cbn. f_equal. auto.
  - exists 1%nat. cbn. by rewrite take_0.
Qed.

Lemma finds_cons s r t :
  existsb (finds r) t = true -> existsb (finds (s :: r)) t = true.
Proof.
  rewrite !existsb_exists. intros (ev & Hin & Hev). exists ev. split; [done|].
  revert Hev. unfold finds, list_has. destruct (found ev); [|done].
  rewrite !bool_decide_eq_true. set_solver.
Qed.

(** A loop that ends with a hit found an element for one of its
    selectors. *)
Lemma tries_hit_finds p act l hit t :
  tries p act l hit t -> hit = true -> existsb (finds l) t = true.
Proof.
  induction 1 as [|s r h t _ IH|s r h t e _ IH|s r h t el e _ IH|s r el];
    intros Hhit; try discriminate Hhit; rewrite ?existsb_cons.
  - apply orb_true_iff. right. apply finds_cons. auto.
  - apply orb_true_iff. right. apply finds_cons. auto.
  - apply orb_true_iff. right. apply orb_true_iff. right.
    apply finds_cons. auto.
  - apply orb_true_iff. left. unfold finds, found, list_has. cbn [query].
    apply bool_decide_eq_true. set_solver.
Qed.

(** In a loop over [fill] that ends without a hit, an element that was
    found could not be filled. *)
Lemma tries_miss_fill_raised p text l hit t l' :
  tries p (fun el => Fill el text) l hit t -> hit = false ->
  existsb (finds l') t = true -> existsb fill_raised t = true.
Proof.
  induction 1 as [|s r h t _ IH|s r h t e _ IH|s r h t el e _ IH|s r el];
    intros Hhit; try discriminate Hhit; rewrite ?existsb_cons;
    cbn [finds found query fill_raised orb]; auto.
Qed.

Lemma from_first_query_suffix t :
  exists pre, t = pre ++ from_first_query t /\ existsb is_query pre = false.
Proof.
  induction t as [|ev t (pre & IH & Hpre)]; [by exists []|].
  cbn [from_first_query]. destruct (query ev) as [q|] eqn:Hq.
  - by exists [].
  - exists (ev :: pre). cbn [app]. rewrite <- IH. split; [done|].
    rewrite existsb_cons, Hpre. unfold is_query. by rewrite Hq.
Qed.

Lemma finds_is_query l ev : finds l ev = true -> is_query ev = true.
Proof.
  unfold finds, found, is_query. by destruct (query ev) as [[? [[?|]|?]]|].
Qed.

Lemma existsb_finds_from_first_query l t :
  existsb (finds l) (from_first_query t) = existsb (finds l) t.
Proof.
  destruct (from_first_query_suffix t) as (pre & Ht & Hpre).
  rewrite Ht at 2. rewrite existsb_app.
  replace (existsb (finds l) pre) with false; [done|].
  symmetry. apply not_true_is_false. intros Hex.
  apply existsb_exists in Hex as (ev & Hin & Hev).
  apply finds_is_query in Hev.
  assert (existsb is_query pre = true) by (apply existsb_exists; eauto).
  congruence.
Qed.

Lemma existsb_fill_raised_from_first_query t :
  existsb fill_raised (from_first_query t) = true ->
  existsb fill_raised t = true.
Proof.
  destruct (from_first_query_suffix t) as (pre & Ht & Hpre).
  rewrite Ht at 2. rewrite existsb_app. intros ->. apply orb_true_r.
Qed.

Lemma queried_nil_finds l t : queried t = [] -> existsb (finds l) t = false.
Proof.
  induction t as [|ev t IH]; [done|]. rewrite queried_cons, existsb_cons.
  unfold finds, found. destruct (query ev) as [[? ?]|]; [done|]. auto.
Qed.

Lemma from_first_query_app t1 t2 :
  existsb is_query t1 = true ->
  from_first_query (t1 ++ t2) = from_first_query t1 ++ t2.
Proof.
  induction t1 as [|ev t1 IH]; [done|]. rewrite existsb_cons. cbn.
  unfold is_query. destruct (query ev); [done|]. cbn. auto.
Qed.

(** Consequences of [form_trace], whatever [fails] is. *)
Lemma form_trace_no_username {O} (fails : O -> pystr -> Prop)
    u pw (out : O) t :
  form_trace fails u pw out (from_first_query t) ->
  existsb (finds username_selectors) t = false ->
  fails out (py "无法找到用户名输入框").
Proof.
  intros (p & tU & rest & hitU & Heq & HU & Hrest) Hnone.
  rewrite <- existsb_finds_from_first_query, Heq, existsb_app in Hnone.
  apply orb_false_iff in Hnone as [Hnone _].
  destruct hitU; [|by destruct Hrest].
  rewrite (tries_hit_finds _ _ _ _ _ HU) in Hnone; done.
Qed.

Lemma form_trace_no_password {O} (fails : O -> pystr -> Prop)
    u pw (out : O) t :
  form_trace fails u pw out (from_first_query t) ->
  existsb (finds username_selectors) t = true ->
  existsb fill_raised t = false ->
  existsb (finds password_selectors) t = false ->
  fails out (py "无法找到密码输入框").
Proof.
  intros (p & tU & rest & hitU & Heq & HU & Hrest) Hfound Hfill Hnone.
  rewrite <- existsb_finds_from_first_query, Heq, existsb_app
    in Hfound, Hnone.
  apply orb_false_iff in Hnone as [_ Hnone].
  assert (Hfill' : existsb fill_raised (tU ++ rest) = false).
  { apply not_true_is_false. intros Hex. rewrite <- Heq in Hex.
    apply existsb_fill_raised_from_first_query in Hex. congruence. }
  rewrite existsb_app in Hfill'. apply orb_false_iff in Hfill' as [HfillU _].
  destruct hitU.
  - destruct Hrest as (tP & rest' & hitP & -> & HP & Hf).
    rewrite existsb_app in Hnone. apply orb_false_iff in Hnone as [Hnone _].
    destruct hitP; [|by destruct Hf].
    rewrite (tries_hit_finds _ _ _ _ _ HP) in Hnone; done.
  - destruct Hrest as [Hq _].
    rewrite (queried_nil_finds _ _ Hq), orb_false_r in Hfound.
    rewrite (tries_miss_fill_raised _ _ _ _ _ _ HU eq_refl Hfound)
      in HfillU.
    done.
Qed.

End TriesFacts.

Ltac solve_quiet :=
  unfold quiet;
  repeat first
    [ apply Forall_nil_2
    | apply Forall_cons_2; [reflexivity|]
    | apply Forall_app_2
    | match goal with
      | H : tries _ _ _ _ ?t |- Forall _ ?t =>
          refine (tries_quiet _ _ _ _ _ _ H); intros; reflexivity
      | H : quiet ?t |- Forall _ ?t => exact H
      end ].

(** ** Inside the [try] blocks *)

Section Blocks.
Context {W : Type} `{!World W} `{!PyRuntime} `{!Constants}.

(** *** Cookie-Replay *)

Ltac unfold_replay :=
  unfold cookie_replay_steps, replay_session, call_user_self, new_page,
    _wait_for_page_load, _get_waf_cookies, _set_session_cookie.

Lemma replay_steps_outcome a b c d e f g h ctx dir :
  spec (cookie_replay_steps a b c d e f g h ctx dir)
       (fun o t => quiet t /\ replay_outcome e o t).
Proof.
  unfold_replay. exec.
  all: split; [solve_quiet|].
  all: unfold replay_outcome; try solve [find_raise].
  all: try (left; split; [done|]; split; [done|]; by apply missing_nil).
  all: right; eexists; split; [|reflexivity]; done.
Qed.

Lemma replay_steps_incomplete a b c d e f g h ctx dir :
  spec (cookie_replay_steps a b c d e f g h ctx dir)
    (fun o t =>
       forall jar, harvested t = [jar] -> missing_cookies e jar <> [] ->
         o = Val (failed (py "缺少 WAF cookies: "
                          ++ repr_str_list (missing_cookies e jar)))
         /\ exists t1 ev, t = t1 ++ [ev] /\ harvested t1 = []
                          /\ cookies_read ev = Some jar).
Proof.
  unfold_replay. exec.
  all: intros jar Hjar Hmiss; cbn in Hjar; try discriminate Hjar.
  all: injection Hjar as <-; unfold missing_cookies in *.
  all: try congruence.
  all: match goal with H : List.filter _ _ = _ :: _ |- _ => rewrite H end.
  all: split; [done|].
  all: first [ by eexists [_; _; _], _ | by eexists [_; _; _; _], _ ].
Qed.

Lemma replay_steps_fetch a b c d e f g h ctx dir :
  spec (cookie_replay_steps a b c d e f g h ctx dir)
    (fun o t =>
       existsb is_evaluate t = true ->
       forallb (fun ev => implb (is_fault ev) (passed_over ev)) t = true ->
       exists r, o = Val r /\ p_success r = true /\ p_error r = None /\
                 has_all (p_waf_cookies r) e = true).
Proof.
  unfold_replay. exec.
  all: intros Hreach Hfaults; cbn in Hreach, Hfaults; try discriminate.
  all: eexists; split; [reflexivity|].
  all: split; [done|]; split; [done|]; by apply missing_nil.
Qed.

(** *** Credential-Login *)

Lemma submit_login_outcome a b p waf :
  spec (submit_login a b p waf)
       (fun o t => quiet t /\ login_outcome waf o t).
Proof.
  unfold submit_login, wait_for_console. exec_all.
  all: split; [solve_quiet|].
  all: unfold login_outcome; try solve [find_raise].
  all: split; [reflexivity|].
  all: try (left; split; reflexivity).
  all: right; eexists; split; [reflexivity|]; split; [reflexivity|].
  all: right; right; eexists; reflexivity.
Qed.

Lemma fill_login_form_outcome a b u pw p waf :
  spec (fill_login_form a b u pw p waf)
       (fun o t => quiet t /\ login_outcome waf o t).
Proof.
  unfold fill_login_form. exec_all.
  all: try (eapply spec_mono; [apply submit_login_outcome|];
            intros o t' [Hq Ho]; split;
            [solve_quiet
            |destruct o; [exact Ho|]; unfold login_outcome in *;
             find_raise]).
  all: split; [solve_quiet|].
  all: split; [reflexivity|]; right; eexists; split; [reflexivity|];
    split; [reflexivity|]; pick_eq.
Qed.

Lemma fill_login_form_trace a b u pw p waf :
  spec (fill_login_form a b u pw p waf)
       (form_trace (fun o msg => o = Val (login_failed waf msg)) u pw).
Proof.
  unfold fill_login_form. exec_all.
  - eapply spec_mono; [apply submit_login_outcome|]. intros o t' _.
    eexists p, _, _, true. split; [reflexivity|]. split; [eassumption|].
    eexists _, _, true. split; [reflexivity|]. split; [eassumption|]. done.
  - eexists p, _, _, true. split; [reflexivity|]. split; [eassumption|].
    eexists _, [], false. split; [reflexivity|]. split; [eassumption|]. done.
  - eexists p, _, [], false. split; [reflexivity|]. split; [eassumption|].
    done.
Qed.

Ltac unfold_login :=
  unfold real_login_steps, new_page, _wait_for_page_load, _get_waf_cookies.

Lemma real_login_steps_form a b c d u pw req ctx dir :
  spec (real_login_steps a b c d u pw req ctx dir)
    (fun o t =>
       existsb is_query t = true ->
       form_trace (fun o msg => exists waf, o = Val (login_failed waf msg))
         u pw o (from_first_query t)).
Proof.
  unfold_login. exec_all.
  all: try (eapply spec_mono; [apply fill_login_form_trace|];
            intros o t (p & tU & rest & hitU & -> & HU & Hrest) _;
            cbn [from_first_query query];
            erewrite from_first_query_tries by exact HU;
            exists p, tU, rest, hitU; split; [done|]; split; [done|];
            destruct hitU;
            [destruct Hrest as (tP & rest' & hitP & ? & ? & Hf);
             exists tP, rest', hitP; split; [done|]; split; [done|];
             intros Hp; destruct (Hf Hp); eauto
            |destruct Hrest; eauto]).
  all: intros Hq; cbn in Hq; discriminate Hq.
Qed.

Lemma harvest_keys (required : list pystr) (jar : list cookie) (k : pystr) :
  is_Some (foldl (keep_waf_cookie required) ∅ jar !! k) -> k ∈ required.
Proof.
  cut (forall acc : gmap pystr pystr,
         (forall k, is_Some (acc !! k) -> k ∈ required) ->
         is_Some (foldl (keep_waf_cookie required) acc jar !! k) ->
         k ∈ required).
  { intros Hc. apply Hc. intros k'. rewrite lookup_empty. by intros [? ?]. }
  induction jar as [|c jar IH]; intros acc Hacc; cbn [foldl]; [by apply Hacc|].
  apply IH. intros k'. unfold keep_waf_cookie.
  destruct (cookie_name c) as [n|]; [|by apply Hacc].
  destruct (cookie_value c) as [v|]; [|by apply Hacc].
  unfold list_has. case_bool_decide as Hn; [|by apply Hacc].
  rewrite lookup_insert. case_decide; [by subst|by apply Hacc].
Qed.

Lemma real_login_steps_outcome a b c d u pw req ctx dir :
  spec (real_login_steps a b c d u pw req ctx dir)
    (fun o t =>
       quiet t /\
       match o with
       | Val r =>
           exists jar,
             login_outcome (foldl (keep_waf_cookie req) ∅ jar) (Val r) t
       | Exn e => raised_in e t
       end).
Proof.
  unfold_login. exec_all.
  all: try (eapply spec_mono; [apply fill_login_form_outcome|];
            intros o t [Hq Ho]; split;
            [solve_quiet
            |destruct o; [eexists; exact Ho|];
             unfold login_outcome in Ho; find_raise]).
  all: split; [solve_quiet|find_raise].
Qed.

(** *** OAuth *)

Lemma oauth_steps_outcome a b c d provider p :
  spec (oauth_steps a b c d provider p)
       (fun o t => quiet t /\ oauth_outcome provider o t).
Proof.
  unfold oauth_steps, wait_for_oauth, _wait_for_page_load. exec_all.
  all: split; [solve_quiet|].
  all: unfold oauth_outcome; try solve [find_raise].
  all: split; [reflexivity|].
  all: try (left; split; reflexivity).
  all: right; eexists; split; [reflexivity|]; split; [reflexivity|]; pick_eq.
Qed.

(** *** HTTP-Only-Replay *)

(** The loop that seeds the cookie jar of the client. *)
Lemma set_cookies_spec (client : handle) (domain : pystr)
    (user_cookies : list (pystr * pystr)) :
  spec (for_each user_cookies
          (fun '(name, value) =>
             netloc ← lift (urlparse_netloc domain);
             perform (ClientCookiesSet client name value netloc)))
       (fun o t =>
          gets t = [] /\ quiet t /\
          match o with Val _ => True | Exn e => raised_in e t end).
Proof.
  induction user_cookies as [|[name value] l IH]; cbn [for_each].
  - apply spec_ret. repeat split. constructor.
  - exec.
    + eapply spec_mono; [apply IH|]. intros o t (Hg & Hq & Ho). cbn [app].
      rewrite gets_cons. cbn [http_get]. split; [done|]. split.
      * apply Forall_cons_2; [reflexivity|done].
      * destruct o; [done|]. by apply raised_in_cons.
    + repeat split; [solve_quiet|]. apply raised_in_here. reflexivity.
    + repeat split; [solve_quiet|]. apply raised_in_here. reflexivity.
Qed.

Lemma http_steps_outcome a b c d cookies u k client :
  spec (http_steps a b c d cookies u k client)
       (fun o t => quiet t /\ http_outcome o t).
Proof.
  unfold http_steps. apply spec_bind.
  eapply spec_mono; [apply set_cookies_spec|].
  intros [[]|e] t0 (_ & Hq & Ho); [|by split]. cbn [negb].
  exec.
  all: split; [solve_quiet|].
  all: unfold http_outcome; try solve [find_raise].
  all: split; [reflexivity|];
    first [left; split; reflexivity | right; split; reflexivity].
Qed.

Lemma http_steps_marker a b c d cookies u k client :
  spec (http_steps a b c d cookies u k client)
       (marker_claim d p_success p_error).
Proof.
  unfold http_steps. apply spec_bind.
  eapply spec_mono; [apply set_cookies_spec|].
  intros [[]|e] t0 (Hg & _ & _); cbn [negb].
  2:{ intros g rest Hgets. rewrite Hg in Hgets. discriminate. }
  exec.
  all: intros g rest Hgets; rewrite gets_app, Hg in Hgets;
       cbn [app] in Hgets; repeat rewrite gets_cons in Hgets;
       cbn [http_get gets omap list_omap] in Hgets;
       injection Hgets as <- <-.
  all: eexists; split; [reflexivity|];
       intros first [= <-] || intros first Hf; try discriminate.
  all: match goal with H : negb (on_login_page _) = _ |- _ =>
         apply (f_equal negb) in H; rewrite negb_involutive in H;
         cbn [negb] in H; rewrite H end.
  all: try (intros url2 second Hrest; inversion Hrest; fail).
  all: try (intros url2 second Hrest;
            eexists; split; [reflexivity|]; split; reflexivity).
  all: split; [reflexivity|]; eexists; split; [reflexivity|];
       split; reflexivity.
Qed.

End Blocks.

(** ** Whole runs *)

Ltac unfold_session :=
  unfold async_with_playwright, with_stealth_session,
    _create_stealth_context, release_session.

Ltac use_block L :=
  try (eapply spec_mono; [apply L|];
       let o := fresh "o" in let tb := fresh "tb" in let Hb := fresh "Hb" in
       intros o tb Hb; destruct o; cbn [negb]; exec).

Ltac norm_trace := rewrite <- ?app_assoc in *; cbn [app] in *.

Ltac simp_fields :=
  cbn [success error waf_cookies failed p_success p_error p_waf_cookies
       login_failed oauth_failed oauth_done http_done] in *.

Ltac simp_released H :=
  repeat rewrite ?released_cons, ?released_app in H;
  cbn [is_release is_context_close is_client_close is_playwright_stop
       is_fault implb negb orb andb] in H;
  rewrite ?andb_false_r, ?andb_true_r in H; try discriminate H.

Ltac simp_exists H :=
  repeat rewrite ?existsb_cons, ?existsb_app in H;
  cbn [is_evaluate is_query query session_acquired existsb orb] in H;
  rewrite ?orb_false_r in H; try discriminate H.

Ltac solve_fault :=
  eexists; split; [reflexivity|]; right;
  first
    [ eexists; split; [|split; [reflexivity|apply length_slice_to]];
      solve [find_raise]
    | eexists (Exception _);
      split; [|split; [reflexivity|apply length_slice_to]];
      solve [find_raise]
    | eexists; split; [solve [find_raise]|];
      split; [reflexivity|apply length_slice_to] ].

Section WholeRuns.
Context {W : Type} `{!World W} `{!PyRuntime} `{!Constants}.

Lemma quiet_no_close_fault t : quiet t -> existsb close_fault t = false.
Proof.
  induction 1 as [|ev t Hev _ IH]; [done|]. cbn [existsb]. rewrite IH.
  unfold close_fault. destruct ev as [X o r| | | | |]; try done.
  destruct o; try done; cbn in Hev; discriminate.
Qed.

(** *** Cookie-Replay *)

Lemma cookie_replay_outcome (w : W) cache account_name domain login_url
    required_cookies user_session api_user api_user_key log_fn :
  let run := get_waf_cookies_and_trigger_signin account_name domain
               login_url required_cookies user_session api_user
               api_user_key log_fn (fresh w cache) in
  run_outcome (fun _ => True)
    (fun waf => has_all waf required_cookies = true)
    run.1 (ops (trace run.2)).
Proof.
  intros run. subst run. apply spec_fresh.
  unfold get_waf_cookies_and_trigger_signin, cookie_replay_fault.
  unfold_session. exec.
  all: use_block replay_steps_outcome.
  all: norm_trace; split; [intros r Hr Hfail|intros r Hr; split; [done|intros Hok]];
       try discriminate Hr; injection Hr as <-; simp_fields;
       try discriminate.
  all: try (unfold replay_outcome in Hb; destruct Hb as [_ Hb]).
  all: try solve_fault.
  all: destruct Hb as [(Hs & He & Hall)|(missing & Hm & ->)];
       simp_fields; try congruence.
  all: try (split; assumption).
  all: eexists; split; [reflexivity|]; left; by constructor.
Qed.

Lemma cookie_replay_closed_once (w : W) cache account_name domain login_url
    required_cookies user_session api_user api_user_key log_fn :
  let run := get_waf_cookies_and_trigger_signin account_name domain
               login_url required_cookies user_session api_user
               api_user_key log_fn (fresh w cache) in
  closed_once (ops (trace run.2)).
Proof.
  intros run. subst run. apply (spec_fresh _ (fun _ t => closed_once t)).
  unfold get_waf_cookies_and_trigger_signin, cookie_replay_fault.
  unfold_session. exec.
  all: use_block replay_steps_outcome.
  all: norm_trace; intros Hacq.
  all: simp_exists Hacq.
  all: destruct Hb as [Hq _].
  all: repeat rewrite ?filter_cons, ?List.filter_app, ?existsb_cons,
         ?existsb_app;
       cbn [is_context_close is_rmtree is_fault close_fault andb orb];
       rewrite ?(quiet_no_close _ Hq), ?(quiet_no_rmtree _ Hq),
         ?(quiet_no_close_fault _ Hq).
  all: cbn [app length List.filter existsb orb].
  all: split; [reflexivity|]; split; [lia|]; done.
Qed.

Lemma cookie_replay_incomplete (w : W) cache account_name domain login_url
    required_cookies user_session api_user api_user_key log_fn jar :
  let run := get_waf_cookies_and_trigger_signin account_name domain
               login_url required_cookies user_session api_user
               api_user_key log_fn (fresh w cache) in
  incomplete_claim required_cookies jar run.1 (ops (trace run.2)).
Proof.
  intros run. subst run. apply spec_fresh.
  unfold get_waf_cookies_and_trigger_signin, cookie_replay_fault.
  unfold_session. exec.
  all: use_block replay_steps_incomplete.
  all: unfold incomplete_claim; intros Hjar Hmiss Hrel.
  all: norm_trace.
  all: repeat rewrite ?harvested_cons, ?harvested_app in Hjar;
       cbn [cookies_read] in Hjar; try discriminate Hjar.
  all: rewrite ?app_nil_r in Hjar.
  all: destruct (Hb _ Hjar Hmiss) as (Ho & t1 & ev & -> & Ht1 & Hev);
       try discriminate Ho.
  all: injection Ho as ->.
  all: simp_released Hrel.
  all: eexists; split; [reflexivity|]; split; [done|]; split; [done|].
  all: cbn [after_harvest cookies_read]; rewrite <- ?app_assoc; cbn [app].
  all: rewrite after_harvest_app by eauto; reflexivity.
Qed.

Lemma cookie_replay_fetch (w : W) cache account_name domain login_url
    required_cookies user_session api_user api_user_key log_fn :
  let run := get_waf_cookies_and_trigger_signin account_name domain
               login_url required_cookies user_session api_user
               api_user_key log_fn (fresh w cache) in
  fetch_claim required_cookies run.1 (ops (trace run.2)).
Proof.
  intros run. subst run. apply spec_fresh.
  unfold get_waf_cookies_and_trigger_signin, cookie_replay_fault.
  unfold_session. exec.
  all: use_block replay_steps_fetch.
  all: unfold fetch_claim; intros Hreach Hfaults; norm_trace.
  all: repeat rewrite ?forallb_cons, ?forallb_app in Hfaults;
       cbn [is_fault passed_over implb forallb] in Hfaults;
       rewrite ?andb_false_r, ?andb_true_r in Hfaults;
       try discriminate Hfaults.
  all: simp_exists Hreach.
  all: destruct (Hb Hreach Hfaults) as (r & Hr & Hs & He & Hall);
       try discriminate Hr; injection Hr as <-.
  all: eexists; split; [reflexivity|]; done.
Qed.

(** *** Credential-Login *)

Lemma real_login_outcome (w : W) cache account_name domain login_url
    username password required_cookies log_fn :
  let run := perform_real_login_signin account_name domain login_url
               username password required_cookies log_fn (fresh w cache) in
  run_outcome
    (fun waf => forall k, is_Some (waf !! k) -> k ∈ required_cookies)
    (fun _ => True)
    run.1 (ops (trace run.2)).
Proof.
  intros run. subst run. apply spec_fresh.
  unfold perform_real_login_signin, real_login_fault.
  unfold_session. exec.
  all: use_block real_login_steps_outcome.
  all: norm_trace;
       split; [intros r Hr Hfail|intros r Hr; split; [|intros Hok]];
       try discriminate Hr; injection Hr as <-; simp_fields;
       try discriminate.
  all: try (intros k; rewrite lookup_empty; by intros [? ?]).
  all: try destruct Hb as [_ Hb].
  all: try solve_fault.
  all: destruct Hb as (jar & Hwaf & Hb); simp_fields.
  all: try (intros k; rewrite Hwaf; apply harvest_keys).
  all: destruct Hb as [[Hs He]|(msg & Hs & He & Hmsg)];
       try congruence; try done.
  all: exists msg; split; [exact He|]; left.
  all: destruct Hmsg as [->|[->|[shown ->]]];
       [apply username_field_not_found|apply password_field_not_found
       |apply login_rejected].
Qed.

Lemma real_login_closed_once (w : W) cache account_name domain login_url
    username password required_cookies log_fn :
  let run := perform_real_login_signin account_name domain login_url
               username password required_cookies log_fn (fresh w cache) in
  closed_once (ops (trace run.2)).
Proof.
  intros run. subst run. apply (spec_fresh _ (fun _ t => closed_once t)).
  unfold perform_real_login_signin, real_login_fault.
  unfold_session. exec.
  all: use_block real_login_steps_outcome.
  all: norm_trace; intros Hacq.
  all: simp_exists Hacq.
  all: destruct Hb as [Hq _].
  all: repeat rewrite ?filter_cons, ?List.filter_app, ?existsb_cons,
         ?existsb_app;
       cbn [is_context_close is_rmtree is_fault close_fault andb orb];
       rewrite ?(quiet_no_close _ Hq), ?(quiet_no_rmtree _ Hq),
         ?(quiet_no_close_fault _ Hq).
  all: cbn [app length List.filter existsb orb].
  all: split; [reflexivity|]; split; [lia|]; done.
Qed.

Lemma real_login_form (w : W) cache account_name domain login_url
    username password required_cookies log_fn :
  let run := perform_real_login_signin account_name domain login_url
               username password required_cookies log_fn (fresh w cache) in
  let t := ops (trace run.2) in
  existsb is_query t = true ->
  form_trace (fun o msg => login_fails o t msg) username password run.1
    (from_first_query t).
Proof.
  intros run t. subst run t.
  apply (spec_fresh _ (fun o t =>
    existsb is_query t = true ->
    form_trace (fun o msg => login_fails o t msg) username password o
      (from_first_query t))).
  unfold perform_real_login_signin, real_login_fault.
  unfold_session. exec.
  all: use_block real_login_steps_form.
  all: intros Hq; norm_trace.
  all: simp_exists Hq.
  all: cbn [from_first_query query]; rewrite from_first_query_app by exact Hq.
  all: destruct (Hb Hq) as (p & tU & rest & hitU & -> & HU & Hrest).
  all: rewrite <- app_assoc; eexists p, tU, _, hitU; split; [reflexivity|];
       split; [exact HU|].
  all: destruct hitU;
       [destruct Hrest as (tP & rest' & hitP & -> & HP & Hf);
        rewrite <- app_assoc; eexists tP, _, hitP; split; [reflexivity|];
        split; [exact HP|]; intros HhitP;
        destruct (Hf HhitP) as [Hqr [waf Ho]]
       |destruct Hrest as [Hqr [waf Ho]]].
  all: (split; [rewrite queried_app, Hqr; reflexivity|]).
  all: try discriminate Ho.
  all: intros Hrel.
  all: simp_released Hrel.
  all: injection Ho as ->; eexists; split; [reflexivity|]; split; reflexivity.
Qed.

(** *** OAuth through an existing browser *)

Lemma oauth_outcome_run (w : W) cache account_name domain login_url
    oauth_provider log_fn :
  let run := perform_oauth_signin_with_chrome account_name domain login_url
               oauth_provider log_fn (fresh w cache) in
  run_outcome (fun waf => waf = ∅) (fun _ => True)
    run.1 (ops (trace run.2)).
Proof.
  intros run. subst run. apply spec_fresh.
  unfold perform_oauth_signin_with_chrome, _check_chrome_debug_port,
    async_with_playwright, acquire_oauth_context, release_oauth, new_page,
    oauth_fault.
  exec.
  all: use_block oauth_steps_outcome.
  all: norm_trace;
       split; [intros r Hr Hfail|intros r Hr; split; [|intros Hok]];
       try discriminate Hr; injection Hr as <-; simp_fields;
       try discriminate; try reflexivity.
  all: try (unfold oauth_outcome in Hb; destruct Hb as [_ Hb]).
  all: try solve_fault.
  all: destruct Hb as (Hwaf & Hb); try exact Hwaf.
  all: destruct Hb as [[Hs He]|(msg & Hs & He & Hmsg)];
       try congruence; try done.
  all: exists msg; split; [exact He|]; left.
  all: destruct Hmsg as [->| ->];
       [apply oauth_button_not_found|apply oauth_timed_out].
Qed.

(** *** HTTP-Only-Replay *)

Lemma http_outcome_run (w : W) cache account_name domain login_url
    user_cookies api_user api_user_key log_fn :
  let run := trigger_signin_via_http account_name domain login_url
               user_cookies api_user api_user_key log_fn (fresh w cache) in
  run_outcome (fun waf => waf = ∅) (fun _ => True)
    run.1 (ops (trace run.2)).
Proof.
  intros run. subst run. apply spec_fresh.
  unfold trigger_signin_via_http, http_fault.
  exec.
  all: use_block http_steps_outcome.
  all: norm_trace;
       split; [intros r Hr Hfail|intros r Hr; split; [|intros Hok]];
       try discriminate Hr; injection Hr as <-; simp_fields;
       try discriminate; try reflexivity.
  all: try (unfold http_outcome in Hb; destruct Hb as [_ Hb]).
  all: try solve_fault.
  all: try (eexists; split; [reflexivity|]; left; apply http_status_error).
  all: destruct Hb as (Hwaf & Hb); try exact Hwaf.
  all: destruct Hb as [[Hs He]|[Hs He]]; try congruence; try done.
  all: eexists; split; [exact He|]; left; apply session_expired.
Qed.

Lemma http_marker_run (w : W) cache account_name domain login_url
    user_cookies api_user api_user_key log_fn :
  let run := trigger_signin_via_http account_name domain login_url
               user_cookies api_user api_user_key log_fn (fresh w cache) in
  let t := ops (trace run.2) in
  released t = true ->
  marker_claim login_url success error run.1 t.
Proof.
  intros run t. subst run t.
  apply (spec_fresh _ (fun o t =>
    released t = true -> marker_claim login_url success error o t)).
  unfold trigger_signin_via_http, http_fault.
  exec.
  all: use_block http_steps_marker.
  all: intros Hrel g rest Hgets; norm_trace.
  all: simp_released Hrel.
  all: repeat rewrite ?gets_cons, ?gets_app in Hgets;
       cbn [http_get gets omap list_omap] in Hgets;
       rewrite ?app_nil_r in Hgets; try discriminate Hgets.
  all: destruct (Hb _ _ Hgets) as (answer & -> & Hans).
  all: eexists; split; [reflexivity|].
  all: intros first ->; specialize (Hans first eq_refl).
  all: destruct (on_login_page (response_url first)) eqn:Hpage.
  all: try (destruct Hans as (-> & r & Hr & Hs & He); split; [reflexivity|];
            first [discriminate Hr
                  |injection Hr as <-;
                   eexists; split; [reflexivity|]; split; assumption]).
  all: intros url2 second ->;
       destruct (Hans _ _ eq_refl) as (r & Hr & Hs & He);
       first [discriminate Hr
             |injection Hr as <-;
              eexists; split; [reflexivity|]; split; assumption].
Qed.

End WholeRuns.

(** ** The WAF cookie cache *)

Section Cache.
Context {W : Type} `{!World W} `{!PyRuntime} `{!Constants}.

#[local] Abbreviation keeps_cache := (keeps_cache (W := W)).
#[local] Abbreviation spec_cache := (spec_cache (W := W)).

Lemma keeps_ret {A} (a : A) : keeps_cache (mret a : M W A).
Proof. done. Qed.

Lemma keeps_raise {A} e : keeps_cache (raise e : M W A).
Proof. done. Qed.

Lemma keeps_emit ev : keeps_cache (emit ev).
Proof. done. Qed.

Lemma keeps_perform {X} (o : op X) : keeps_cache (perform o).
Proof.
  intros s. unfold perform. by destruct (respond o (world s)) as [[r reqs] w'].
Qed.

Lemma keeps_bind {A B} (m : M W A) (k : A -> M W B) :
  keeps_cache m -> (forall a, keeps_cache (k a)) -> keeps_cache (m ≫= k).
Proof.
  intros Hm Hk s. unfold mbind, M_bind. specialize (Hm s).
  destruct (m s) as [[a|e] s1]; cbn in *; [|done]. by rewrite Hk.
Qed.

Lemma keeps_try_except {A} (m : M W A) (h : exn -> M W A) :
  keeps_cache m -> (forall e, keeps_cache (h e)) ->
  keeps_cache (try_except m h).
Proof.
  intros Hm Hh s. unfold try_except. specialize (Hm s).
  destruct (m s) as [[a|e] s1]; cbn in *; [done|]. by rewrite Hh.
Qed.

Lemma keeps_try_finally {A} (m : M W A) (fin : M W unit) :
  keeps_cache m -> keeps_cache fin -> keeps_cache (try_finally m fin).
Proof.
  intros Hm Hf s. unfold try_finally. specialize (Hm s).
  destruct (m s) as [r s1]. specialize (Hf s1).
  destruct (fin s1) as [[[]|e] s2]; cbn in *; congruence.
Qed.

Lemma keeps_attempt {A} (m : M W A) : keeps_cache m -> keeps_cache (attempt m).
Proof.
  intros Hm s. unfold attempt. specialize (Hm s). by destruct (m s).
Qed.

Lemma keeps_extraction domain login_url required_cookies log_fn :
  keeps_cache
    (_get_waf_cookies_from_browser domain login_url required_cookies log_fn).
Proof.
  unfold _get_waf_cookies_from_browser, async_with_playwright,
    with_stealth_session, _create_stealth_context, release_session,
    new_page, _wait_for_page_load, _get_waf_cookies, when.
  repeat first
    [ apply keeps_bind; [|intros ?]
    | apply keeps_try_finally
    | apply keeps_try_except; [|intros ?]
    | apply keeps_attempt
    | apply keeps_perform
    | apply keeps_ret
    | apply keeps_raise
    | match goal with
      | |- keeps_cache (match ?x with _ => _ end) => destruct x
      end ].
Qed.

Lemma extraction_spec domain login_url required_cookies log_fn :
  spec (_get_waf_cookies_from_browser domain login_url required_cookies log_fn)
       (extraction_outcome required_cookies).
Proof.
  unfold _get_waf_cookies_from_browser, new_page, _wait_for_page_load,
    _get_waf_cookies.
  unfold_session. exec.
  all: unfold extraction_outcome; try (by left); try (by right).
  all: eexists; split; [reflexivity|]; split; reflexivity.
Qed.

Lemma sc_ret {A} (a : A) Φ :
  (forall c, Φ c (Val a) c []) -> spec_cache (mret a) Φ.
Proof. intros HΦ s. exists []. cbn. by rewrite app_nil_r. Qed.

Lemma sc_bind {A B} (m : M W A) (k : A -> M W B) Φ :
  spec_cache m (fun c o c1 t1 =>
    match o with
    | Val a => spec_cache (k a) (fun c1' o' c2 t2 =>
                 c1' = c1 -> Φ c o' c2 (t1 ++ t2))
    | Exn e => Φ c (Exn e) c1 t1
    end) ->
  spec_cache (m ≫= k) Φ.
Proof.
  intros Hm s. destruct (Hm s) as (t1 & Ht1 & H1).
  unfold mbind, M_bind. destruct (m s) as [[a|e] s1]; cbn in *.
  - destruct (H1 s1) as (t2 & Ht2 & H2). exists (t1 ++ t2).
    rewrite Ht2, Ht1, app_assoc, ops_app. auto.
  - exists t1. auto.
Qed.

Lemma sc_try_finally {A} (body : M W A) (fin : M W unit) Φ :
  spec_cache body (fun c r c1 t1 =>
    spec_cache fin (fun c1' o c2 t2 =>
      c1' = c1 ->
      match o with
      | Val _ => Φ c r c2 (t1 ++ t2)
      | Exn e => Φ c (Exn e) c2 (t1 ++ t2)
      end)) ->
  spec_cache (try_finally body fin) Φ.
Proof.
  intros Hm s. destruct (Hm s) as (t1 & Ht1 & H1).
  unfold try_finally. destruct (body s) as [r s1]; cbn in *.
  destruct (H1 s1) as (t2 & Ht2 & H2).
  destruct (fin s1) as [[[]|e] s2]; cbn in *; exists (t1 ++ t2);
    rewrite Ht2, Ht1, app_assoc, ops_app; auto.
Qed.

Lemma sc_emit ev Φ :
  (forall c, Φ c (Val tt) c (ops [ev])) -> spec_cache (emit ev) Φ.
Proof. intros HΦ s. exists [ev]. split; [done|]. apply HΦ. Qed.

Lemma sc_log_if b msg Φ :
  (forall c, Φ c (Val tt) c []) -> spec_cache (log_if b msg) Φ.
Proof.
  intros HΦ. unfold log_if, when. destruct b; [|by apply sc_ret].
  apply sc_emit. done.
Qed.

Lemma sc_get_cache Φ :
  (forall c, Φ c (Val c) c []) -> spec_cache get_cache Φ.
Proof. intros HΦ s. exists []. cbn. rewrite app_nil_r. auto. Qed.

Lemma sc_set_cache c' Φ :
  (forall c, Φ c (Val tt) c' []) -> spec_cache (set_cache c') Φ.
Proof. intros HΦ s. exists []. cbn. rewrite app_nil_r. auto. Qed.

Lemma sc_frame {A} (m : M W A) Ψ Φ :
  spec m Ψ -> keeps_cache m -> (forall c o t, Ψ o t -> Φ c o c t) ->
  spec_cache m Φ.
Proof.
  intros Hm Hk HΦ s. destruct (Hm s) as (t & Ht & H1). exists t.
  rewrite Hk. auto.
Qed.

Ltac sc_step :=
  lazymatch goal with
  | |- spec_cache (mbind _ _) _ => apply sc_bind
  | |- spec_cache (try_finally _ _) _ => apply sc_try_finally
  | |- spec_cache (emit _) _ => apply sc_emit; intros ?
  | |- spec_cache (log_if _ _) _ => apply sc_log_if; intros ?
  | |- spec_cache get_cache _ => apply sc_get_cache; intros ?
  | |- spec_cache (set_cache _) _ => apply sc_set_cache; intros ?
  | |- spec_cache (mret _) _ => apply sc_ret; intros ?
  | |- _ = _ -> _ => intros ->
  end;
  cbn beta iota.

Lemma get_cached_spec domain login_url required_cookies log_fn :
  spec_cache (get_cached_waf_cookies domain login_url required_cookies log_fn)
             (cached_claim domain required_cookies).
Proof.
  unfold get_cached_waf_cookies, async_with_cache_lock.
  repeat sc_step. unfold cached_claim.
  destruct (cache_hit _ domain required_cookies) as [cached|] eqn:Hhit.
  - repeat sc_step. by rewrite Hhit.
  - repeat sc_step.
    eapply sc_frame; [apply extraction_spec|apply keeps_extraction|].
    intros c2 [waf|e] te Hext; cbn beta iota.
    + destruct (storable waf required_cookies) eqn:Hst; repeat sc_step;
        rewrite Hhit; exists (Val waf), te; rewrite Hst;
        cbn [app ops List.filter is_log negb]; rewrite ?app_nil_r; done.
    + repeat sc_step. rewrite Hhit. exists (Exn e), te.
      cbn [app ops List.filter is_log negb]. rewrite ?app_nil_r. done.
Qed.

Lemma get_cached_fresh (w : W) cache domain login_url required_cookies
    log_fn :
  let run := get_cached_waf_cookies domain login_url required_cookies
               log_fn (fresh w cache) in
  cached_claim domain required_cookies cache run.1
    (waf_cookie_cache run.2) (ops (trace run.2)).
Proof.
  intros run. subst run.
  destruct (get_cached_spec domain login_url required_cookies log_fn
              (fresh w cache)) as (t & -> & Hc).
  exact Hc.
Qed.

End Cache.

(** ** Concurrent callers of the cache *)

Section Concurrency.
Variable domain : pystr.
Variable required_cookies : list pystr.
Variable browser : nat -> outcome (gmap pystr pystr).

#[local] Abbreviation step := (step domain required_cookies browser).
#[local] Abbreviation interleave := (interleave domain required_cookies browser).
#[local] Abbreviation launched_once := (launched_once domain required_cookies).

Lemma cache_hit_insert cache waf :
  storable waf required_cookies = true ->
  cache_hit (<[domain := waf]> cache) domain required_cookies = Some waf.
Proof.
  intros Hst. unfold cache_hit. rewrite lookup_insert_eq.
  unfold storable in Hst. apply andb_true_iff in Hst as [_ ->]. done.
Qed.

Lemma lookup_insert_extracting (l : list caller) i j c n :
  (forall m, c <> Extracting m) ->
  <[i := c]> l !! j = Some (Extracting n) ->
  j <> i /\ l !! j = Some (Extracting n).
Proof.
  intros Hc Hj. destruct (decide (i = j)) as [->|Hne].
  - destruct (decide (j < length l)%nat) as [Hlt|Hge].
    + rewrite list_lookup_insert_eq in Hj by done.
      injection Hj as ->. by destruct (Hc n).
    + rewrite list_insert_ge in Hj by lia.
      apply lookup_lt_Some in Hj. lia.
  - rewrite list_lookup_insert_ne in Hj by done. split; [congruence|done].
Qed.

Lemma step_exclusive i σ σ' :
  exclusive σ -> step i σ = Some σ' -> exclusive σ'.
Proof.
  intros [Hlock Huniq] Hstep. unfold Browser.step in Hstep.
  destruct (sys_callers σ !! i) as [[|n| |]|] eqn:Hi; try discriminate.
  - destruct (sys_locked σ) eqn:Hl; [discriminate|].
    assert (Hnone : forall j m, sys_callers σ !! j <> Some (Extracting m)).
    { intros j m Hj. apply Hlock in Hj. congruence. }
    destruct (cache_hit _ _ _); injection Hstep as <-; split; cbn.
    + intros j m Hj. apply lookup_insert_extracting in Hj as [_ Hj]; [|done].
      by destruct (Hnone j m).
    + intros j k m m' Hj. apply lookup_insert_extracting in Hj as [_ Hj];
        [|done]. by destruct (Hnone j m).
    + done.
    + intros j k m m' Hj Hk.
      destruct (decide (j = i)) as [->|Hji], (decide (k = i)) as [->|Hki];
        try done.
      * rewrite list_lookup_insert_ne in Hk by done. by destruct (Hnone k m').
      * rewrite list_lookup_insert_ne in Hj by done. by destruct (Hnone j m).
      * rewrite list_lookup_insert_ne in Hj by done. by destruct (Hnone j m).
  - assert (Hnone : forall c, (forall m, c <> Extracting m) ->
              forall j m, <[i := c]> (sys_callers σ) !! j
                          <> Some (Extracting m)).
    { intros c Hc j m Hj. apply lookup_insert_extracting in Hj as [Hne Hj];
        [|done]. apply Hne. eapply Huniq; eassumption. }
    destruct (browser n) as [waf|e];
      [destruct (storable waf required_cookies)|];
      injection Hstep as <-; split; cbn;
      intros j; intros; exfalso; eapply Hnone; try eassumption; done.
Qed.

Lemma step_launched_once i σ σ' :
  (forall waf, browser 0 = Val waf ->
               storable waf required_cookies = true) ->
  (exists waf, browser 0 = Val waf) ->
  exclusive σ -> launched_once σ -> step i σ = Some σ' -> launched_once σ'.
Proof.
  intros Hstore [waf0 Hwaf0] [Hlock Huniq] (Hzero & Hheld & Hcount) Hstep.
  unfold Browser.step in Hstep.
  destruct (sys_callers σ !! i) as [[|n| |]|] eqn:Hi; try discriminate.
  - destruct (sys_locked σ) eqn:Hl; [discriminate|].
    assert (Hnone : forall j m, sys_callers σ !! j <> Some (Extracting m)).
    { intros j m Hj. apply Hlock in Hj. congruence. }
    destruct (cache_hit _ _ _) as [cached|] eqn:Hhit; injection Hstep as <-;
      (split; [|split]); cbn.
    + intros j m Hj. apply lookup_insert_extracting in Hj as [_ Hj]; [|done].
      by destruct (Hnone j m).
    + done.
    + rewrite Hhit. destruct Hcount as [?|[? [?|?]]]; [by left|done|].
      right. split; [done|]. right. done.
    + intros j m Hj. destruct (decide (j = i)) as [->|Hji].
      * apply lookup_lt_Some in Hi as Hlt.
        rewrite list_lookup_insert_eq in Hj by done. injection Hj as <-.
        destruct Hcount as [?|[_ [?|[? ?]]]]; [done|done|done].
      * rewrite list_lookup_insert_ne in Hj by done. by destruct (Hnone j m).
    + intros _. destruct Hcount as [->|[_ [?|[? ?]]]]; done.
    + right. destruct Hcount as [->|[_ [?|[? ?]]]]; try done. split; [done|].
      by left.
  - pose proof (Hzero _ _ Hi) as ->. pose proof (Hlock _ _ Hi) as Hl.
    pose proof (Hheld Hl) as Hone.
    assert (Hnone : forall c, (forall m, c <> Extracting m) ->
              forall j m, <[i := c]> (sys_callers σ) !! j
                          <> Some (Extracting m)).
    { intros c Hc j m Hj. apply lookup_insert_extracting in Hj as [Hne Hj];
        [|done]. apply Hne. eapply Huniq; eassumption. }
    rewrite Hwaf0, (Hstore _ Hwaf0) in Hstep. injection Hstep as <-.
    split; [|split]; cbn.
    + intros j m Hj. exfalso. eapply Hnone; [|eassumption]. done.
    + done.
    + right. split; [done|]. right.
      rewrite cache_hit_insert by (by apply Hstore). done.
Qed.

Lemma interleave_invariant (I : system -> Prop) schedule σ :
  (forall i σ σ', I σ -> step i σ = Some σ' -> I σ') ->
  I σ -> I (interleave schedule σ).
Proof.
  intros Hstep. revert σ.
  induction schedule as [|i schedule IH]; intros σ Hσ; [done|].
  cbn [Browser.interleave foldl]. apply IH.
  destruct (step i σ) as [σ'|] eqn:Hi; cbn; [by eapply Hstep|done].
Qed.

Lemma started_exclusive n cache : exclusive (started n cache).
Proof.
  split; intros i; intros; cbn in *;
    match goal with
    | H : replicate _ _ !! _ = Some _ |- _ =>
        apply lookup_replicate in H as [? _]; discriminate
    end.
Qed.

Lemma started_launched_once n cache : launched_once (started n cache).
Proof.
  split; [|split]; cbn; [|done|by left].
  intros i m Hi. apply lookup_replicate in Hi as [? _]. discriminate.
Qed.

End Concurrency.

(** One caller alone: the two steps of the model end as the call
    does. *)
Lemma single_caller_agrees domain required_cookies cache out cache' t :
  cached_claim domain required_cookies cache out cache' t ->
  exists r,
    let σ := interleave domain required_cookies (fun _ => r) [0; 0]%nat
               (started 1 cache) in
    sys_cache σ = cache' /\ sys_callers σ = [ended out] /\
    sys_locked σ = false.
Proof.
  unfold cached_claim, interleave, step. cbn [foldl started].
  destruct (cache_hit cache domain required_cookies) as [cached|] eqn:Hhit.
  - intros (-> & -> & _). exists (Val ∅). cbn. rewrite Hhit. cbn. done.
  - intros (r & te & _ & _ & Hr). exists r. cbn. rewrite Hhit. cbn.
    destruct r as [waf|e]; [destruct (storable waf required_cookies)|];
      destruct Hr as [-> ->]; done.
Qed.

(** ** The properties of the specification *)

Section Properties.
Context {W : Type} `{!World W} `{!PyRuntime} `{!Constants}.

Lemma invoke_outcome (w : W) cache (i : invocation) :
  let run := invoke i (fresh w cache) in
  fault_bounded run.1 (ops (trace run.2)) /\
  forall r, run.1 = Val r -> cookies_claim i r.
Proof.
  destruct i; cbn [invoke cookies_claim].
  - destruct (cookie_replay_outcome w cache account_name domain login_url
                required_cookies user_session api_user api_user_key log_fn)
      as [Hf Hr].
    split; [exact Hf|]. intros r Hrun Hs. by apply (Hr r Hrun).
  - destruct (real_login_outcome w cache account_name domain login_url
                username password required_cookies log_fn) as [Hf Hr].
    split; [exact Hf|]. intros r Hrun. by apply (Hr r Hrun).
  - destruct (oauth_outcome_run w cache account_name domain login_url
                oauth_provider log_fn) as [Hf Hr].
    split; [exact Hf|]. intros r Hrun. by apply (Hr r Hrun).
  - destruct (http_outcome_run w cache account_name domain login_url
                user_cookies api_user api_user_key log_fn) as [Hf Hr].
    split; [exact Hf|]. intros r Hrun. by apply (Hr r Hrun).
Qed.

Lemma storable_complete (waf : gmap pystr pystr) required_cookies :
  storable waf required_cookies = true ->
  waf <> ∅ /\ has_all waf required_cookies = true.
Proof.
  unfold storable. intros [Hne Hall]%andb_true_iff. split; [|done].
  apply negb_true_iff, bool_decide_eq_false in Hne. done.
Qed.

Lemma not_storable (waf : gmap pystr pystr) required_cookies :
  waf = ∅ \/ (exists c, c ∈ required_cookies /\ waf !! c = None) ->
  storable waf required_cookies = false.
Proof.
  unfold storable. intros [->|(c & Hc & Hnone)].
  - by rewrite bool_decide_eq_true_2.
  - apply andb_false_iff. right. apply not_true_is_false. intros Hall.
    unfold has_all in Hall. rewrite forallb_forall in Hall.
    apply list_elem_of_In in Hc. specialize (Hall c Hc).
    unfold dict_has in Hall. apply bool_decide_eq_true in Hall.
    rewrite Hnone in Hall. by destruct Hall.
Qed.

Lemma cache_hit_complete cache domain required_cookies cached :
  cache_hit cache domain required_cookies = Some cached ->
  has_all cached required_cookies = true.
Proof.
  unfold cache_hit. destruct (cache !! domain) as [m|]; [|done].
  destruct (has_all m required_cookies) eqn:Hall; [|done]. congruence.
Qed.

(** C1, amended.  The cookies of a result depend on the strategy: a
    success of Cookie-Replay carries every required cookie; a result of
    Credential-Login carries only required cookies, but not necessarily
    all of them, also when it is a success; the results of the OAuth
    strategy and of HTTP-Only-Replay carry no cookie at all.  The cache
    is written at most once by a call of [get_cached_waf_cookies], with
    a mapping that is not empty and has every required cookie, and a
    mapping that the call returns has every required cookie. *)
Theorem required_cookies_in_results_and_cache :
  (forall (w : W) cache (i : invocation) r,
     (invoke i (fresh w cache)).1 = Val r -> cookies_claim i r) /\
  (forall (w : W) cache domain login_url required_cookies log_fn,
     let run := get_cached_waf_cookies domain login_url required_cookies
                  log_fn (fresh w cache) in
     (forall m, run.1 = Val (Some m) -> has_all m required_cookies = true) /\
     (waf_cookie_cache run.2 = cache \/
      exists waf, waf_cookie_cache run.2 = <[domain := waf]> cache /\
                  waf <> ∅ /\ has_all waf required_cookies = true)).
Proof.
  split.
  - intros w cache i r. apply invoke_outcome.
  - intros w cache domain login_url required_cookies log_fn run.
    pose proof (get_cached_fresh w cache domain login_url required_cookies
                  log_fn) as Hc.
    cbv zeta in Hc. unfold cached_claim in Hc. subst run.
    destruct (cache_hit cache domain required_cookies) as [cached|] eqn:Hhit.
    + destruct Hc as (-> & -> & _). split; [|by left].
      intros m [= <-]. by eapply cache_hit_complete.
    + destruct Hc as (r & te & _ & _ & Hr).
      destruct r as [waf|e];
        [destruct (storable waf required_cookies) eqn:Hst|];
        destruct Hr as [-> ->].
      * apply storable_complete in Hst as [Hne Hall]. split.
        -- by intros m [= <-].
        -- right. by exists waf.
      * split; [done|by left].
      * split; [done|by left].
Qed.

(** C3.  A call of [get_cached_waf_cookies] whose browser extraction
    read the cookie jar [jar] and released its session: if the cookies
    kept from the jar are empty or lack a required name, the call
    returns [None] and the cache is what it was. *)
Theorem cache_miss_incomplete_returns_none (w : W) cache domain login_url
    required_cookies log_fn jar :
  let run := get_cached_waf_cookies domain login_url required_cookies
               log_fn (fresh w cache) in
  let t := ops (trace run.2) in
  let waf := foldl (keep_waf_cookie required_cookies) ∅ jar in
  harvested t = [jar] ->
  waf = ∅ \/ (exists c, c ∈ required_cookies /\ waf !! c = None) ->
  released t = true ->
  run.1 = Val None /\ waf_cookie_cache run.2 = cache.
Proof.
  intros run t waf Hjar Hwaf Hrel. apply not_storable in Hwaf.
  pose proof (get_cached_fresh w cache domain login_url required_cookies
                log_fn) as Hc.
  cbv zeta in Hc. unfold cached_claim in Hc. subst t run.
  destruct (cache_hit cache domain required_cookies) as [cached|].
  { destruct Hc as (_ & _ & Ht). rewrite Ht in Hjar. discriminate Hjar. }
  destruct Hc as (r & te & Ht & Hext & Hr).
  rewrite Ht in Hjar, Hrel.
  rewrite harvested_cons, harvested_app in Hjar. cbn in Hjar.
  rewrite app_nil_r in Hjar.
  rewrite released_cons, released_app in Hrel. cbn in Hrel.
  rewrite andb_true_r in Hrel.
  destruct r as [waf'|e]; cbn in Hext.
  - destruct Hext as (jar' & Hjar' & -> & _).
    assert (jar' = jar) as -> by congruence.
    fold waf in Hr. rewrite Hwaf in Hr. done.
  - destruct Hext as [Hnone|Hfalse]; congruence.
Qed.




(** C8.  A run of Cookie-Replay that reached the in-page call to
    [/api/user/self] and in which nothing raised but, possibly, that
    call, the wait for [document.readyState] or the removal of the
    profile directory: the function returns a success, without an error
    and with every required cookie. *)
Theorem cookie_replay_fetch_not_fatal (w : W) cache account_name domain
    login_url required_cookies user_session api_user api_user_key log_fn :
  let run := get_waf_cookies_and_trigger_signin account_name domain
               login_url required_cookies user_session api_user
               api_user_key log_fn (fresh w cache) in
  let t := ops (trace run.2) in
  existsb is_evaluate t = true ->
  forallb (fun ev => implb (is_fault ev) (passed_over ev)) t = true ->
  exists r, run.1 = Val r /\ success r = true /\ error r = None /\
    has_all (waf_cookies r) required_cookies = true.
Proof. apply cookie_replay_fetch. Qed.


End Properties.

(** The strategies that own a stealth context close it exactly once. *)
Lemma session_closed_once `{!World W} `{!PyRuntime} `{!Constants}
    (w : W) cache (i : invocation) :
  match i with
  | CookieReplay _ _ _ _ _ _ _ _ | CredentialLogin _ _ _ _ _ _ _ =>
      closed_once (ops (trace (invoke i (fresh w cache)).2))
  | _ => True
  end.
Proof.
  destruct i; [apply cookie_replay_closed_once
              |apply real_login_closed_once|done|done].
Qed.


(** ** Runs on scripted worlds *)

Section Samples.
Import Scenarios.

(** C1, counterexample.  Credential-Login is asked for the cookies
    [waf_a] and [waf_b] on a site that sets only [waf_a]: it returns a
    success whose cookies lack [waf_b]. *)
Lemma credential_login_success_lacks_required_cookie :
  let run := invoke (login [py "waf_a"; py "waf_b"]) (fresh calm ∅) in
  exists r, run.1 = Val r /\ success r = true /\
    waf_cookies r !! py "waf_b" = None /\
    has_all (waf_cookies r) [py "waf_a"; py "waf_b"] = false.
Proof.
  intros run. exists (result_of run.1).
  split; [vm_compute; reflexivity|]. split; [vm_compute; reflexivity|].
  split; vm_compute; reflexivity.
Qed.

Lemma required_cookies_in_results_and_cache_witness :
  let run := invoke (replay [py "waf_a"]) (fresh calm ∅) in
  run.1 = Val (result_of run.1) /\
  success (result_of run.1) = true /\
  has_all (waf_cookies (result_of run.1)) [py "waf_a"] = true.
Proof.
  intros run.
  assert (Hrun : run.1 = Val (result_of run.1)) by (vm_compute; reflexivity).
  assert (Hs : success (result_of run.1) = true) by (vm_compute; reflexivity).
  split; [exact Hrun|]. split; [exact Hs|].
  exact (proj1 required_cookies_in_results_and_cache calm ∅
           (replay [py "waf_a"]) (result_of run.1) Hrun Hs).
Defined.

(** C2.  Cookie-Replay on a site where everything works returns a
    success; on the same site, when [context.close()] raises, the call
    raises that exception instead of returning a result, and the
    profile directory is not removed. *)
Theorem context_close_failure_escapes :
  let good := invoke (replay [py "waf_a"]) (fresh calm ∅) in
  let bad := invoke (replay [py "waf_a"]) (fresh close_raises ∅) in
  (exists r, good.1 = Val r /\ success r = true) /\
  bad.1 = Exn (Exception (py "Target closed")) /\
  length (List.filter is_context_close (ops (trace bad.2))) = 1%nat /\
  List.filter is_rmtree (ops (trace bad.2)) = [] /\
  length (List.filter is_rmtree (ops (trace good.2))) = 1%nat.
Proof.
  intros good bad. split.
  - exists (result_of good.1). split; vm_compute; reflexivity.
  - split; [vm_compute; reflexivity|]. split; [vm_compute; reflexivity|].
    split; [vm_compute; reflexivity|]. vm_compute. reflexivity.
Qed.

Lemma cache_miss_incomplete_returns_none_witness :
  let run := get_cached_waf_cookies the_domain the_login_url
               [py "waf_a"; py "waf_b"] true (fresh calm ∅) in
  run.1 = Val None /\ waf_cookie_cache run.2 = ∅.
Proof.
  apply (cache_miss_incomplete_returns_none calm ∅ the_domain the_login_url
           [py "waf_a"; py "waf_b"] true (jar calm)).
  - vm_compute. reflexivity.
  - right. exists (py "waf_b"). split.
    + apply list_elem_of_further, list_elem_of_here.
    + vm_compute. reflexivity.
  - vm_compute. reflexivity.
Defined.






Lemma cookie_replay_fetch_not_fatal_witness :
  let run := invoke (replay [py "waf_a"]) (fresh fetch_raises ∅) in
  exists r, run.1 = Val r /\ success r = true /\ error r = None /\
    has_all (waf_cookies r) [py "waf_a"] = true.
Proof.
  apply (cookie_replay_fetch_not_fatal fetch_raises ∅).
  - vm_compute. reflexivity.
  - vm_compute. reflexivity.
Defined.


End Samples.

End BrowserFacts.

(** ** The browser strategies, further *)

Module BrowserMore.
Import Browser BrowserFacts.

#[local] Opaque py pyq.

(** *** The cookies kept from a jar *)

Section Harvest.
Context {W : Type} `{!World W} `{!PyRuntime} `{!Constants}.

Lemma named_values_snoc k jar c :
  named_values k (jar ++ [c])
  = named_values k jar
    ++ match cookie_name c, cookie_value c with
       | Some n, Some v => if bool_decide (n = k) then [v] else []
       | _, _ => []
       end.
Proof.
  unfold named_values. rewrite omap_app. f_equal. cbn.
  destruct (cookie_name c) as [n|], (cookie_value c) as [v|]; cbn;
    try (case_bool_decide; done).
  destruct (decide (n = k)) as [->|Hne].
  - by rewrite !bool_decide_eq_true_2.
  - rewrite !bool_decide_eq_false_2; [done|done|congruence].
Qed.

Lemma harvest_lookup (required_cookies : list pystr) (jar : list cookie)
    (k : pystr) :
  foldl (keep_waf_cookie required_cookies) ∅ jar !! k
  = if list_has required_cookies k then last (named_values k jar) else None.
Proof.
  induction jar as [|c jar IH] using rev_ind.
  - cbn. rewrite lookup_empty. by destruct (list_has _ _).
  - rewrite foldl_app, named_values_snoc. cbn [foldl].
    unfold keep_waf_cookie at 1.
    destruct (cookie_name c) as [n|]; [|by rewrite app_nil_r].
    destruct (cookie_value c) as [v|]; [|by rewrite app_nil_r].
    destruct (decide (n = k)) as [->|Hne].
    + rewrite bool_decide_eq_true_2 by done.
      destruct (list_has required_cookies k) eqn:Hk.
      * by rewrite lookup_insert_eq, last_snoc.
      * by rewrite IH.
    + rewrite bool_decide_eq_false_2, app_nil_r by done.
      destruct (list_has required_cookies n); [|done].
      by rewrite lookup_insert_ne.
Qed.

(** X5.  [_get_waf_cookies] reads the cookie jar once.  If the read
    raises, so does the function.  Otherwise it returns a dictionary
    that holds, for every required name, the value of the last cookie
    of that name whose value is not [None], and nothing for a name that
    is not required or that no such cookie has. *)
Theorem get_waf_cookies_keeps_last_value (w : W) cache (p : page)
    (required_cookies : list pystr) :
  let run := _get_waf_cookies p required_cookies (fresh w cache) in
  exists r,
    ops (trace run.2) = [EvOp (ContextCookies (page_context p)) r] /\
    match r with
    | Val jar =>
        exists waf_cookies, run.1 = Val waf_cookies /\
          forall k, waf_cookies !! k
                    = if list_has required_cookies k
                      then last (named_values k jar) else None
    | Exn e => run.1 = Exn e
    end.
Proof.
  intros run. subst run.
  apply (spec_fresh _ (fun o t => exists r,
    t = [EvOp (ContextCookies (page_context p)) r] /\
    match r with
    | Val jar =>
        exists waf_cookies, o = Val waf_cookies /\
          forall k, waf_cookies !! k
                    = if list_has required_cookies k
                      then last (named_values k jar) else None
    | Exn e => o = Exn e
    end)).
  unfold _get_waf_cookies. exec.
  - eexists. split; [reflexivity|]. eexists. split; [reflexivity|].
    intros k. apply harvest_lookup.
  - eexists. split; [reflexivity|]. reflexivity.
Qed.

End Harvest.

(** *** The cache, further *)

Section CacheMore.
Context {W : Type} `{!World W} `{!PyRuntime} `{!Constants}.

#[local] Abbreviation spec := (spec (W := W)).
#[local] Abbreviation spec_cache := (spec_cache (W := W)).

Lemma has_all_forall (d : gmap pystr pystr) (required_cookies : list pystr) :
  has_all d required_cookies = true <->
  forall c, c ∈ required_cookies -> is_Some (d !! c).
Proof.
  unfold has_all. rewrite forallb_forall. split.
  - intros Hall c Hc. apply list_elem_of_In, Hall in Hc.
    by apply bool_decide_eq_true in Hc.
  - intros Hall c Hc. apply bool_decide_eq_true, Hall, list_elem_of_In, Hc.
Qed.

Lemma cache_hit_iff cache domain required_cookies cached :
  cache_hit cache domain required_cookies = Some cached <->
  cache !! domain = Some cached /\
  forall c, c ∈ required_cookies -> is_Some (cached !! c).
Proof.
  unfold cache_hit. rewrite <- has_all_forall.
  destruct (cache !! domain) as [m|]; [|split; [done|by intros [? _]]].
  destruct (has_all m required_cookies) eqn:Hall; split.
  - intros [= <-]. done.
  - by intros [[= <-] _].
  - done.
  - intros [[= <-] ?]. congruence.
Qed.

Lemma sc_mono {A} (m : M W A) Φ Ψ :
  spec_cache m Φ -> (forall c o c' t, Φ c o c' t -> Ψ c o c' t) ->
  spec_cache m Ψ.
Proof. intros Hm HΦ s. destruct (Hm s) as (t & ? & ?). eauto. Qed.

Lemma sc_and {A} (m : M W A) Φ Ψ :
  spec_cache m Φ -> spec_cache m Ψ ->
  spec_cache m (fun c o c' t => Φ c o c' t /\ Ψ c o c' t).
Proof.
  intros H1 H2 s. destruct (H1 s) as (t & Ht & ?), (H2 s) as (t' & Ht' & ?).
  exists t. rewrite Ht in Ht'. apply app_inv_head in Ht' as <-. done.
Qed.

Lemma extraction_trace_spec domain login_url required_cookies log_fn :
  spec (_get_waf_cookies_from_browser domain login_url required_cookies
          log_fn)
       (fun _ t => extraction_trace t).
Proof.
  unfold _get_waf_cookies_from_browser, new_page, _wait_for_page_load,
    _get_waf_cookies.
  unfold_session. exec.
  all: split; [reflexivity|]; eexists _, _; reflexivity.
Qed.

Ltac sc_go :=
  repeat
    (lazymatch goal with
     | |- Browser.spec_cache (mbind _ _) _ => apply sc_bind
     | |- Browser.spec_cache (try_finally _ _) _ => apply sc_try_finally
     | |- Browser.spec_cache (emit _) _ => apply sc_emit; intros ?
     | |- Browser.spec_cache (log_if _ _) _ => apply sc_log_if; intros ?
     | |- Browser.spec_cache get_cache _ => apply sc_get_cache; intros ?
     | |- Browser.spec_cache (set_cache _) _ => apply sc_set_cache; intros ?
     | |- Browser.spec_cache (mret _) _ => apply sc_ret; intros ?
     | |- _ = _ -> _ => intros ->
     end;
     cbn beta iota).

Lemma get_cached_trace domain login_url required_cookies log_fn :
  spec_cache (get_cached_waf_cookies domain login_url required_cookies log_fn)
             (fun c _ _ t => cached_trace domain required_cookies c t).
Proof.
  unfold get_cached_waf_cookies, async_with_cache_lock.
  sc_go. unfold cached_trace.
  destruct (cache_hit _ domain required_cookies) as [cached|] eqn:Hhit.
  - sc_go. rewrite Hhit. by exists [].
  - sc_go.
    eapply sc_frame;
      [apply extraction_trace_spec|apply keeps_extraction|].
    intros c2 [waf|e] te Hext; cbn beta iota.
    + destruct (storable waf required_cookies) eqn:Hst; sc_go;
        rewrite Hhit; exists te;
        cbn [app ops List.filter is_log negb]; rewrite ?app_nil_r; done.
    + sc_go. rewrite Hhit. exists te.
      cbn [app ops List.filter is_log negb]. rewrite ?app_nil_r. done.
Qed.

Lemma get_cached_full domain login_url required_cookies log_fn :
  spec_cache (get_cached_waf_cookies domain login_url required_cookies log_fn)
    (fun c o c' t =>
       cached_claim domain required_cookies c o c' t /\
       cached_trace domain required_cookies c t).
Proof. apply sc_and; [apply get_cached_spec|apply get_cached_trace]. Qed.

(** X6.  A call of [get_cached_waf_cookies] for a domain whose cached
    entry has every required name returns that entry, leaves the cache
    as it is, and awaits nothing: between taking and giving back the
    lock no browser is started. *)
Theorem cached_entry_is_returned (w : W)
    (cache : gmap pystr (gmap pystr pystr)) (domain login_url : pystr)
    (required_cookies : list pystr) (log_fn : bool)
    (cached : gmap pystr pystr) :
  let run := get_cached_waf_cookies domain login_url required_cookies
               log_fn (fresh w cache) in
  cache !! domain = Some cached ->
  (forall c, c ∈ required_cookies -> is_Some (cached !! c)) ->
  run.1 = Val (Some cached) /\
  waf_cookie_cache run.2 = cache /\
  ops (trace run.2) = [EvAcquire; EvRelease].
Proof.
  intros run Hentry Hall.
  assert (Hhit : cache_hit cache domain required_cookies = Some cached)
    by (by apply cache_hit_iff).
  pose proof (get_cached_fresh w cache domain login_url required_cookies
                log_fn) as Hc.
  cbv zeta in Hc. unfold cached_claim in Hc. rewrite Hhit in Hc. exact Hc.
Qed.

(** X7.  After a call of [get_cached_waf_cookies] that returned cookies,
    a second call for the same domain and names returns the same
    cookies from the cache: it awaits nothing and leaves the cache as
    the first call left it. *)
Theorem second_call_hits (w : W)
    (cache : gmap pystr (gmap pystr pystr)) (domain login_url : pystr)
    (required_cookies : list pystr) (log_fn : bool)
    (waf_cookies : gmap pystr pystr) :
  let first := get_cached_waf_cookies domain login_url required_cookies
                 log_fn (fresh w cache) in
  let second := get_cached_waf_cookies domain login_url required_cookies
                  log_fn first.2 in
  first.1 = Val (Some waf_cookies) ->
  second.1 = Val (Some waf_cookies) /\
  waf_cookie_cache second.2 = waf_cookie_cache first.2 /\
  exists t, trace second.2 = trace first.2 ++ t /\
            ops t = [EvAcquire; EvRelease].
Proof.
  intros first second Hfirst.
  assert (Hhit : cache_hit (waf_cookie_cache first.2) domain required_cookies
                 = Some waf_cookies).
  { pose proof (get_cached_fresh w cache domain login_url required_cookies
                  log_fn) as Hc.
    cbv zeta in Hc. fold first in Hc. unfold cached_claim in Hc.
    destruct (cache_hit cache domain required_cookies) as [cached|] eqn:Hh.
    - destruct Hc as (Ho & -> & _). congruence.
    - destruct Hc as (r & te & _ & _ & Hr).
      destruct r as [waf|e];
        [destruct (storable waf required_cookies) eqn:Hst|];
        destruct Hr as [Ho ->]; try congruence.
      assert (waf = waf_cookies) as -> by congruence.
      by apply cache_hit_insert. }
  destruct (get_cached_spec domain login_url required_cookies log_fn first.2)
    as (t & Ht & Hc).
  fold second in Ht, Hc. unfold cached_claim in Hc. rewrite Hhit in Hc.
  destruct Hc as (Ho & Hcache & Hops). split; [exact Ho|].
  split; [exact Hcache|]. by exists t.
Qed.

(** X8.  A call of [get_cached_waf_cookies] for a domain never touches
    the cached entry of another domain. *)
Theorem other_domains_untouched (w : W)
    (cache : gmap pystr (gmap pystr pystr)) (domain login_url : pystr)
    (required_cookies : list pystr) (log_fn : bool) (other : pystr) :
  let run := get_cached_waf_cookies domain login_url required_cookies
               log_fn (fresh w cache) in
  other <> domain ->
  waf_cookie_cache run.2 !! other = cache !! other.
Proof.
  intros run Hother.
  pose proof (get_cached_fresh w cache domain login_url required_cookies
                log_fn) as Hc.
  cbv zeta in Hc. fold run in Hc. unfold cached_claim in Hc.
  destruct (cache_hit cache domain required_cookies) as [cached|].
  - by destruct Hc as (_ & -> & _).
  - destruct Hc as (r & te & _ & _ & Hr).
    destruct r as [waf|e];
      [destruct (storable waf required_cookies)|];
      destruct Hr as [_ ->]; try done.
    by rewrite lookup_insert_ne.
Qed.

(** X9.  Once [clear_waf_cookie_cache] has run, the next call of
    [get_cached_waf_cookies] starts a browser extraction whatever the
    cache held before, and afterwards the cache holds nothing, or the
    one entry of that call, which is what the call returns. *)
Theorem cleared_cache_is_refilled (w : W) cache domain login_url
    required_cookies log_fn :
  let run := (clear_waf_cookie_cache ;;
              get_cached_waf_cookies domain login_url required_cookies
                log_fn) (fresh w cache) in
  (exists r rest,
     ops (trace run.2) = EvAcquire :: EvOp PlaywrightStart r :: rest) /\
  (waf_cookie_cache run.2 = ∅ /\
   (run.1 = Val None \/ exists e, run.1 = Exn e) \/
   exists waf_cookies,
     waf_cookie_cache run.2 = {[domain := waf_cookies]} /\
     run.1 = Val (Some waf_cookies)).
Proof.
  intros run.
  assert (Hrun : spec_cache
            (clear_waf_cookie_cache ;;
             get_cached_waf_cookies domain login_url required_cookies log_fn)
            (fun _ o c' t =>
               cached_claim domain required_cookies ∅ o c' t /\
               cached_trace domain required_cookies ∅ t)).
  { unfold clear_waf_cookie_cache. apply sc_bind, sc_set_cache. intros c.
    eapply sc_mono; [apply get_cached_full|].
    intros c1 o c' t [Hc Ht] ->. done. }
  destruct (Hrun (fresh w cache)) as (t & Ht & Hc & Hshape).
  fold run in Ht, Hc. cbn [fresh trace app] in Ht. rewrite <- Ht in Hc, Hshape.
  clear Ht t. unfold cached_claim, cached_trace in *.
  assert (Hmiss : cache_hit ∅ domain required_cookies = None).
  { unfold cache_hit. by rewrite lookup_empty. }
  rewrite Hmiss in Hc, Hshape.
  destruct Hshape as (te & Hte & _ & r & rest & ->).
  destruct Hc as (r' & te' & _ & _ & Hr).
  split.
  - exists r, (rest ++ [EvRelease]). by rewrite Hte.
  - destruct r' as [waf|e];
      [destruct (storable waf required_cookies)|];
      destruct Hr as [Ho Hcache].
    + right. exists waf. rewrite Hcache. split; [|done].
      by rewrite insert_empty.
    + left. split; [done|by left].
    + left. split; [done|]. right. by exists e.
Qed.

(** X10.  Every call of [get_cached_waf_cookies] takes the cache lock
    once, before anything else, and gives it back once, after
    everything else, also when the browser extraction raises. *)
Theorem cache_lock_is_given_back (w : W) cache domain login_url
    required_cookies log_fn :
  let run := get_cached_waf_cookies domain login_url required_cookies
               log_fn (fresh w cache) in
  exists te,
    ops (trace run.2) = EvAcquire :: te ++ [EvRelease] /\
    List.filter is_lock te = [].
Proof.
  intros run.
  destruct (get_cached_trace domain login_url required_cookies log_fn
              (fresh w cache)) as (t & Ht & te & Hte & Hshape).
  fold run in Ht. cbn [fresh trace app] in Ht. rewrite <- Ht in Hte.
  exists te. split; [exact Hte|].
  destruct (cache_hit _ _ _); [by subst te|by destruct Hshape].
Qed.

End CacheMore.

(** *** Helpers *)

Section Helpers.
Context {W : Type} `{!World W} `{!PyRuntime} `{!Constants}.

(** X11.  [_wait_for_page_load] never raises what the readiness check
    raised: when [page.wait_for_function] returns, nothing else is
    awaited; when it raises, [page.wait_for_timeout] is awaited for
    [PAGE_LOAD_WAIT_MS] and its outcome is the outcome of the
    function. *)
Theorem wait_for_page_load_falls_back (w : W) cache (p : page) :
  let run := _wait_for_page_load p (fresh w cache) in
  let ready := WaitForFunction p (pyq "document.readyState === `complete`")
                 PAGE_LOAD_WAIT_MS in
  (run.1 = Val tt /\ ops (trace run.2) = [EvOp ready (Val tt)]) \/
  (exists e r,
     run.1 = r /\
     ops (trace run.2)
     = [EvOp ready (Exn e); EvOp (WaitForTimeout p PAGE_LOAD_WAIT_MS) r]).
Proof.
  intros run ready. subst run ready.
  apply (spec_fresh _ (fun o t =>
    (o = Val tt /\
     t = [EvOp (WaitForFunction p
                  (pyq "document.readyState === `complete`")
                  PAGE_LOAD_WAIT_MS) (Val tt)]) \/
    (exists e r,
       o = r /\
       t = [EvOp (WaitForFunction p
                    (pyq "document.readyState === `complete`")
                    PAGE_LOAD_WAIT_MS) (Exn e);
            EvOp (WaitForTimeout p PAGE_LOAD_WAIT_MS) r]))).
  unfold _wait_for_page_load. exec.
  - left. by destruct a.
  - right. eexists _, (Val a). done.
  - right. eexists _, (Exn _). done.
Qed.

(** X12.  [_check_chrome_debug_port] never raises: it returns [True]
    when [connect_ex] returned 0, and [False] when it returned another
    number or when anything raised. *)
Theorem check_chrome_debug_port_never_raises (w : W) cache :
  let run := _check_chrome_debug_port (fresh w cache) in
  exists r,
    ops (trace run.2)
    = [EvOp (SocketConnectEx (py "127.0.0.1") CHROME_DEBUG_PORT) r] /\
    run.1 = Val match r with
                | Val result => (result =? 0)%Z
                | Exn _ => false
                end.
Proof.
  intros run. subst run.
  apply (spec_fresh _ (fun o t => exists r,
    t = [EvOp (SocketConnectEx (py "127.0.0.1") CHROME_DEBUG_PORT) r] /\
    o = Val match r with
            | Val result => (result =? 0)%Z
            | Exn _ => false
            end)).
  unfold _check_chrome_debug_port. exec.
  - by eexists (Val _).
  - by eexists (Exn _).
Qed.

End Helpers.

(** *** What the strategies raise *)

Ltac find_escape :=
  repeat first
    [ apply Exists_cons_hd; split; reflexivity
    | apply Exists_cons_tl
    | (apply Exists_app; right) ].

Section Escapes.
Context {W : Type} `{!World W} `{!PyRuntime} `{!Constants}.

Lemma cookie_replay_escapes (w : W) cache account_name domain login_url
    required_cookies user_session api_user api_user_key log_fn :
  let run := get_waf_cookies_and_trigger_signin account_name domain
               login_url required_cookies user_session api_user
               api_user_key log_fn (fresh w cache) in
  escapes run.1 (ops (trace run.2)).
Proof.
  intros run. subst run. apply spec_fresh.
  unfold get_waf_cookies_and_trigger_signin, cookie_replay_fault.
  unfold_session. exec.
  all: use_block replay_steps_outcome.
  all: norm_trace; unfold escapes; try exact I.
  all: solve [find_escape].
Qed.

Lemma real_login_escapes (w : W) cache account_name domain login_url
    username password required_cookies log_fn :
  let run := perform_real_login_signin account_name domain login_url
               username password required_cookies log_fn (fresh w cache) in
  escapes run.1 (ops (trace run.2)).
Proof.
  intros run. subst run. apply spec_fresh.
  unfold perform_real_login_signin, real_login_fault.
  unfold_session. exec.
  all: use_block real_login_steps_outcome.
  all: norm_trace; unfold escapes; try exact I.
  all: solve [find_escape].
Qed.

Lemma oauth_escapes (w : W) cache account_name domain login_url
    oauth_provider log_fn :
  let run := perform_oauth_signin_with_chrome account_name domain login_url
               oauth_provider log_fn (fresh w cache) in
  escapes run.1 (ops (trace run.2)).
Proof.
  intros run. subst run. apply spec_fresh.
  unfold perform_oauth_signin_with_chrome, _check_chrome_debug_port,
    async_with_playwright, acquire_oauth_context, release_oauth, new_page,
    oauth_fault.
  exec.
  all: use_block oauth_steps_outcome.
  all: norm_trace; unfold escapes; try exact I.
  all: solve [find_escape].
Qed.

Lemma http_returns (w : W) cache account_name domain login_url
    user_cookies api_user api_user_key log_fn :
  let run := trigger_signin_via_http account_name domain login_url
               user_cookies api_user api_user_key log_fn (fresh w cache) in
  exists r, run.1 = Val r.
Proof.
  intros run. subst run.
  apply (spec_fresh _ (fun o _ => exists r, o = Val r)).
  unfold trigger_signin_via_http, http_fault.
  exec.
  all: use_block http_steps_outcome.
  all: eexists; reflexivity.
Qed.



End Escapes.

(** *** The requests of HTTP-Only-Replay *)

Section Headers.
Context `{!Constants}.

Lemma items_get_dict_set (k v : pystr) (d : list (pystr * pystr))
    (k' : pystr) :
  items_get k' (dict_set k v d)
  = if bool_decide (k' = k) then Some v else items_get k' d.
Proof.
  induction d as [|[k0 v0] d IH]; cbn [dict_set items_get].
  - destruct (decide (k = k')) as [->|Hne].
    + by rewrite !bool_decide_eq_true_2.
    + rewrite !bool_decide_eq_false_2; [done|congruence|done].
  - destruct (decide (k0 = k)) as [->|Hk0].
    + rewrite (bool_decide_eq_true_2 (k = k)) by done. cbn [items_get].
      destruct (decide (k = k')) as [->|Hne].
      * by rewrite !bool_decide_eq_true_2.
      * rewrite !bool_decide_eq_false_2; [done|congruence|done].
    + rewrite (bool_decide_eq_false_2 (k0 = k)) by done. cbn [items_get].
      destruct (decide (k0 = k')) as [->|Hne].
      * rewrite bool_decide_eq_true_2 by done.
        by rewrite bool_decide_eq_false_2 by congruence.
      * rewrite bool_decide_eq_false_2 by done. apply IH.
Qed.

Lemma dict_set_keys (k v : pystr) (d : list (pystr * pystr)) :
  (dict_set k v d).*1
  = if bool_decide (k ∈ d.*1) then d.*1 else d.*1 ++ [k].
Proof.
  induction d as [|[k0 v0] d IH]; cbn [dict_set fmap list_fmap fst].
  - rewrite bool_decide_eq_false_2; [done|]. by intros ?%elem_of_nil.
  - destruct (decide (k0 = k)) as [->|Hk0].
    + rewrite (bool_decide_eq_true_2 (k = k)) by done.
      rewrite bool_decide_eq_true_2 by apply list_elem_of_here. done.
    + rewrite (bool_decide_eq_false_2 (k0 = k)) by done.
      cbn [fmap list_fmap fst]. fold (d.*1). fold ((dict_set k v d).*1).
      rewrite IH. destruct (decide (k ∈ d.*1)) as [Hin|Hnin].
      * rewrite !bool_decide_eq_true_2;
          [done|by apply list_elem_of_further|done].
      * rewrite !bool_decide_eq_false_2; [done| |done].
        intros [?|?]%elem_of_cons; congruence.
Qed.

Lemma dict_set_NoDup (k v : pystr) (d : list (pystr * pystr)) :
  NoDup d.*1 -> NoDup (dict_set k v d).*1.
Proof.
  intros Hd. rewrite dict_set_keys. case_bool_decide as Hin; [done|].
  apply NoDup_app. split; [done|]. split; [|apply NoDup_singleton].
  intros x Hx ->%list_elem_of_singleton. done.
Qed.


End Headers.

Section Requests.
Context {W : Type} `{!World W} `{!PyRuntime} `{!Constants}.

Lemma requests_cons ev t :
  requests (ev :: t) = match sent ev with
                       | Some rq => rq :: requests t
                       | None => requests t
                       end.
Proof. reflexivity. Qed.

Lemma requests_app t1 t2 : requests (t1 ++ t2) = requests t1 ++ requests t2.
Proof. apply omap_app. Qed.

Lemma set_cookies_requests (client : handle) (domain : pystr)
    (user_cookies : list (pystr * pystr)) :
  spec (for_each user_cookies
          (fun '(name, value) =>
             netloc ← lift (urlparse_netloc domain);
             perform (ClientCookiesSet client name value netloc)))
       (fun _ t => requests t = []).
Proof.
  induction user_cookies as [|[name value] l IH]; cbn [for_each].
  - by apply spec_ret.
  - exec.
    + eapply spec_mono; [apply IH|]. intros o t Ht. cbn [app].
      by rewrite requests_cons.
    + reflexivity.
    + reflexivity.
Qed.

Lemma http_steps_requests a b c d cookies u k client :
  spec (http_steps a b c d cookies u k client)
    (fun _ t =>
       requests t `prefix_of`
       [ (d, browser_headers u k);
         (c ++ py "/api/user/self",
          dict_set (py "Accept") (py "application/json")
            (browser_headers u k)) ]).
Proof.
  unfold http_steps. apply spec_bind.
  eapply spec_mono; [apply set_cookies_requests|].
  intros [[]|e] t0 Ht0; cbn [negb].
  2:{ rewrite Ht0. apply prefix_nil. }
  exec.
  all: rewrite requests_app, Ht0; cbn [app requests omap list_omap sent].
  all: first [ by apply prefix_cons, prefix_cons, prefix_nil
             | by apply prefix_cons, prefix_nil ].
Qed.

(** X16.  HTTP-Only-Replay sends at most two requests, in this order:
    a GET of the login URL with the browser headers, then a GET of
    [/api/user/self] on the domain with the same headers but
    [Accept: application/json]. *)
Theorem http_replay_requests (w : W) cache account_name domain login_url
    user_cookies api_user api_user_key log_fn :
  let run := trigger_signin_via_http account_name domain login_url
               user_cookies api_user api_user_key log_fn (fresh w cache) in
  let headers := browser_headers api_user api_user_key in
  requests (ops (trace run.2)) `prefix_of`
  [ (login_url, headers);
    (domain ++ py "/api/user/self",
     dict_set (py "Accept") (py "application/json") headers) ].
Proof.
  intros run headers. subst run headers.
  apply (spec_fresh _ (fun _ t =>
    requests t `prefix_of`
    [ (login_url, browser_headers api_user api_user_key);
      (domain ++ py "/api/user/self",
       dict_set (py "Accept") (py "application/json")
         (browser_headers api_user api_user_key)) ])).
  unfold trigger_signin_via_http, http_fault.
  exec.
  all: use_block http_steps_requests.
  all: norm_trace; repeat rewrite ?requests_cons, ?requests_app;
       cbn [sent requests omap list_omap]; rewrite ?app_nil_r.
  all: first [exact Hb|apply prefix_nil].
Qed.

End Requests.

(** *** What the flows await *)

Section Steps.
Context {W : Type} `{!World W} `{!PyRuntime} `{!Constants}.

Lemma tries_forall (P : event -> Prop) p act l hit t :
  (forall selector r, P (EvOp (QuerySelector p selector) r)) ->
  (forall el r, P (EvOp (act el) r)) ->
  tries p act l hit t -> Forall P t.
Proof. intros Hq Hact. induction 1; repeat constructor; auto. Qed.

Lemma flow_step_page_step ev : flow_step ev = true -> page_step ev = true.
Proof. unfold page_step. by intros ->. Qed.

Lemma flow_steps_harvested t :
  Forall (fun ev => flow_step ev = true) t -> harvested t = [].
Proof.
  induction 1 as [|ev t Hev _ IH]; [done|]. rewrite harvested_cons, IH.
  destruct ev as [X o r| | | | |]; try done. by destruct o.
Qed.

Lemma page_steps_quiet t :
  Forall (fun ev => page_step ev = true) t -> quiet t.
Proof.
  unfold quiet. intros Hf. eapply Forall_impl; [exact Hf|].
  intros [X o r| | | | |]; try done. by destruct o.
Qed.

End Steps.

Ltac solve_steps :=
  repeat first
    [ apply Forall_nil_2
    | apply Forall_cons_2; [reflexivity|]
    | apply Forall_app_2
    | match goal with
      | H : tries _ _ _ _ ?t |- Forall _ ?t =>
          refine (tries_forall _ _ _ _ _ _ _ _ H); intros; reflexivity
      | H : Forall _ ?t |- Forall _ ?t => exact H
      | H : Forall (fun ev => flow_step ev = true) ?t
        |- Forall (fun ev => page_step ev = true) ?t =>
          refine (Forall_impl _ _ _ H _); apply flow_step_page_step
      end ].

Section StepBlocks.
Context {W : Type} `{!World W} `{!PyRuntime} `{!Constants}.

Lemma replay_session_flow a b c ctx p waf s u k :
  spec (replay_session a b c ctx p waf s u k)
       (fun o t =>
          Forall (fun ev => flow_step ev = true) t /\
          forall r, o = Val r -> p_waf_cookies r = waf).
Proof.
  unfold replay_session, call_user_self, _set_session_cookie. exec.
  all: split; [solve_steps|]; by intros r [= <-].
Qed.

Lemma submit_login_flow a b p waf :
  spec (submit_login a b p waf)
       (fun _ t => Forall (fun ev => flow_step ev = true) t).
Proof.
  unfold submit_login, wait_for_console. exec_all.
  all: solve_steps.
Qed.

Lemma fill_login_form_flow a b u pw p waf :
  spec (fill_login_form a b u pw p waf)
       (fun o t =>
          Forall (fun ev => flow_step ev = true) t /\
          forall r, o = Val r -> p_waf_cookies r = waf).
Proof.
  unfold fill_login_form. exec_all.
  all: try (eapply spec_mono;
            [apply spec_and; [apply submit_login_flow
                             |apply submit_login_outcome]|];
            intros o t' [Hf [_ Ho]]; split; [solve_steps|];
            intros r ->; by destruct Ho).
  all: split; [solve_steps|]; by intros r [= <-].
Qed.

Lemma oauth_steps_flow a b c d provider p :
  spec (oauth_steps a b c d provider p)
       (fun _ t => Forall (fun ev => flow_step ev = true) t).
Proof.
  unfold oauth_steps, wait_for_oauth, _wait_for_page_load. exec_all.
  all: solve_steps.
Qed.

(** The [try] block of Cookie-Replay: its steps, and the cookies of a
    success. *)
Lemma replay_steps_page a b c d e f g h ctx dir :
  spec (cookie_replay_steps a b c d e f g h ctx dir)
    (fun o t =>
       Forall (fun ev => page_step ev = true) t /\
       forall r, o = Val r -> p_success r = true ->
         exists jar, harvested t = [jar] /\
           p_waf_cookies r = foldl (keep_waf_cookie e) ∅ jar).
Proof.
  unfold cookie_replay_steps, new_page, _wait_for_page_load,
    _get_waf_cookies.
  exec.
  all: try (eapply spec_mono; [apply replay_session_flow|];
            intros o t' [Hf Ho]; split; [solve_steps|];
            intros r -> Hs; eexists; split;
            [repeat rewrite ?harvested_cons, ?harvested_app;
             cbn [cookies_read]; rewrite (flow_steps_harvested _ Hf);
             reflexivity
            |by apply Ho]).
  all: split; [solve_steps|]; intros r [= <-]; done.
Qed.

End StepBlocks.

(** *** Whole runs, further *)

Section RunsMore.
Context {W : Type} `{!World W} `{!PyRuntime} `{!Constants}.

Lemma real_login_steps_page a b c d u pw req ctx dir :
  spec (real_login_steps a b c d u pw req ctx dir)
    (fun o t =>
       Forall (fun ev => page_step ev = true) t /\
       forall r, o = Val r ->
         exists jar, harvested t = [jar] /\
           p_waf_cookies r = foldl (keep_waf_cookie req) ∅ jar).
Proof.
  unfold real_login_steps, new_page, _wait_for_page_load, _get_waf_cookies.
  exec_all.
  all: try (eapply spec_mono; [apply fill_login_form_flow|];
            intros o t' [Hf Ho]; split; [solve_steps|];
            intros r ->; eexists; split;
            [repeat rewrite ?harvested_cons, ?harvested_app;
             cbn [cookies_read]; rewrite (flow_steps_harvested _ Hf);
             reflexivity
            |by apply Ho]).
  all: split; [solve_steps|]; intros r Hr; discriminate Hr.
Qed.

Lemma page_steps_no_teardown t :
  Forall (fun ev => page_step ev = true) t ->
  Forall (fun ev => is_teardown ev = false) t.
Proof.
  intros Hf. eapply Forall_impl; [exact Hf|].
  intros [X o r| | | | |]; try done. by destruct o.
Qed.

Lemma page_steps_not_acquired t :
  Forall (fun ev => page_step ev = true) t ->
  existsb session_acquired t = false.
Proof.
  induction 1 as [|ev t Hev _ IH]; [done|]. cbn [existsb]. rewrite IH.
  destruct ev as [X o [r|e]| | | | |]; try done. by destruct o.
Qed.

Lemma cookie_replay_stealth (w : W) cache account_name domain login_url
    required_cookies user_session api_user api_user_key log_fn :
  let run := get_waf_cookies_and_trigger_signin account_name domain
               login_url required_cookies user_session api_user
               api_user_key log_fn (fresh w cache) in
  stealth_claim required_cookies run.1 (ops (trace run.2)).
Proof.
  intros run. subst run. apply spec_fresh.
  unfold get_waf_cookies_and_trigger_signin, cookie_replay_fault.
  unfold_session. exec.
  all: use_block replay_steps_page.
  all: norm_trace; split;
       [intros Hacq; simp_exists Hacq; solve_steps
       |intros r Hr Hs; try discriminate Hr; injection Hr as <-;
        simp_fields; try discriminate Hs].
  all: destruct Hb as [Hf Hb]; destruct (Hb _ eq_refl Hs) as (jar & Hj & ->).
  all: exists jar; split; [|reflexivity].
  all: repeat rewrite ?harvested_cons, ?harvested_app; cbn [cookies_read].
  all: rewrite Hj; reflexivity.
Qed.

Lemma real_login_stealth (w : W) cache account_name domain login_url
    username password required_cookies log_fn :
  let run := perform_real_login_signin account_name domain login_url
               username password required_cookies log_fn (fresh w cache) in
  stealth_claim required_cookies run.1 (ops (trace run.2)).
Proof.
  intros run. subst run. apply spec_fresh.
  unfold perform_real_login_signin, real_login_fault.
  unfold_session. exec.
  all: use_block real_login_steps_page.
  all: norm_trace; split;
       [intros Hacq; simp_exists Hacq; solve_steps
       |intros r Hr Hs; try discriminate Hr; injection Hr as <-;
        simp_fields; try discriminate Hs].
  all: destruct Hb as [Hf Hb]; destruct (Hb _ eq_refl) as (jar & Hj & ->).
  all: exists jar; split; [|reflexivity].
  all: repeat rewrite ?harvested_cons, ?harvested_app; cbn [cookies_read].
  all: rewrite Hj; reflexivity.
Qed.

End RunsMore.

Section RunTheorems.
Context {W : Type} `{!World W} `{!PyRuntime} `{!Constants}.

Lemma invoke_stealth (w : W) cache (i : invocation) :
  owns_stealth_context i = true ->
  let run := invoke i (fresh w cache) in
  stealth_claim (required_cookies_of i) run.1 (ops (trace run.2)).
Proof.
  destruct i; intros Howns; try discriminate Howns;
    cbn [invoke required_cookies_of].
  - apply cookie_replay_stealth.
  - apply real_login_stealth.
Qed.

(** X17.  In a run of Cookie-Replay or Credential-Login in which
    [_create_stealth_context] returned, [context.close()] is awaited
    exactly once and [shutil.rmtree] at most once, and not at all when
    closing the context raised. *)
Theorem stealth_context_closed_once (w : W) cache (i : invocation) :
  let t := ops (trace (invoke i (fresh w cache)).2) in
  owns_stealth_context i = true ->
  existsb session_acquired t = true ->
  length (List.filter is_context_close t) = 1%nat /\
  (length (List.filter is_rmtree t) <= 1)%nat /\
  (existsb close_fault t = true -> List.filter is_rmtree t = []).
Proof.
  intros t Howns Hacq. subst t.
  pose proof (session_closed_once w cache i) as Hc.
  destruct i; try discriminate Howns; by apply Hc.
Qed.

(** X18.  In a run of Cookie-Replay or Credential-Login in which
    [_create_stealth_context] did not return (the temporary directory
    could not be made, the browser could not be launched or the init
    script could not be added), nothing is released: neither is a
    context closed nor is a directory removed, also when the directory
    had been made or the browser launched. *)
Theorem nothing_released_unless_acquired (w : W) cache (i : invocation) :
  let t := ops (trace (invoke i (fresh w cache)).2) in
  owns_stealth_context i = true ->
  existsb session_acquired t = false ->
  Forall (fun ev => is_teardown ev = false) t.
Proof.
  intros t Howns. subst t.
  by apply (invoke_stealth w cache i Howns).
Qed.

(** X19.  A success of Cookie-Replay or Credential-Login: the cookie
    jar was read exactly once during the run, and the cookies of the
    result are the ones kept from that jar. *)
Theorem success_carries_the_harvest (w : W) cache (i : invocation)
    (r : BrowserResult) :
  let run := invoke i (fresh w cache) in
  owns_stealth_context i = true ->
  run.1 = Val r ->
  success r = true ->
  exists jar,
    harvested (ops (trace run.2)) = [jar] /\
    waf_cookies r = foldl (keep_waf_cookie (required_cookies_of i)) ∅ jar.
Proof.
  intros run Howns. subst run.
  by apply (invoke_stealth w cache i Howns).
Qed.

End RunTheorems.

Section OAuthMore.
Context {W : Type} `{!World W} `{!PyRuntime} `{!Constants}.

Lemma flow_steps_keep_browser t :
  Forall (fun ev => flow_step ev = true) t ->
  Forall (fun ev => is_launch ev || is_context_close ev = false) t /\
  Forall (fun ev => is_connect ev || is_page_close ev = false) t /\
  existsb port_open t = false.
Proof.
  intros Hf. split; [|split].
  - eapply Forall_impl; [exact Hf|].
    intros [X o r| | | | |]; try done. by destruct o.
  - eapply Forall_impl; [exact Hf|].
    intros [X o r| | | | |]; try done. by destruct o.
  - induction Hf as [|ev t Hev _ IH]; [done|]. cbn [existsb]. rewrite IH.
    destruct ev as [X o r| | | | |]; try done. by destruct o.
Qed.

(** X20.  A run of the OAuth strategy in which the debugging port of a
    running Chrome answered: no browser is launched and no context is
    closed, so the browser that was found keeps running. *)
Theorem oauth_over_cdp_keeps_the_browser (w : W) cache account_name domain
    login_url oauth_provider log_fn :
  let run := perform_oauth_signin_with_chrome account_name domain login_url
               oauth_provider log_fn (fresh w cache) in
  let t := ops (trace run.2) in
  existsb port_open t = true ->
  Forall (fun ev => is_launch ev || is_context_close ev = false) t.
Proof.
  intros run t. subst run t.
  apply (spec_fresh _ (fun _ t =>
    existsb port_open t = true ->
    Forall (fun ev => is_launch ev || is_context_close ev = false) t)).
  unfold perform_oauth_signin_with_chrome, _check_chrome_debug_port,
    async_with_playwright, acquire_oauth_context, release_oauth, new_page,
    oauth_fault.
  exec.
  all: use_block oauth_steps_flow.
  all: norm_trace; intros Hopen.
  all: try (destruct (flow_steps_keep_browser _ Hb) as (Hkeep & _ & Hport)).
  all: repeat rewrite ?existsb_cons, ?existsb_app in Hopen;
       cbn [port_open existsb orb] in Hopen.
  all: repeat match goal with
         | H : (_ =? 0)%Z = _ |- _ => rewrite H in Hopen; clear H
         end.
  all: rewrite ?Hport in Hopen; cbn [orb] in Hopen; try discriminate Hopen.
  all: solve_steps.
Qed.

(** X21.  A run of the OAuth strategy in which the debugging port did
    not answer: no connection to a running browser is made and no page
    is closed on its own. *)
Theorem oauth_without_cdp_connects_nowhere (w : W) cache account_name
    domain login_url oauth_provider log_fn :
  let run := perform_oauth_signin_with_chrome account_name domain login_url
               oauth_provider log_fn (fresh w cache) in
  let t := ops (trace run.2) in
  existsb port_open t = false ->
  Forall (fun ev => is_connect ev || is_page_close ev = false) t.
Proof.
  intros run t. subst run t.
  apply (spec_fresh _ (fun _ t =>
    existsb port_open t = false ->
    Forall (fun ev => is_connect ev || is_page_close ev = false) t)).
  unfold perform_oauth_signin_with_chrome, _check_chrome_debug_port,
    async_with_playwright, acquire_oauth_context, release_oauth, new_page,
    oauth_fault.
  exec.
  all: use_block oauth_steps_flow.
  all: norm_trace; intros Hopen.
  all: try (destruct (flow_steps_keep_browser _ Hb) as (_ & Hkeep & Hport)).
  all: repeat rewrite ?existsb_cons, ?existsb_app in Hopen;
       cbn [port_open existsb orb] in Hopen.
  all: repeat match goal with
         | H : (_ =? 0)%Z = _ |- _ => rewrite H in Hopen; clear H
         end.
  all: rewrite ?Hport in Hopen; cbn [orb] in Hopen; try discriminate Hopen.
  all: solve_steps.
Qed.

End OAuthMore.

Section ResultsMore.
Context {W : Type} `{!World W} `{!PyRuntime} `{!Constants}.

#[local] Abbreviation spec := (spec (W := W)).

Lemma spec_settle_calls r (Φ : outcome BrowserResult -> list event -> Prop) :
  (forall l,
     Φ (Val {| success := p_success r;
               waf_cookies := p_waf_cookies r;
               api_calls := match p_api_calls r with
                            | SharedCalls => l
                            | FreshCalls l' => l'
                            end;
               error := p_error r |}) []) ->
  spec (settle r) Φ.
Proof.
  intros HΦ s. exists []. cbn. rewrite app_nil_r. split; [done|]. apply HΦ.
Qed.

Lemma cookie_replay_pending account_name domain login_url required_cookies
    user_session api_user api_user_key log_fn :
  spec (async_with_playwright
          (with_stealth_session
             (cookie_replay_steps log_fn account_name domain login_url
                required_cookies user_session api_user api_user_key)
             (Some (cookie_replay_fault log_fn account_name))))
       (fun o _ => forall p, o = Val p -> p_success p = false ->
                     exists msg, p = failed msg).
Proof.
  unfold cookie_replay_fault. unfold_session. exec.
  all: use_block replay_steps_outcome.
  all: intros p Hp Hs; try discriminate Hp; injection Hp as <-.
  all: try (eexists; reflexivity).
  all: destruct Hb as [_ [(Hok & _)|(missing & _ & ->)]];
       [congruence|eexists; reflexivity].
Qed.

(** X22.  A failure of Cookie-Replay carries no cookie and no API call,
    whatever was harvested and whatever requests were seen before the
    failure. *)
Theorem cookie_replay_failure_carries_nothing (w : W) cache account_name
    domain login_url required_cookies user_session api_user api_user_key
    log_fn (r : BrowserResult) :
  let run := get_waf_cookies_and_trigger_signin account_name domain
               login_url required_cookies user_session api_user
               api_user_key log_fn (fresh w cache) in
  run.1 = Val r ->
  success r = false ->
  waf_cookies r = ∅ /\ api_calls r = [].
Proof.
  intros run. subst run.
  apply (spec_fresh _ (fun o _ => o = Val r -> success r = false ->
                                  waf_cookies r = ∅ /\ api_calls r = [])).
  unfold get_waf_cookies_and_trigger_signin.
  apply spec_bind, spec_log, spec_bind.
  eapply spec_mono; [apply cookie_replay_pending|].
  intros [p|e] t Hp; [|intros Hr; discriminate Hr].
  apply spec_settle_calls. intros l [= <-] Hs. cbn in Hs.
  destruct (Hp p eq_refl Hs) as [msg ->]. done.
Qed.

Lemma set_cookies_client (client : handle) (domain : pystr)
    (user_cookies : list (pystr * pystr)) :
  spec (for_each user_cookies
          (fun '(name, value) =>
             netloc ← lift (urlparse_netloc domain);
             perform (ClientCookiesSet client name value netloc)))
       (fun _ t => Forall (fun ev => client_step ev = true) t).
Proof.
  induction user_cookies as [|[name value] l IH]; cbn [for_each].
  - by apply spec_ret.
  - exec.
    + eapply spec_mono; [apply IH|]. intros o t Ht. cbn [app].
      by constructor.
    + by repeat constructor.
    + by repeat constructor.
Qed.

Lemma http_steps_client a b c d cookies u k client :
  spec (http_steps a b c d cookies u k client)
       (fun _ t => Forall (fun ev => client_step ev = true) t).
Proof.
  unfold http_steps. apply spec_bind.
  eapply spec_mono; [apply set_cookies_client|].
  intros [[]|e] t0 Ht0; cbn [negb]; [|done].
  exec.
  all: solve_steps.
Qed.

(** X23.  HTTP-Only-Replay starts no browser: all it awaits are the
    opening of the HTTP client, the setting of its cookies, its GET
    requests and its closing. *)
Theorem http_replay_uses_no_browser (w : W) cache account_name domain
    login_url user_cookies api_user api_user_key log_fn :
  let run := trigger_signin_via_http account_name domain login_url
               user_cookies api_user api_user_key log_fn (fresh w cache) in
  Forall (fun ev => client_step ev = true) (ops (trace run.2)).
Proof.
  intros run. subst run.
  apply (spec_fresh _ (fun _ t =>
           Forall (fun ev => client_step ev = true) t)).
  unfold trigger_signin_via_http, http_fault.
  exec.
  all: use_block http_steps_client.
  all: norm_trace; solve_steps.
Qed.

End ResultsMore.

(** *** The session cookie of Cookie-Replay *)

Section SessionCookie.
Context {W : Type} `{!World W} `{!PyRuntime} `{!Constants}.

Lemma added_cons ev t :
  omap cookies_added (ev :: t)
  = match cookies_added ev with
    | Some cs => cs :: omap cookies_added t
    | None => omap cookies_added t
    end.
Proof. reflexivity. Qed.

Lemma until_add_app_some t1 t2 :
  omap cookies_added t1 <> [] -> until_add (t1 ++ t2) = until_add t1.
Proof.
  induction t1 as [|ev t1 IH]; [done|]. cbn [app until_add].
  rewrite added_cons. destruct (cookies_added ev); [done|].
  intros Hne. by rewrite IH.
Qed.

Lemma page_steps_added_app t1 t2 :
  omap cookies_added (t1 ++ t2)
  = omap cookies_added t1 ++ omap cookies_added t2.
Proof. apply omap_app. Qed.

Lemma replay_steps_session a b c d e f g h ctx dir :
  spec (cookie_replay_steps a b c d e f g h ctx dir)
       (fun _ t => session_injection c f t).
Proof.
  unfold cookie_replay_steps, replay_session, call_user_self, new_page,
    _wait_for_page_load, _get_waf_cookies, _set_session_cookie.
  exec.
  all: unfold session_injection; cbn [omap list_omap cookies_added app].
  all: try exact I.
  all: split; [reflexivity|]; eexists; split; [eassumption|reflexivity].
Qed.

(** X24.  Cookie-Replay adds cookies to the browser context at most
    once.  When it does, [context.clear_cookies()] was awaited before,
    and what is added is exactly one cookie: [session], with the user's
    session as value, for the host of [domain], path [/], [httpOnly],
    [secure] and [sameSite] [Lax]. *)
Theorem cookie_replay_injects_the_session_once (w : W) cache account_name
    domain login_url required_cookies user_session api_user api_user_key
    log_fn :
  let run := get_waf_cookies_and_trigger_signin account_name domain
               login_url required_cookies user_session api_user
               api_user_key log_fn (fresh w cache) in
  let t := ops (trace run.2) in
  match omap cookies_added t with
  | [] => True
  | [cs] =>
      existsb is_clear_cookies (until_add t) = true /\
      exists cookie_domain,
        urlparse_netloc domain = Val cookie_domain /\
        cs = [ {| sc_name := py "session"; sc_value := user_session;
                  sc_domain := cookie_domain; sc_path := py "/";
                  sc_httpOnly := true; sc_secure := true;
                  sc_sameSite := py "Lax" |} ]
  | _ => False
  end.
Proof.
  intros run t. subst run t.
  apply (spec_fresh _ (fun _ t => session_injection domain user_session t)).
  unfold get_waf_cookies_and_trigger_signin, cookie_replay_fault.
  unfold_session. exec.
  all: use_block replay_steps_session.
  all: norm_trace; unfold session_injection in *.
  all: repeat rewrite ?added_cons, ?page_steps_added_app;
       cbn [cookies_added omap list_omap]; rewrite ?app_nil_r.
  all: try exact I.
  all: destruct (omap cookies_added tb) as [|cs [|cs' rest]] eqn:Hadd;
       try exact I; try (by destruct Hb).
  all: destruct Hb as [Hclear Hcs]; split; [|exact Hcs].
  all: cbn [until_add cookies_added existsb is_clear_cookies orb].
  all: rewrite until_add_app_some by (rewrite Hadd; discriminate).
  all: exact Hclear.
Qed.

End SessionCookie.

(** *** The OAuth strategy on a signed-in browser *)

Section SignedIn.
Context {W : Type} `{!World W} `{!PyRuntime} `{!Constants}.

Lemma urls_cons ev t :
  urls (ev :: t) = match url_read ev with
                   | Some url => url :: urls t
                   | None => urls t
                   end.
Proof. reflexivity. Qed.

Lemma urls_app t1 t2 : urls (t1 ++ t2) = urls t1 ++ urls t2.
Proof. apply omap_app. Qed.

Lemma flow_steps_no_fault_app t1 t2 :
  existsb is_fault (t1 ++ t2) = false ->
  existsb is_fault t1 = false /\ existsb is_fault t2 = false.
Proof. rewrite existsb_app. apply orb_false_iff. Qed.

Lemma oauth_steps_signed_in a b c d provider p :
  spec (oauth_steps a b c d provider p)
    (fun o t =>
       forall url rest,
         urls t = url :: rest ->
         str_in (py "/login") (str_lower url) = false ->
         queried t = [] /\
         (existsb is_fault t = false ->
          exists r, o = Val r /\ p_success r = true /\ p_error r = None)).
Proof.
  unfold oauth_steps, wait_for_oauth, _wait_for_page_load. exec_all.
  all: intros url rest Hurls Hnot.
  all: repeat rewrite ?urls_cons in Hurls; cbn [url_read] in Hurls;
       try discriminate Hurls.
  all: try (injection Hurls as <- _).
  all: try match goal with
         | H : negb (str_in (py "/login") (str_lower _)) = false |- _ =>
             rewrite Hnot in H; discriminate H
         end.
  all: split; [reflexivity|]; intros Hfault; cbn in Hfault;
       try discriminate Hfault.
  all: eexists; split; [reflexivity|]; split; reflexivity.
Qed.

(** X25.  The OAuth strategy, when the page is not on a login URL after
    the login URL was loaded: no login button is looked up, and if
    nothing raises the result is a success without an error. *)
Theorem oauth_signed_in_needs_no_click (w : W) cache account_name domain
    login_url oauth_provider log_fn (url : pystr) (rest : list pystr) :
  let run := perform_oauth_signin_with_chrome account_name domain login_url
               oauth_provider log_fn (fresh w cache) in
  let t := ops (trace run.2) in
  urls t = url :: rest ->
  str_in (py "/login") (str_lower url) = false ->
  queried t = [] /\
  (existsb is_fault t = false ->
   exists r, run.1 = Val r /\ success r = true /\ error r = None).
Proof.
  intros run t. subst run t.
  apply (spec_fresh _ (fun o t =>
    urls t = url :: rest ->
    str_in (py "/login") (str_lower url) = false ->
    queried t = [] /\
    (existsb is_fault t = false ->
     exists r, o = Val r /\ success r = true /\ error r = None))).
  unfold perform_oauth_signin_with_chrome, _check_chrome_debug_port,
    async_with_playwright, acquire_oauth_context, release_oauth, new_page,
    oauth_fault.
  exec.
  all: use_block oauth_steps_signed_in.
  all: norm_trace; intros Hurls Hnot.
  all: repeat rewrite ?urls_cons, ?urls_app in Hurls;
       cbn [url_read urls omap list_omap] in Hurls;
       rewrite ?app_nil_r in Hurls; try discriminate Hurls.
  all: destruct (Hb _ _ Hurls Hnot) as [Hq Hok].
  all: split;
       [repeat rewrite ?queried_cons, ?queried_app; cbn [query];
        rewrite Hq; reflexivity|].
  all: intros Hfault.
  all: repeat rewrite ?existsb_cons, ?existsb_app in Hfault;
       cbn [is_fault existsb orb] in Hfault;
       rewrite ?orb_true_r, ?orb_false_r in Hfault;
       try discriminate Hfault.
  all: destruct (Hok Hfault) as (r & Hr & Hs & He);
       try discriminate Hr; injection Hr as <-.
  all: eexists; split; [reflexivity|]; split; assumption.
Qed.

End SignedIn.

(** *** The submit step of Credential-Login *)

Section Submit.
Context {W : Type} `{!World W} `{!PyRuntime} `{!Constants}.

Lemma keys_cons ev t :
  keys_pressed (ev :: t) = match key_pressed ev with
                           | Some key => key :: keys_pressed t
                           | None => keys_pressed t
                           end.
Proof. reflexivity. Qed.

Lemma keys_app t1 t2 :
  keys_pressed (t1 ++ t2) = keys_pressed t1 ++ keys_pressed t2.
Proof. apply omap_app. Qed.

Lemma tries_keys p act l hit t :
  (forall el r, key_pressed (EvOp (act el) r) = None) ->
  tries p act l hit t -> keys_pressed t = [].
Proof.
  intros Hact. induction 1; rewrite ?keys_cons, ?Hact; cbn [key_pressed];
    rewrite ?keys_cons, ?Hact; done.
Qed.

Lemma tries_no_click p act l hit t :
  (forall el r, clicked (EvOp (act el) r) = false) ->
  tries p act l hit t -> existsb clicked t = false.
Proof.
  intros Hact. induction 1; rewrite ?existsb_cons, ?Hact; cbn [clicked orb];
    rewrite ?existsb_cons, ?Hact; done.
Qed.

Lemma tries_miss_click p l t :
  tries p Click l false t -> existsb clicked t = false.
Proof.
  remember false as hit eqn:Hhit.
  induction 1; try discriminate Hhit; rewrite ?existsb_cons;
    cbn [clicked orb existsb]; auto.
Qed.

Lemma tries_miss_queried p act l t :
  (forall el r, query (EvOp (act el) r) = None) ->
  tries p act l false t -> queried t = l.
Proof.
  intros Hact Ht. destruct (tries_queried _ _ _ _ _ Hact Ht) as (n & -> & Hn).
  rewrite Hn by done. apply firstn_all.
Qed.

Lemma click_loop_keys p l hit t :
  tries p Click l hit t -> keys_pressed t = [].
Proof. by apply tries_keys. Qed.

Lemma click_loop_queried p l t :
  tries p Click l false t -> queried t = l.
Proof. by apply tries_miss_queried. Qed.

Lemma fill_loop_keys p text l hit t :
  tries p (fun el => Fill el text) l hit t -> keys_pressed t = [].
Proof. by apply tries_keys. Qed.

Lemma fill_loop_no_click p text l hit t :
  tries p (fun el => Fill el text) l hit t -> existsb clicked t = false.
Proof.
  intros Ht. eapply tries_no_click; [|exact Ht]. by intros el [|].
Qed.

Lemma enter_claim_app t1 t2 :
  keys_pressed t1 = [] -> existsb clicked t1 = false ->
  enter_claim t2 -> enter_claim (t1 ++ t2).
Proof.
  intros Hk Hc [He|(He & Hcl & Hs)]; unfold enter_claim;
    rewrite keys_app, Hk, existsb_app, Hc, queried_app; cbn [app orb].
  - by left.
  - right. split; [done|]. split; [done|]. by apply suffix_app_r.
Qed.

Lemma enter_claim_cons ev t :
  key_pressed ev = None -> clicked ev = false ->
  enter_claim t -> enter_claim (ev :: t).
Proof.
  intros Hk Hc. apply (enter_claim_app [ev]).
  - by rewrite keys_cons, Hk.
  - by rewrite existsb_cons, Hc.
Qed.

Lemma submit_login_enter a b p waf :
  spec (submit_login a b p waf) (fun _ t => enter_claim t).
Proof.
  unfold submit_login, wait_for_console, when. exec_all.
  all: unfold enter_claim.
  all: match goal with
       | H : tries _ _ _ true _ |- _ =>
           left; rewrite keys_app, (click_loop_keys _ _ _ _ H)
       | H : tries _ _ _ false _ |- _ =>
           right; rewrite keys_app, existsb_app, queried_app,
             (click_loop_keys _ _ _ _ H), (tries_miss_click _ _ _ H),
             (click_loop_queried _ _ _ H)
       end.
  all: cbn [app orb]; rewrite ?app_nil_r.
  all: first [ reflexivity
             | split; [reflexivity|]; split; [reflexivity|];
               cbn; rewrite ?app_nil_r; reflexivity ].
Qed.

Lemma fill_login_form_enter a b u pw p waf :
  spec (fill_login_form a b u pw p waf) (fun _ t => enter_claim t).
Proof.
  unfold fill_login_form. exec_all.
  all: try (eapply spec_mono; [apply submit_login_enter|];
            intros o t' Ht'; rewrite <- ?app_assoc;
            repeat (apply enter_claim_app;
                    [eapply fill_loop_keys; eassumption
                    |eapply fill_loop_no_click; eassumption|]);
            exact Ht').
  all: left; rewrite ?keys_app; cbn [app];
       repeat match goal with
         | H : tries _ _ _ _ _ |- _ =>
             rewrite (fill_loop_keys _ _ _ _ _ H); clear H
         end; reflexivity.
Qed.

Lemma real_login_steps_enter a b c d u pw req ctx dir :
  spec (real_login_steps a b c d u pw req ctx dir)
       (fun _ t => enter_claim t).
Proof.
  unfold real_login_steps, new_page, _wait_for_page_load, _get_waf_cookies.
  exec_all.
  all: try (eapply spec_mono; [apply fill_login_form_enter|];
            intros o t' Ht'; cbn [app];
            repeat (apply enter_claim_cons; [reflexivity|reflexivity|]);
            exact Ht').
  all: by left.
Qed.

(** X26.  In a run of Credential-Login the keyboard is used at most
    once: [Enter] is pressed when every selector of the submit button
    was looked up, as the last lookups of the run, and no click went
    through; nothing is pressed otherwise. *)
Theorem enter_is_the_fallback_of_the_submit_button (w : W) cache
    account_name domain login_url username password required_cookies
    log_fn :
  let run := perform_real_login_signin account_name domain login_url
               username password required_cookies log_fn (fresh w cache) in
  let t := ops (trace run.2) in
  keys_pressed t = [] \/
  (keys_pressed t = [py "Enter"] /\
   existsb clicked t = false /\
   submit_selectors `suffix_of` queried t).
Proof.
  intros run t. subst run t.
  apply (spec_fresh _ (fun _ t => enter_claim t)).
  unfold perform_real_login_signin, real_login_fault.
  unfold_session. exec.
  all: use_block real_login_steps_enter.
  all: norm_trace.
  all: try (by left).
  all: repeat (apply enter_claim_cons; [reflexivity|reflexivity|]).
  all: destruct Hb as [Hk|(Hk & Hc & Hs)]; unfold enter_claim;
       rewrite keys_app, existsb_app, queried_app, Hk; cbn.
  all: first [ by left
             | right; rewrite Hc, app_nil_r; done ].
Qed.

End Submit.

(** *** The API calls reported by HTTP-Only-Replay *)

Section HttpCalls.
Context {W : Type} `{!World W} `{!PyRuntime} `{!Constants}.

#[local] Abbreviation spec_calls := (spec_calls (W := W)).

Lemma get_lines_cons ev t :
  get_lines (ev :: t) = match answered ev with
                        | Some line => line :: get_lines t
                        | None => get_lines t
                        end.
Proof. reflexivity. Qed.

Lemma get_lines_app t1 t2 :
  get_lines (t1 ++ t2) = get_lines t1 ++ get_lines t2.
Proof. apply omap_app. Qed.

Lemma calls_ret {A} (a : A) Φ :
  (forall c, Φ c (Val a) c []) -> spec_calls (mret a) Φ.
Proof. intros HΦ s Hs. exists []. cbn. rewrite app_nil_r. auto. Qed.

Lemma calls_bind {A B} (m : M W A) (k : A -> M W B) Φ :
  spec_calls m (fun c o c1 t1 =>
    match o with
    | Val a => spec_calls (k a) (fun c1' o' c2 t2 =>
                 c1' = c1 -> Φ c o' c2 (t1 ++ t2))
    | Exn e => Φ c (Exn e) c1 t1
    end) ->
  spec_calls (m ≫= k) Φ.
Proof.
  intros Hm s Hs. destruct (Hm s Hs) as (t1 & Ht1 & Hl1 & H1).
  unfold mbind, M_bind. destruct (m s) as [[a|e] s1]; cbn in *.
  - destruct (H1 s1 Hl1) as (t2 & Ht2 & Hl2 & H2). exists (t1 ++ t2).
    rewrite Ht2, Ht1, app_assoc, ops_app. auto.
  - exists t1. auto.
Qed.

Lemma calls_try_except {A} (body : M W A) (h : exn -> M W A) Φ :
  spec_calls body (fun c o c1 t1 =>
    match o with
    | Val a => Φ c (Val a) c1 t1
    | Exn e => spec_calls (h e) (fun c1' o' c2 t2 =>
                 c1' = c1 -> Φ c o' c2 (t1 ++ t2))
    end) ->
  spec_calls (try_except body h) Φ.
Proof.
  intros Hm s Hs. destruct (Hm s Hs) as (t1 & Ht1 & Hl1 & H1).
  unfold try_except. destruct (body s) as [[a|e] s1]; cbn in *.
  - exists t1. auto.
  - destruct (H1 s1 Hl1) as (t2 & Ht2 & Hl2 & H2). exists (t1 ++ t2).
    rewrite Ht2, Ht1, app_assoc, ops_app. auto.
Qed.

Lemma calls_try_finally {A} (body : M W A) (fin : M W unit) Φ :
  spec_calls body (fun c r c1 t1 =>
    spec_calls fin (fun c1' o c2 t2 =>
      c1' = c1 ->
      match o with
      | Val _ => Φ c r c2 (t1 ++ t2)
      | Exn e => Φ c (Exn e) c2 (t1 ++ t2)
      end)) ->
  spec_calls (try_finally body fin) Φ.
Proof.
  intros Hm s Hs. destruct (Hm s Hs) as (t1 & Ht1 & Hl1 & H1).
  unfold try_finally. destruct (body s) as [r s1]; cbn in *.
  destruct (H1 s1 Hl1) as (t2 & Ht2 & Hl2 & H2).
  destruct (fin s1) as [[[]|e] s2]; cbn in *; exists (t1 ++ t2);
    rewrite Ht2, Ht1, app_assoc, ops_app; auto.
Qed.

Lemma calls_perform {X} (o : op X) Φ :
  (forall c r, Φ c r c [EvOp o r]) -> spec_calls (perform o) Φ.
Proof.
  intros HΦ s Hs. unfold perform. rewrite Hs.
  destruct (respond o (world s)) as [[r reqs] w']. cbn.
  exists [EvOp o r]. rewrite app_nil_r. split; [done|]. split; [done|].
  apply HΦ.
Qed.

Lemma calls_lift {A} (r : outcome A) Φ :
  (forall c, match r with
             | Val a => Φ c (Val a) c []
             | Exn e => Φ c (Exn e) c [EvRaise e]
             end) ->
  spec_calls (lift r) Φ.
Proof.
  intros HΦ s Hs. specialize (HΦ (calls s)). destruct r as [a|e]; cbn.
  - exists []. rewrite app_nil_r. auto.
  - exists [EvRaise e]. auto.
Qed.

Lemma calls_log b msg Φ :
  (forall c, Φ c (Val tt) c []) -> spec_calls (log b msg) Φ.
Proof.
  intros HΦ s Hs. exists [log_event b msg].
  rewrite ops_log_event. auto.
Qed.

Lemma calls_append line Φ :
  (forall c, Φ c (Val tt) (c ++ [line]) []) ->
  spec_calls (append_call line) Φ.
Proof. intros HΦ s Hs. exists []. cbn. rewrite app_nil_r. auto. Qed.

Lemma calls_new Φ :
  (forall c, Φ c (Val tt) [] []) -> spec_calls new_calls Φ.
Proof. intros HΦ s Hs. exists []. cbn. rewrite app_nil_r. auto. Qed.

Lemma calls_settle r Φ :
  (forall c,
     Φ c (Val {| success := p_success r;
                 waf_cookies := p_waf_cookies r;
                 api_calls := match p_api_calls r with
                              | SharedCalls => c
                              | FreshCalls l => l
                              end;
                 error := p_error r |}) c []) ->
  spec_calls (settle r) Φ.
Proof. intros HΦ s Hs. exists []. cbn. rewrite app_nil_r. auto. Qed.

Lemma calls_mono {A} (m : M W A) Φ Ψ :
  spec_calls m Φ -> (forall c o c' t, Φ c o c' t -> Ψ c o c' t) ->
  spec_calls m Ψ.
Proof.
  intros Hm HΦ s Hs. destruct (Hm s Hs) as (t & ? & ? & ?). eauto.
Qed.

End HttpCalls.

Ltac calls_go :=
  repeat
    (lazymatch goal with
     | |- Browser.spec_calls (mbind _ _) _ => apply calls_bind
     | |- Browser.spec_calls (try_except _ _) _ => apply calls_try_except
     | |- Browser.spec_calls (try_finally _ _) _ => apply calls_try_finally
     | |- Browser.spec_calls (mret _) _ => apply calls_ret; intros ?
     | |- Browser.spec_calls (log _ _) _ => apply calls_log; intros ?
     | |- Browser.spec_calls (append_call _) _ =>
         apply calls_append; intros ?
     | |- Browser.spec_calls new_calls _ => apply calls_new; intros ?
     | |- Browser.spec_calls (settle _) _ => apply calls_settle; intros ?
     | |- Browser.spec_calls (perform _) _ =>
         let r := fresh "r" in
         apply calls_perform; intros ? r; destruct r
     | |- Browser.spec_calls (lift ?r) _ =>
         apply calls_lift; intros ?; destruct r eqn:?
     | |- Browser.spec_calls (if ?c then _ else _) _ => destruct c eqn:?
     | |- Browser.spec_calls (match ?c with _ => _ end) _ =>
         destruct c eqn:?
     | |- _ = _ -> _ => intros ->
     end;
     cbn beta iota).

Section HttpCallsRun.
Context {W : Type} `{!World W} `{!PyRuntime} `{!Constants}.

Lemma set_cookies_calls (client : handle) (domain : pystr)
    (user_cookies : list (pystr * pystr)) :
  spec_calls
    (for_each user_cookies
       (fun '(name, value) =>
          netloc ← lift (urlparse_netloc domain);
          perform (ClientCookiesSet client name value netloc)))
    (fun c _ c' t => c' = c /\ get_lines t = []).
Proof.
  induction user_cookies as [|[name value] l IH]; cbn [for_each].
  - by apply calls_ret.
  - calls_go.
    + eapply calls_mono; [apply IH|]. intros c0 o c' t [-> Ht] ->.
      by rewrite get_lines_app, Ht.
    + done.
    + done.
Qed.

Lemma http_steps_calls a b c d cookies u k client :
  spec_calls (http_steps a b c d cookies u k client)
    (fun c0 o c' t =>
       c' = c0 ++ get_lines t /\
       forall r, o = Val r -> p_api_calls r = SharedCalls).
Proof.
  unfold http_steps. apply calls_bind.
  eapply calls_mono; [apply set_cookies_calls|].
  intros c0 [[]|e] c' t0 [-> Ht0];
    [|by rewrite Ht0, app_nil_r].
  calls_go.
  all: split; [|try discriminate; by intros ? [= <-]].
  all: rewrite ?get_lines_app, ?Ht0;
       cbn [app get_lines omap list_omap answered].
  all: rewrite <- ?(app_assoc (A := pystr)); cbn [app];
       rewrite ?app_nil_r; reflexivity.
Qed.


End HttpCallsRun.

(** *** Runs on scripted worlds, further *)

Section SamplesMore.
Import Scenarios Overrides.

Lemma cached_entry_is_returned_witness :
  let cache : gmap pystr (gmap pystr pystr) :=
    {[the_domain := {[py "waf_a" := py "x"]}]} in
  let run := get_cached_waf_cookies the_domain the_login_url [py "waf_a"]
               true (fresh calm cache) in
  run.1 = Val (Some {[py "waf_a" := py "x"]}) /\
  waf_cookie_cache run.2 = cache /\
  ops (trace run.2) = [EvAcquire; EvRelease].
Proof.
  apply (cached_entry_is_returned calm
           {[the_domain := {[py "waf_a" := py "x"]}]}
           the_domain the_login_url [py "waf_a"] true
           {[py "waf_a" := py "x"]}).
  - vm_compute. reflexivity.
  - intros c Hc. apply list_elem_of_singleton in Hc. subst c.
    vm_compute. eexists. reflexivity.
Defined.

Lemma second_call_hits_witness :
  let first := get_cached_waf_cookies the_domain the_login_url [py "waf_a"]
                 true (fresh calm ∅) in
  let second := get_cached_waf_cookies the_domain the_login_url
                  [py "waf_a"] true first.2 in
  second.1 = Val (Some {[py "waf_a" := py "x"]}) /\
  waf_cookie_cache second.2 = waf_cookie_cache first.2 /\
  exists t, trace second.2 = trace first.2 ++ t /\
            ops t = [EvAcquire; EvRelease].
Proof.
  apply (second_call_hits calm ∅ the_domain the_login_url [py "waf_a"] true
           {[py "waf_a" := py "x"]}).
  vm_compute. reflexivity.
Defined.

Lemma other_domains_untouched_witness :
  let cache : gmap pystr (gmap pystr pystr) :=
    {[py "https://y.test" := {[py "waf_b" := py "y"]}]} in
  let run := get_cached_waf_cookies the_domain the_login_url [py "waf_a"]
               true (fresh calm cache) in
  waf_cookie_cache run.2 !! py "https://y.test"
  = cache !! py "https://y.test".
Proof.
  apply (other_domains_untouched calm
           {[py "https://y.test" := {[py "waf_b" := py "y"]}]}
           the_domain the_login_url [py "waf_a"] true (py "https://y.test")).
  intros Heq. vm_compute in Heq. discriminate Heq.
Defined.



Lemma stealth_context_closed_once_witness :
  let t := ops (trace (invoke (replay [py "waf_a"]) (fresh calm ∅)).2) in
  length (List.filter is_context_close t) = 1%nat /\
  (length (List.filter is_rmtree t) <= 1)%nat /\
  (existsb close_fault t = true -> List.filter is_rmtree t = []).
Proof.
  apply (stealth_context_closed_once calm ∅ (replay [py "waf_a"])).
  - reflexivity.
  - vm_compute. reflexivity.
Defined.

Lemma nothing_released_unless_acquired_witness :
  let t := ops (trace (invoke (replay [py "waf_a"])
                         (fresh launch_fails ∅)).2) in
  Forall (fun ev => is_teardown ev = false) t.
Proof.
  apply (nothing_released_unless_acquired launch_fails ∅
           (replay [py "waf_a"])).
  - reflexivity.
  - vm_compute. reflexivity.
Defined.

Lemma success_carries_the_harvest_witness :
  let run := invoke (login [py "waf_a"; py "waf_b"]) (fresh calm ∅) in
  exists jar,
    harvested (ops (trace run.2)) = [jar] /\
    waf_cookies (result_of run.1)
    = foldl (keep_waf_cookie [py "waf_a"; py "waf_b"]) ∅ jar.
Proof.
  apply (success_carries_the_harvest calm ∅
           (login [py "waf_a"; py "waf_b"])).
  - reflexivity.
  - vm_compute. reflexivity.
  - vm_compute. reflexivity.
Defined.

Lemma oauth_over_cdp_keeps_the_browser_witness :
  let run := perform_oauth_signin_with_chrome (py "acc") the_domain
               the_login_url (py "github") true (fresh chrome_running ∅) in
  Forall (fun ev => is_launch ev || is_context_close ev = false)
         (ops (trace run.2)).
Proof.
  apply (oauth_over_cdp_keeps_the_browser chrome_running ∅).
  vm_compute. reflexivity.
Defined.

Lemma oauth_without_cdp_connects_nowhere_witness :
  let run := perform_oauth_signin_with_chrome (py "acc") the_domain
               the_login_url (py "github") true (fresh calm ∅) in
  Forall (fun ev => is_connect ev || is_page_close ev = false)
         (ops (trace run.2)).
Proof.
  apply (oauth_without_cdp_connects_nowhere calm ∅).
  vm_compute. reflexivity.
Defined.

Lemma cookie_replay_failure_carries_nothing_witness :
  let run := get_waf_cookies_and_trigger_signin (py "acc") the_domain
               the_login_url [py "waf_a"; py "waf_b"] (py "sess") (py "12")
               (py "new-api-user") true (fresh calm ∅) in
  waf_cookies (result_of run.1) = ∅ /\ api_calls (result_of run.1) = [].
Proof.
  apply (cookie_replay_failure_carries_nothing calm ∅ (py "acc") the_domain
           the_login_url [py "waf_a"; py "waf_b"] (py "sess") (py "12")
           (py "new-api-user") true).
  - vm_compute. reflexivity.
  - vm_compute. reflexivity.
Defined.

Lemma oauth_signed_in_needs_no_click_witness :
  let run := perform_oauth_signin_with_chrome (py "acc") the_domain
               the_login_url (py "github") true (fresh calm ∅) in
  let t := ops (trace run.2) in
  queried t = [] /\
  (existsb is_fault t = false ->
   exists r, run.1 = Val r /\ success r = true /\ error r = None).
Proof.
  apply (oauth_signed_in_needs_no_click calm ∅ (py "acc") the_domain
           the_login_url (py "github") true (py "https://x.test/console")
           []).
  - vm_compute. reflexivity.
  - vm_compute. reflexivity.
Defined.

End SamplesMore.

End BrowserMore.
